(** * Thumbnail editor: layered composition and version history

    A shallow embedding of the composition and versioning core of the
    editor:

    - [src/types.ts]            the data model ([Layout], [Layer],
                                [ThumbnailVersion], [Project]);
    - [src/utils/imageUtils.ts] the compositor [composeImage] with its local
                                helper [drawWithLayout];
    - [src/App.tsx]             the session state of the [App] component and
                                its handlers ([addToHistory], [removeLayer],
                                [updateActiveTransform], [createSnapshot],
                                [storeCurrentProjectState], [deleteProject],
                                [handleEdit], [handleGenerateFromScratch],
                                [handleChatSubmit]).

    Numbers are JavaScript numbers idealised as exact rationals plus [NaN],
    which is enough wherever only the presence of a value and the flow of
    [NaN] matter; the arithmetic of the placement is also given as the
    code computes it, in IEEE 754 binary64 ([Float64]). Random identifiers
    and [Date.now()] are inputs of the handlers; the image decoder and the
    remote services are oracles. *)

From stdpp Require Import base option list strings pretty.
From Stdlib Require Import ZArith QArith Lia Ascii.
From Stdlib Require PrimFloat Uint63.

Open Scope Z_scope.

(* ===================================================================== *)
(** ** JavaScript numbers *)
(* ===================================================================== *)

Module JsNum.

(** A JavaScript [number], idealised: a finite value is an exact rational
    (no rounding, no infinities), and [NaN] is kept because it is what
    arithmetic on [undefined] produces. *)
Inductive number : Type :=
| NaN : number
| Fin (q : Q) : number.

(** A property of an object that may be absent: [None] is [undefined]. *)
Definition field : Type := option number.

(** [ToNumber]: what an arithmetic operator sees when it reads a
    property; [undefined] becomes [NaN]. *)
Definition toNumber (f : field) : number :=
  match f with
  | Some n => n
  | None => NaN
  end.

(** The nullish coalescing operator [f ?? d]: only [undefined] (and
    [null]) is replaced, a [NaN] that is present is kept. *)
Definition nullish (f : field) (d : number) : number :=
  match f with
  | Some n => n
  | None => d
  end.

Definition lift2 (op : Q -> Q -> Q) (a b : number) : number :=
  match a, b with
  | Fin x, Fin y => Fin (op x y)
  | _, _ => NaN
  end.

Definition mul : number -> number -> number := lift2 Qmult.
Definition add : number -> number -> number := lift2 Qplus.
Definition sub : number -> number -> number := lift2 Qminus.

(** Division by a non-zero literal, the only division in the source
    ([/ 2] and [/ 100]). *)
Definition div_lit (a : number) (d : Q) : number :=
  match a with
  | Fin x => Fin (x / d)
  | NaN => NaN
  end.

Definition ofZ (z : Z) : number := Fin (inject_Z z).

(** Whether the property is there ([f !== undefined]). *)
Definition present (f : field) : bool :=
  match f with
  | Some _ => true
  | None => false
  end.

End JsNum.

Import JsNum.

(* ===================================================================== *)
(** ** Data model ([src/types.ts]) *)
(* ===================================================================== *)

(** [Layout]. The interface declares five numbers. A field is optional here
    because the objects are also read back from the project store, which
    checks nothing, and the preview reads every field through [??]. *)
Record Layout : Type := mkLayout {
  scale : field;
  stretchX : field;
  stretchY : field;
  translateX : field;
  translateY : field
}.

Record Layer : Type := mkLayer {
  layer_id : string;
  layer_url : string;
  layout : Layout;
  layer_name : string
}.

Record ThumbnailVersion : Type := mkVersion {
  version_id : string;
  url : string;
  layers : list Layer;
  version_baseLayout : Layout;
  version_prompt : option string;
  timestamp : Z
}.

Inductive EditMode : Type := styles | effects | transform | chat.

Record Project : Type := mkProject {
  project_id : string;
  name : string;
  thumbnailUrl : string;
  project_timestamp : Z;
  revisionStack : list ThumbnailVersion;
  snapshots : option (list ThumbnailVersion)
}.

Inductive Role : Type := user | assistant.

Record ChatMessage : Type := mkChatMessage {
  message_id : string;
  role : Role;
  text : string;
  message_timestamp : Z
}.

(** [keyof Layout] *)
Inductive LayoutKey : Type :=
| KScale | KStretchX | KStretchY | KTranslateX | KTranslateY.

Definition getField (k : LayoutKey) (l : Layout) : field :=
  match k with
  | KScale => scale l
  | KStretchX => stretchX l
  | KStretchY => stretchY l
  | KTranslateX => translateX l
  | KTranslateY => translateY l
  end.

(** The object spread [{ ...l, [key]: value }]. *)
Definition setField (k : LayoutKey) (value : number) (l : Layout) : Layout :=
  match k with
  | KScale => mkLayout (Some value) (stretchX l) (stretchY l) (translateX l) (translateY l)
  | KStretchX => mkLayout (scale l) (Some value) (stretchY l) (translateX l) (translateY l)
  | KStretchY => mkLayout (scale l) (stretchX l) (Some value) (translateX l) (translateY l)
  | KTranslateX => mkLayout (scale l) (stretchX l) (stretchY l) (Some value) (translateY l)
  | KTranslateY => mkLayout (scale l) (stretchX l) (stretchY l) (translateX l) (Some value)
  end.

(** [DEFAULT_LAYOUT] of [src/App.tsx]. *)
Definition DEFAULT_LAYOUT : Layout :=
  mkLayout (Some (Fin 1)) (Some (Fin 1)) (Some (Fin 1)) (Some (Fin 0)) (Some (Fin 0)).

(** [MAX_SNAPSHOTS] of the constants module. *)
Definition MAX_SNAPSHOTS : nat := 12.

(** JavaScript truthiness of a [string | null | undefined]: the empty
    string is falsy like [null]. *)
Definition truthy (s : option string) : bool :=
  match s with
  | Some s => negb (String.eqb s "")
  | None => false
  end.

(** [Array.prototype.slice(0, e)] for an integer [e]: a negative end counts
    from the back, and the end is clamped to the length. *)
Definition slice0 {A : Type} (l : list A) (e : Z) : list A :=
  if e <? 0 then take (Z.to_nat (Z.max (Z.of_nat (length l) + e) 0)) l
  else take (Z.to_nat e) l.

(* ===================================================================== *)
(** ** The compositor ([src/utils/imageUtils.ts]) *)
(* ===================================================================== *)

Module ImageUtils.

(** A decoded [HTMLImageElement]. For an element made by [new Image()]
    that is not in the document, [width] and [height] are the natural
    (intrinsic) pixel dimensions of the decoded picture. *)
Record Image : Type := mkImage {
  src : string;
  width : Z;
  height : Z
}.

(** One executed [ctx.drawImage(img, x, y, w, h)]. *)
Record DrawOp : Type := mkDrawOp {
  op_img : Image;
  op_x : Q;
  op_y : Q;
  op_w : Q;
  op_h : Q
}.

(** The canvas while it is being painted: its size, the colour it was
    filled with, the draw operations in paint order (later ones paint
    over earlier ones) and the console warnings issued so far. *)
Record Canvas : Type := mkCanvas {
  canvas_width : Z;
  canvas_height : Z;
  fillStyle : string;
  ops : list DrawOp;
  console : list string
}.

(** The arguments [drawWithLayout] passes to [ctx.drawImage]. *)
Record Placement : Type := mkPlacement {
  px : number;
  py : number;
  targetW : number;
  targetH : number
}.

Inductive ComposeError : Type :=
| NoCanvasContext      (* [throw new Error("Failed to get canvas context")] *)
| ImageLoadRejected (u : string).  (* the rejected promise of [loadImage] *)

(** The arithmetic of [drawWithLayout], lines 51-54. *)
Definition placement (cw ch : Z) (img : Image) (l : Layout) : Placement :=
  let tW := mul (mul (ofZ (width img)) (toNumber (scale l))) (toNumber (stretchX l)) in
  let tH := mul (mul (ofZ (height img)) (toNumber (scale l))) (toNumber (stretchY l)) in
  let x := add (div_lit (sub (ofZ cw) tW) 2)
               (div_lit (mul (toNumber (translateX l)) (ofZ cw)) 100) in
  let y := add (div_lit (sub (ofZ ch) tH) 2)
               (div_lit (mul (toNumber (translateY l)) (ofZ ch)) 100) in
  mkPlacement x y tW tH.

(** [ctx.drawImage(img, x, y, w, h)]: the canvas API returns without
    drawing when an argument is not finite. *)
Definition drawImage (c : Canvas) (img : Image) (p : Placement) : Canvas :=
  match px p, py p, targetW p, targetH p with
  | Fin x, Fin y, Fin w, Fin h =>
      mkCanvas (canvas_width c) (canvas_height c) (fillStyle c)
               (ops c ++ [mkDrawOp img x y w h]) (console c)
  | _, _, _, _ => c
  end.

Definition drawWithLayout (c : Canvas) (img : Image) (l : Layout) : Canvas :=
  drawImage c img (placement (canvas_width c) (canvas_height c) img l).

Definition warn (c : Canvas) (id : string) : Canvas :=
  mkCanvas (canvas_width c) (canvas_height c) (fillStyle c) (ops c)
           (console c ++ [id]).

(** The canvas of lines 41-45: 1280 x 720, filled with opaque black. *)
Definition blank : Canvas := mkCanvas 1280 720 "#000000" [] [].

Section Compose.

(** [loadImage]: the decoder; [None] is a rejected promise. *)
Variable loadImage : string -> option Image.

(** One iteration of the [for ... of layers] loop with its
    [try]/[catch]. *)
Definition drawLayer (c : Canvas) (layer : Layer) : Canvas :=
  match loadImage (layer_url layer) with
  | Some layerImg => drawWithLayout c layerImg (layout layer)
  | None => warn c (layer_id layer)
  end.

(** [composeImage]. [ctxAvailable] is whether [getContext('2d')]
    returned a context. The result stands for the data URL of
    [canvas.toDataURL('image/png')]: the painted canvas itself. *)
Definition composeImage (ctxAvailable : bool) (imageUrl : string)
    (baseLayout : Layout) (layers : list Layer) : ComposeError + Canvas :=
  if negb ctxAvailable then inl NoCanvasContext
  else
    match loadImage imageUrl with
    | None => inl (ImageLoadRejected imageUrl)
    | Some baseImg =>
        inr (foldl drawLayer (drawWithLayout blank baseImg baseLayout) layers)
    end.

End Compose.

End ImageUtils.

(* ===================================================================== *)
(** ** The placement in double precision ([src/utils/imageUtils.ts]) *)
(* ===================================================================== *)

Module Float64.

Import ImageUtils.
Import PrimFloat.

#[local] Set Warnings "-inexact-float".

(** A JavaScript [number] as it is: an IEEE 754 binary64 value, with its
    rounding, its infinities and [NaN]. The operations are those of the
    kernel's primitive floats, which round to nearest, ties to even, as
    the operators of JavaScript do. *)
Definition number : Set := float.

(** An integer property ([img.width], [canvas.width]) read as a number;
    exact below 2^53. *)
Definition ofZ (z : Z) : number :=
  if (z <? 0)%Z then opp (of_uint63 (Uint63.of_Z (- z)))
  else of_uint63 (Uint63.of_Z z).

(** [Layout] as the interface declares it: five numbers. *)
Record Layout : Set := mkLayout {
  scale : number;
  stretchX : number;
  stretchY : number;
  translateX : number;
  translateY : number
}.

(** One executed [ctx.drawImage(img, x, y, w, h)]. *)
Record DrawOp : Set := mkDrawOp {
  op_img : Image;
  op_x : number;
  op_y : number;
  op_w : number;
  op_h : number
}.

(** The arguments [drawWithLayout] passes to [ctx.drawImage]. *)
Record Placement : Set := mkPlacement {
  px : number;
  py : number;
  targetW : number;
  targetH : number
}.

(** The arithmetic of [drawWithLayout], lines 51-54, operator by operator:
    [*] and [/] associate to the left. *)
Definition placement (cw ch : Z) (img : Image) (l : Layout) : Placement :=
  let targetW := mul (mul (ofZ (width img)) (scale l)) (stretchX l) in
  let targetH := mul (mul (ofZ (height img)) (scale l)) (stretchY l) in
  let x := add (div (sub (ofZ cw) targetW) 2)
               (div (mul (translateX l) (ofZ cw)) 100) in
  let y := add (div (sub (ofZ ch) targetH) 2)
               (div (mul (translateY l) (ofZ ch)) 100) in
  mkPlacement x y targetW targetH.

(** Whether the four arguments are finite. *)
Definition finite (p : Placement) : bool :=
  is_finite (px p) && is_finite (py p) && is_finite (targetW p) && is_finite (targetH p).

(** [ctx.drawImage(img, x, y, w, h)] on the draw operations of the canvas:
    the canvas API returns without drawing when an argument is infinite or
    [NaN]. *)
Definition drawImage (ops : list DrawOp) (img : Image) (p : Placement) : list DrawOp :=
  if finite p then ops ++ [mkDrawOp img (px p) (py p) (targetW p) (targetH p)]
  else ops.

(** [drawWithLayout] on a canvas of [cw] x [ch] pixels. *)
Definition drawWithLayout (cw ch : Z) (ops : list DrawOp) (img : Image) (l : Layout)
    : list DrawOp :=
  drawImage ops img (placement cw ch img l).

(** As the specification states the placement: the rendered size, the
    image centered on the canvas and then offset by
    [(translateX / 100 * canvasWidth, translateY / 100 * canvasHeight)],
    its operations taken in double precision as they are written. *)
Definition claimedPlacement (cw ch : Z) (img : Image) (l : Layout) : Placement :=
  let renderedW := mul (mul (ofZ (width img)) (scale l)) (stretchX l) in
  let renderedH := mul (mul (ofZ (height img)) (scale l)) (stretchY l) in
  let x := add (div (sub (ofZ cw) renderedW) 2)
               (mul (div (translateX l) 100) (ofZ cw)) in
  let y := add (div (sub (ofZ ch) renderedH) 2)
               (mul (div (translateY l) 100) (ofZ ch)) in
  mkPlacement x y renderedW renderedH.

(** A picture that fills the canvas, moved 7 percent to the right, and a
    picture of half the canvas at a scale of 0.55. *)
Definition wide : Image := mkImage "data:wide" 1280 720.
Definition moved : Layout := mkLayout 1%float 1%float 1%float 7%float 0%float.
Definition half : Image := mkImage "data:half" 640 360.
Definition shrunk : Layout := mkLayout 0.55%float 1%float 1%float 0%float 0%float.
(** A scale at which the width overflows. *)
Definition huge : Layout := mkLayout 1e308%float 1%float 1%float 0%float 0%float.

End Float64.

(* ===================================================================== *)
(** ** The session ([src/App.tsx]) *)
(* ===================================================================== *)

Module App.

Import ImageUtils.

(** The [useState] cells of the [App] component that the handlers below
    read or write. A handler reads the cells of the render it was created
    in (its closure) and writes with the setters. *)
Record Session : Type := mkSession {
  history : list ThumbnailVersion;
  currentIdx : Z;
  projects : list Project;
  activeProjectId : option string;
  isProcessing : bool;
  prompt : string;
  chatInput : string;
  chatMessages : list ChatMessage;
  error : option string;
  baseLayout : Layout;
  activeLayerId : string;
  editMode : EditMode
}.

Definition setHistory (h : list ThumbnailVersion) (s : Session) : Session :=
  mkSession h (currentIdx s) (projects s) (activeProjectId s) (isProcessing s)
            (prompt s) (chatInput s) (chatMessages s) (error s)
            (baseLayout s) (activeLayerId s) (editMode s).
Definition setCurrentIdx (i : Z) (s : Session) : Session :=
  mkSession (history s) i (projects s) (activeProjectId s) (isProcessing s)
            (prompt s) (chatInput s) (chatMessages s) (error s)
            (baseLayout s) (activeLayerId s) (editMode s).
Definition setProjects (ps : list Project) (s : Session) : Session :=
  mkSession (history s) (currentIdx s) ps (activeProjectId s) (isProcessing s)
            (prompt s) (chatInput s) (chatMessages s) (error s)
            (baseLayout s) (activeLayerId s) (editMode s).
Definition setActiveProjectId (a : option string) (s : Session) : Session :=
  mkSession (history s) (currentIdx s) (projects s) a (isProcessing s)
            (prompt s) (chatInput s) (chatMessages s) (error s)
            (baseLayout s) (activeLayerId s) (editMode s).
Definition setIsProcessing (b : bool) (s : Session) : Session :=
  mkSession (history s) (currentIdx s) (projects s) (activeProjectId s) b
            (prompt s) (chatInput s) (chatMessages s) (error s)
            (baseLayout s) (activeLayerId s) (editMode s).
Definition setPrompt (p : string) (s : Session) : Session :=
  mkSession (history s) (currentIdx s) (projects s) (activeProjectId s) (isProcessing s)
            p (chatInput s) (chatMessages s) (error s)
            (baseLayout s) (activeLayerId s) (editMode s).
Definition setChatInput (c : string) (s : Session) : Session :=
  mkSession (history s) (currentIdx s) (projects s) (activeProjectId s) (isProcessing s)
            (prompt s) c (chatMessages s) (error s)
            (baseLayout s) (activeLayerId s) (editMode s).
Definition setChatMessages (ms : list ChatMessage) (s : Session) : Session :=
  mkSession (history s) (currentIdx s) (projects s) (activeProjectId s) (isProcessing s)
            (prompt s) (chatInput s) ms (error s)
            (baseLayout s) (activeLayerId s) (editMode s).
Definition setError (e : option string) (s : Session) : Session :=
  mkSession (history s) (currentIdx s) (projects s) (activeProjectId s) (isProcessing s)
            (prompt s) (chatInput s) (chatMessages s) e
            (baseLayout s) (activeLayerId s) (editMode s).
Definition setBaseLayout (l : Layout) (s : Session) : Session :=
  mkSession (history s) (currentIdx s) (projects s) (activeProjectId s) (isProcessing s)
            (prompt s) (chatInput s) (chatMessages s) (error s)
            l (activeLayerId s) (editMode s).
Definition setActiveLayerId (a : string) (s : Session) : Session :=
  mkSession (history s) (currentIdx s) (projects s) (activeProjectId s) (isProcessing s)
            (prompt s) (chatInput s) (chatMessages s) (error s)
            (baseLayout s) a (editMode s).

(** The state of the first render. *)
Definition initial : Session :=
  mkSession [] (-1) [] None false "" "" [] None DEFAULT_LAYOUT "base" styles.

(** [currentIdx >= 0 && currentIdx < history.length ? history[currentIdx] : null] *)
Definition currentVersion (s : Session) : option ThumbnailVersion :=
  if (0 <=? currentIdx s) && (currentIdx s <? Z.of_nat (length (history s)))
  then history s !! Z.to_nat (currentIdx s)
  else None.

(** [projects.find(p => p.id === activeProjectId)] *)
Definition activeProject (s : Session) : option Project :=
  match activeProjectId s with
  | Some a => List.find (fun p => String.eqb (project_id p) a) (projects s)
  | None => None
  end.

(** The effect that follows a render in which [currentIdx] or [history]
    changed: [if (currentVersion) setBaseLayout(currentVersion.baseLayout
    || DEFAULT_LAYOUT)]. A version of type [ThumbnailVersion] has its
    [baseLayout], an object, which is truthy. *)
Definition syncBaseLayout (s : Session) : Session :=
  match currentVersion s with
  | Some v => setBaseLayout (version_baseLayout v) s
  | None => s
  end.

(** The session's [baseLayout] cell mirrors the current version, which is
    what [syncBaseLayout] establishes before the next event is handled. *)
Definition synced (s : Session) : Prop :=
  forall v, currentVersion s = Some v -> baseLayout s = version_baseLayout v.

(** [persistProjects]: the store either takes the list or fails, and a
    failure is turned into the error message. *)
Definition persistProjects (storeOk : bool) (s : Session) : Session :=
  if storeOk then s else setError (Some "Storage error. Database might be full.") s.

(** The version built by [addToHistory]; [r] is the render whose closure
    the caller runs in, [newId] the random id and [now] the clock. *)
Definition newVersion (r : Session) (u : string) (p : option string)
    (ls : list Layer) (customBaseLayout : option Layout)
    (newId : string) (now : Z) : ThumbnailVersion :=
  mkVersion newId u ls (default (baseLayout r) customBaseLayout) p now.

(** [addToHistory]: [history] and [currentIdx] are read from the closure
    [r]; the two setters write into the live session [s]. *)
Definition addToHistory (r : Session) (u : string) (p : option string)
    (ls : list Layer) (customBaseLayout : option Layout)
    (newId : string) (now : Z) (s : Session) : Session :=
  let newHistory :=
    slice0 (history r) (currentIdx r + 1)
      ++ [newVersion r u p ls customBaseLayout newId now] in
  setCurrentIdx (Z.of_nat (length newHistory) - 1) (setHistory newHistory s).

(** [updateActiveTransform], called from an event handler: closure and
    live session coincide. *)
Definition updateActiveTransform (key : LayoutKey) (value : number)
    (s : Session) : Session :=
  if String.eqb (activeLayerId s) "base" then
    let nextLayout := setField key value (baseLayout s) in
    let s1 := setBaseLayout nextLayout s in
    match currentVersion s with
    | Some cv =>
        setHistory
          (<[Z.to_nat (currentIdx s) :=
               mkVersion (version_id cv) (url cv) (layers cv) nextLayout
                         (version_prompt cv) (timestamp cv)]> (history s)) s1
    | None => s1
    end
  else
    match currentVersion s with
    | Some cv =>
        let updatedLayers :=
          List.map (fun l =>
                 if String.eqb (layer_id l) (activeLayerId s)
                 then mkLayer (layer_id l) (layer_url l)
                              (setField key value (layout l)) (layer_name l)
                 else l) (layers cv) in
        setHistory
          (<[Z.to_nat (currentIdx s) :=
               mkVersion (version_id cv) (url cv) updatedLayers
                         (version_baseLayout cv) (version_prompt cv)
                         (timestamp cv)]> (history s)) s
    | None => s
    end.

(** [removeLayer] *)
Definition removeLayer (id : string) (newId : string) (now : Z)
    (s : Session) : Session :=
  match currentVersion s with
  | None => s
  | Some cv =>
      let updatedLayers :=
        List.filter (fun l => negb (String.eqb (layer_id l) id)) (layers cv) in
      let s1 := addToHistory s (url cv) (Some "Removed Layer") updatedLayers
                             None newId now s in
      if String.eqb (activeLayerId s) id then setActiveLayerId "base" s1 else s1
  end.

(** [createSnapshot] *)
Definition createSnapshot (now : Z) (storeOk : bool) (s : Session) : Session :=
  match currentVersion s, truthy (activeProjectId s), activeProjectId s with
  | Some cv, true, Some a =>
      let currentSnapshots := default [] (activeProject s ≫= snapshots) in
      let newSnapshot :=
        mkVersion (version_id cv) (url cv) (layers cv) (version_baseLayout cv)
                  (version_prompt cv) now in
      let updatedSnapshots :=
        slice0 (newSnapshot :: currentSnapshots) (Z.of_nat MAX_SNAPSHOTS) in
      let updatedProjects :=
        List.map (fun p =>
               if String.eqb (project_id p) a
               then mkProject (project_id p) (name p) (thumbnailUrl p)
                              (project_timestamp p) (revisionStack p)
                              (Some updatedSnapshots)
               else p) (projects s) in
      persistProjects storeOk (setProjects updatedProjects s)
  | _, _, _ => s
  end.

(** [storeCurrentProjectState] *)
Definition storeCurrentProjectState (newId : string) (now : Z)
    (storeOk : bool) (s : Session) : Session :=
  match currentVersion s with
  | None => s
  | Some cv =>
      match truthy (activeProjectId s), activeProjectId s with
      | true, Some a =>
          let updatedProjects :=
            List.map (fun p =>
                   if String.eqb (project_id p) a
                   then mkProject (project_id p) (name p) (url cv) now
                                  (history s) (snapshots p)
                   else p) (projects s) in
          persistProjects storeOk (setProjects updatedProjects s)
      | _, _ =>
          let newProject :=
            mkProject newId
                      ("Thumbnail " +:+ pretty (length (projects s) + 1)%nat)
                      (url cv) now (history s) (Some []) in
          persistProjects storeOk
            (setProjects (newProject :: projects s)
               (setActiveProjectId (Some newId) s))
      end
  end.

(** [deleteProject], once the modal is confirmed, when nothing has
    changed the project list and the active project id since the delete
    button was clicked: the [onConfirm] function reads them from the
    render of that click ([Editor.deleteProject_start] and
    [Editor.deleteProject_settle] have the general case). *)
Definition deleteProject (id : string) (storeOk : bool) (s : Session) : Session :=
  let updated :=
    List.filter (fun p => negb (String.eqb (project_id p) id)) (projects s) in
  let s1 := persistProjects storeOk (setProjects updated s) in
  if decide (activeProjectId s = Some id)
  then mkSession [] (-1) (projects s1) None (isProcessing s1) "" (chatInput s1) []
                 None DEFAULT_LAYOUT "base" (editMode s1)
  else s1.

(** *** The preview

    The [style] of the [<img>] elements and the [value] of the sliders read
    the five knobs of a layout through [??]. *)
Record Knobs : Type := mkKnobs {
  k_scale : number;
  k_stretchX : number;
  k_stretchY : number;
  k_translateX : number;
  k_translateY : number
}.

Definition previewKnobs (l : Layout) : Knobs :=
  mkKnobs (nullish (scale l) (Fin 1))
          (nullish (stretchX l) (Fin 1))
          (nullish (stretchY l) (Fin 1))
          (nullish (translateX l) (Fin 0))
          (nullish (translateY l) (Fin 0)).

(** *** The asynchronous handlers

    [handleEdit] and [handleGenerateFromScratch] run up to their first
    [await] inside the click event, and their continuation runs when the
    awaited calls have settled. The continuation still reads the cells of
    the render the click happened in. Between the awaits of [handleEdit]
    only the status message is written, so one continuation step stands
    for the rest of the handler. *)

(** What a continuation finds outside the session when it runs. *)
Record Env : Type := mkEnv {
  loadImage : string -> option Image;
  ctxAvailable : bool;
  (** [editImage]: the remote edit service, [None] when it throws. *)
  editImage : Canvas -> string -> option string;
  (** [generateNewImage]: the remote generate service. *)
  generateNewImage : string -> option string;
  (** [ai.models.generateContent] of the coach, asked with the composed
      image when there is one; the answer is [response.text]. *)
  generateContent : option Canvas -> string -> option string;
  randomId : string;
  dateNow : Z
}.

(** White space as [String.prototype.trim] has it (the productions
    WhiteSpace and LineTerminator), among the characters a [string] holds
    here: a string is the sequence of its code units and [ascii] holds the
    code units below 256, so that the white space is tab, line feed,
    vertical tab, form feed, carriage return, space and the no-break space
    U+00A0; the white space from U+1680 on has no code unit here. *)
Definition isWhiteSpace (a : Ascii.ascii) : bool :=
  existsb (Ascii.eqb a) [" "; "009"; "010"; "011"; "012"; "013"; "160"]%char.

Fixpoint trimStart (s : string) : string :=
  match s with
  | String a s' => if isWhiteSpace a then trimStart s' else s
  | EmptyString => EmptyString
  end.

(** [String.prototype.trim]: the white space is taken off the two ends. *)
Definition trim (s : string) : string :=
  String.rev (trimStart (String.rev (trimStart s))).

(** [a || b] on strings. *)
Definition orElse (a b : string) : string :=
  if String.eqb a "" then b else a.

(** A handler suspended at an [await], with what its closure holds. *)
Inductive Task : Type :=
| EditTask (r : Session) (cv : ThumbnailVersion) (rawPrompt : string)
| GenerateTask (r : Session) (templatePrompt : string)
| ChatTask (r : Session) (userText : string).

(** The live session and the handlers in flight. *)
Record World : Type := mkWorld {
  live : Session;
  inflight : list Task
}.

(** [handleEdit] up to its first [await]. *)
Definition handleEdit_start (customPrompt : option string) (w : World) : World :=
  let r := live w in
  let rawPrompt := trim (orElse (default "" customPrompt) (prompt r)) in
  match currentVersion r with
  | None => w
  | Some cv =>
      if String.eqb rawPrompt ""
         && negb (match editMode r with transform => true | _ => false end)
      then w
      else mkWorld (setIsProcessing true (live w))
                   (inflight w ++ [EditTask r cv rawPrompt])
  end.

(** The request [handleEdit] sends, and the image [handleChatSubmit]
    attaches: the composed raster of the current version, painted with the
    session's [baseLayout] and the layers. *)
Definition submission (e : Env) (r : Session) (cv : ThumbnailVersion)
    : ComposeError + Canvas :=
  composeImage (loadImage e) (ctxAvailable e) (url cv) (baseLayout r) (layers cv).

(** The rest of [handleEdit]: [try] body, [catch] and [finally]. *)
Definition handleEdit_settle (e : Env) (r : Session) (cv : ThumbnailVersion)
    (rawPrompt : string) (s : Session) : Session :=
  let failed := setError (Some "Visual synthesis failed. Please try again.") s in
  let s1 :=
    match submission e r cv with
    | inl _ => failed
    | inr composedB64 =>
        match editImage e composedB64 (orElse rawPrompt "Clean background removal.") with
        | None => failed
        | Some result =>
            setPrompt ""
              (setBaseLayout DEFAULT_LAYOUT
                 (addToHistory r result (Some (orElse rawPrompt "AI Edit")) []
                               (Some DEFAULT_LAYOUT) (randomId e) (dateNow e) s))
        end
    end in
  setIsProcessing false s1.

(** [handleGenerateFromScratch] up to its [await]. *)
Definition handleGenerateFromScratch_start (templatePrompt : string)
    (w : World) : World :=
  mkWorld (setIsProcessing true (live w))
          (inflight w ++ [GenerateTask (live w) templatePrompt]).

(** The rest of [handleGenerateFromScratch]. *)
Definition handleGenerateFromScratch_settle (e : Env) (r : Session)
    (templatePrompt : string) (s : Session) : Session :=
  let s1 :=
    match generateNewImage e templatePrompt with
    | None => setError (Some "Background generation failed.") s
    | Some result =>
        addToHistory r result (Some templatePrompt) [] (Some DEFAULT_LAYOUT)
                     (randomId e) (dateNow e) s
    end in
  setIsProcessing false s1.

(** [handleChatSubmit] up to its first [await]. It is the one handler
    that reads the busy flag. The message list is written with an updater
    function, which sees the live list. *)
Definition handleChatSubmit_start (newId : string) (now : Z) (w : World) : World :=
  let r := live w in
  if String.eqb (trim (chatInput r)) "" || isProcessing r then w
  else
    let userText := chatInput r in
    let userMessage := mkChatMessage newId user userText now in
    mkWorld
      (setIsProcessing true
         (setChatInput ""
            (setChatMessages (chatMessages (live w) ++ [userMessage]) (live w))))
      (inflight w ++ [ChatTask r userText]).

(** The rest of [handleChatSubmit]. *)
Definition handleChatSubmit_settle (e : Env) (r : Session) (userText : string)
    (s : Session) : Session :=
  let failed := setError (Some "Coach is currently busy with another creator.") s in
  let ask (image : option Canvas) :=
    match generateContent e image userText with
    | None => failed
    | Some answer =>
        let aiMessage :=
          mkChatMessage (randomId e) assistant
            (orElse answer "I'm having trouble viewing the frame. Say again?")
            (dateNow e) in
        setChatMessages (chatMessages s ++ [aiMessage]) s
    end in
  let s1 :=
    match currentVersion r with
    | Some cv =>
        match submission e r cv with
        | inl _ => failed
        | inr composedB64 => ask (Some composedB64)
        end
    | None => ask None
    end in
  setIsProcessing false s1.

Definition settle (e : Env) (t : Task) (s : Session) : Session :=
  match t with
  | EditTask r cv rawPrompt => handleEdit_settle e r cv rawPrompt s
  | GenerateTask r templatePrompt =>
      handleGenerateFromScratch_settle e r templatePrompt s
  | ChatTask r userText => handleChatSubmit_settle e r userText s
  end.

(** What happens to the session: the user starts an operation or types
    into the chat box, or the awaited calls of the [i]-th handler in flight
    settle. *)
Inductive Event : Type :=
| ClickEdit (customPrompt : option string)
| ClickGenerate (templatePrompt : string)
| TypeChat (input : string)
| ClickChat (newId : string) (now : Z)
| Settle (i : nat) (e : Env).

(** One event, followed by the render and its effect. *)
Definition step (w : World) (ev : Event) : World :=
  let w1 :=
    match ev with
    | ClickEdit customPrompt => handleEdit_start customPrompt w
    | ClickGenerate templatePrompt => handleGenerateFromScratch_start templatePrompt w
    | TypeChat input => mkWorld (setChatInput input (live w)) (inflight w)
    | ClickChat newId now => handleChatSubmit_start newId now w
    | Settle i e =>
        match inflight w !! i with
        | Some t => mkWorld (settle e t (live w)) (delete i (inflight w))
        | None => w
        end
    end in
  mkWorld (syncBaseLayout (live w1)) (inflight w1).

Definition run (w : World) (evs : list Event) : World := foldl step w evs.

(** The session just mounted: nothing in flight. *)
Definition mounted : World := mkWorld initial [].

End App.

(* ===================================================================== *)
(** ** Specification vocabulary *)
(* ===================================================================== *)

Module Spec.

Import ImageUtils App.

(** The layout with the documented default written into every missing
    field (section 8, Normalization). *)
Definition withDefaults (l : Layout) : Layout :=
  mkLayout (Some (nullish (scale l) (Fin 1)))
           (Some (nullish (stretchX l) (Fin 1)))
           (Some (nullish (stretchY l) (Fin 1)))
           (Some (nullish (translateX l) (Fin 0)))
           (Some (nullish (translateY l) (Fin 0))).

Definition hasMissingField (l : Layout) : bool :=
  negb (present (scale l) && present (stretchX l) && present (stretchY l)
        && present (translateX l) && present (translateY l)).

(** The draw operations one image contributes: the one of its placement,
    none when the placement is not finite. *)
Definition placedOps (cw ch : Z) (img : Image) (l : Layout) : list DrawOp :=
  match placement cw ch img l with
  | mkPlacement (Fin x) (Fin y) (Fin w) (Fin h) => [mkDrawOp img x y w h]
  | _ => []
  end.

(** What one layer contributes to the raster: nothing when its image does
    not decode. *)
Definition layerOps (loadImage : string -> option Image) (cw ch : Z)
    (layer : Layer) : list DrawOp :=
  match loadImage (layer_url layer) with
  | Some img => placedOps cw ch img (layout layer)
  | None => []
  end.

(** The pixels of a painted canvas: everything but the console. *)
Definition raster (c : Canvas) : Z * Z * string * list DrawOp :=
  (canvas_width c, canvas_height c, fillStyle c, ops c).

(** The snapshot [{ ...v, timestamp: now }]. *)
Definition refreshed (v : ThumbnailVersion) (now : Z) : ThumbnailVersion :=
  mkVersion (version_id v) (url v) (layers v) (version_baseLayout v)
            (version_prompt v) now.

Definition snapshotCount (p : Project) : nat :=
  length (default [] (snapshots p)).

(** Every project of the session respects the snapshot cap. *)
Definition capped (s : Session) : Prop :=
  Forall (fun p => (snapshotCount p <= MAX_SNAPSHOTS)%nat) (projects s).

(** [{ ...p, snapshots }] *)
Definition withSnapshots (p : Project) (snaps : list ThumbnailVersion) : Project :=
  mkProject (project_id p) (name p) (thumbnailUrl p) (project_timestamp p)
            (revisionStack p) (Some snaps).

(** [{ ...p, thumbnailUrl, revisionStack, timestamp }] *)
Definition saved (p : Project) (thumb : string) (stack : list ThumbnailVersion)
    (now : Z) : Project :=
  mkProject (project_id p) (name p) thumb now stack (snapshots p).

(** A sequence of [createSnapshot] calls, each with its clock reading and
    the answer of the store. *)
Definition createSnapshots (calls : list (Z * bool)) (s : Session) : Session :=
  foldl (fun s call => createSnapshot (fst call) (snd call) s) s calls.

(** A layer of the version carries the given id. *)
Definition hasLayer (id : string) (v : ThumbnailVersion) : Prop :=
  Exists (fun l => layer_id l = id) (layers v).

End Spec.

(* ===================================================================== *)
(** ** Concrete sessions *)
(* ===================================================================== *)

Module Scenario.

Import ImageUtils App Spec.

Definition vA : ThumbnailVersion := mkVersion "a" "data:A" [] DEFAULT_LAYOUT None 1.
Definition vB : ThumbnailVersion := mkVersion "b" "data:B" [] DEFAULT_LAYOUT None 2.
Definition vC : ThumbnailVersion := mkVersion "c" "data:C" [] DEFAULT_LAYOUT None 3.

(** [[A; B; C]] with [B] active. *)
Definition sABC : Session := setCurrentIdx 1 (setHistory [vA; vB; vC] initial).

Definition logo : Layer :=
  mkLayer "logo" "data:logo" (setField KScale (Fin (1 # 2)) DEFAULT_LAYOUT) "Layer 1".
Definition badge : Layer :=
  mkLayer "badge" "data:broken" DEFAULT_LAYOUT "Layer 2".
Definition face : Layer :=
  mkLayer "face" "data:face" DEFAULT_LAYOUT "Layer 3".

Definition vLayers : ThumbnailVersion :=
  mkVersion "v2" "data:A" [logo; badge; face] DEFAULT_LAYOUT
            (Some "Added Image Layer") 5.

(** One version with three layers, the layer [logo] selected. *)
Definition sLayers : Session :=
  setActiveLayerId "logo" (setCurrentIdx 1 (setHistory [vA; vLayers] initial)).

(** A decoder on which only ["data:broken"] fails. *)
Definition decoder (u : string) : option Image :=
  if String.eqb u "data:broken" then None else Some (mkImage u 640 360).

Definition pOne : Project := mkProject "p1" "Thumbnail 1" "data:A" 1 [vA] (Some []).
Definition pTwo : Project := mkProject "p2" "Thumbnail 2" "data:B" 2 [vB] None.

(** A saved session: project [p1] is active. *)
Definition sSaved : Session :=
  setActiveProjectId (Some "p1")
    (setProjects [pTwo; pOne] (setCurrentIdx 0 (setHistory [vA] initial))).

(** A session whose active id is carried by no stored project. *)
Definition sDangling : Session :=
  setActiveProjectId (Some "gone")
    (setProjects [pOne] (setCurrentIdx 0 (setHistory [vA] initial))).

(** Thirteen calls of [createSnapshot], at the clock readings 101..113. *)
Definition thirteen : list (Z * bool) :=
  (fun t => (t, true)) <$> [101; 102; 103; 104; 105; 106; 107; 108; 109; 110; 111; 112; 113].

(** Two environments that differ in the random id and the clock. *)
Definition envA : Env :=
  mkEnv decoder true (fun _ p => Some ("edit:" +:+ p)) (fun p => Some ("gen:" +:+ p))
        (fun _ _ => Some "More contrast.") "idA" 100.
Definition envB : Env :=
  mkEnv decoder true (fun _ p => Some ("edit:" +:+ p)) (fun p => Some ("gen:" +:+ p))
        (fun _ _ => Some "More contrast.") "idB" 200.
(** An environment in which the remote services fail. *)
Definition envDown : Env :=
  mkEnv decoder true (fun _ _ => None) (fun _ => None) (fun _ _ => None) "idC" 300.

End Scenario.

(* ===================================================================== *)
(** ** The remote image service ([src/services/geminiService.ts]) *)
(* ===================================================================== *)

Module GeminiService.

Import App.

(** One part of an answer. [inlineData], when it is there, is an object
    whose [data] may itself be absent. *)
Record Part : Type := mkPart {
  inlineData : option (option string);
  part_text : option string
}.

(** A candidate with its [content.parts]; [None] when [content] or
    [parts] is undefined, on which the [for ... of] throws. *)
Record Candidate : Type := mkCandidate {
  parts : option (list Part)
}.

Record Response : Type := mkResponse {
  candidates : option (list Candidate)
}.

(** The argument of [ai.models.generateContent]: the model, the inline
    image (data and mime type) when one is sent, the text and the aspect
    ratio. *)
Record Request : Type := mkRequest {
  model : string;
  request_image : option (string * string);
  request_text : string;
  aspectRatio : string
}.

Inductive ServiceError : Type :=
| CallRejected                 (* [generateContent] rejects *)
| NotIterable                  (* [candidate.content.parts] cannot be read *)
| Thrown (message : string).   (* [throw new Error(message)] *)

Definition nl : string := String "010" EmptyString.
Definition dq : string := String "034" EmptyString.

(** [String.prototype.split] with a one-character separator. *)
Fixpoint splitOn (sep : Ascii.ascii) (s : string) : list string :=
  match s with
  | EmptyString => [EmptyString]
  | String c s' =>
      if Ascii.eqb c sep then EmptyString :: splitOn sep s'
      else
        match splitOn sep s' with
        | h :: t => String c h :: t
        | [] => [String c EmptyString]
        end
  end.

(** [base64Image.split(',')[1] || base64Image] *)
Definition payload (base64Image : string) : string :=
  match splitOn "," base64Image !! 1%nat with
  | Some x => orElse x base64Image
  | None => base64Image
  end.

(** The template literal of [editImage], before [.trim()]. *)
Definition editTemplate (prompt : string) : string :=
  nl +:+ "    INSTRUCTIONS: You are a professional thumbnail editor. Modify the attached image." +:+ nl
  +:+ "    EDIT REQUEST: " +:+ prompt +:+ "." +:+ nl
  +:+ "    " +:+ nl
  +:+ "    STRICT THUMBNAIL RULES:" +:+ nl
  +:+ "    1. SUBJECT PRESERVATION: Keep the identity and composition of the primary person/object perfectly intact." +:+ nl
  +:+ "    2. BACKGROUND REMOVAL: If the request is to remove, clear, or replace the background, you MUST use a solid, deep, plain #000000 (pure black) color as the absolute starting background. " +:+ nl
  +:+ "    3. EDGE QUALITY: When isolating subjects, ensure edges are crisp, clean, and free of artifacts." +:+ nl
  +:+ "    4. CTR BOOST: Use professional rim lighting, high contrast, and vibrant " +:+ dq +:+ "popping" +:+ dq +:+ " colors." +:+ nl
  +:+ "    5. COMPOSITION: Output must maintain a 16:9 aspect ratio." +:+ nl
  +:+ "    6. CLARITY: Enhance facial details and primary subject sharpness for readability at small sizes." +:+ nl
  +:+ "  ".

(** The template literal of [generateNewImage], before [.trim()]. *)
Definition generateTemplate (prompt : string) : string :=
  nl +:+ "    A professional 16:9 YouTube thumbnail background: " +:+ prompt +:+ ". " +:+ nl
  +:+ "    Style: Epic cinematic, high-end production value, vibrant lighting, no text, clean composition. " +:+ nl
  +:+ "    Design for high CTR." +:+ nl
  +:+ "  ".

(** [response.candidates?.[0]] and the loop over its parts: the data URL of
    the first part that has [inlineData]. *)
Definition firstImage (mimeType : string) (noCandidate noImage : string)
    (response : Response) : ServiceError + string :=
  match candidates response ≫= head with
  | None => inl (Thrown noCandidate)
  | Some candidate =>
      match parts candidate with
      | None => inl NotIterable
      | Some ps =>
          match List.find (fun part => bool_decide (is_Some (inlineData part))) ps with
          | Some part =>
              inr ("data:" +:+ mimeType +:+ ";base64,"
                     +:+ default "undefined" (inlineData part ≫= id))
          | None => inl (Thrown noImage)
          end
      end
  end.

Section Service.

(** [ai.models.generateContent]: the remote call; [None] when it rejects. *)
Variable generateContent : Request -> option Response.

(** [editImage]; [mimeType] is the optional third argument. *)
Definition editImage (base64Image prompt : string) (mimeType : option string)
    : ServiceError + string :=
  let mime := default "image/png" mimeType in
  let enhancedPrompt := trim (editTemplate prompt) in
  match generateContent
          (mkRequest "gemini-2.5-flash-image" (Some (payload base64Image, mime))
                     enhancedPrompt "16:9") with
  | None => inl CallRejected
  | Some response =>
      firstImage mime "The AI engine failed to return a result."
        "No image data found. The generation might have been filtered or failed."
        response
  end.

(** [generateNewImage] *)
Definition generateNewImage (prompt : string) : ServiceError + string :=
  let enhancedPrompt := trim (generateTemplate prompt) in
  match generateContent
          (mkRequest "gemini-2.5-flash-image" None enhancedPrompt "16:9") with
  | None => inl CallRejected
  | Some response =>
      firstImage "image/png" "Background generation failed."
        "Failed to generate background." response
  end.

End Service.

End GeminiService.

(* ===================================================================== *)
(** ** The other handlers of the session ([src/App.tsx]) *)
(* ===================================================================== *)

Module Editor.

Import ImageUtils App.

Definition setEditMode (m : EditMode) (s : Session) : Session :=
  mkSession (history s) (currentIdx s) (projects s) (activeProjectId s) (isProcessing s)
            (prompt s) (chatInput s) (chatMessages s) (error s)
            (baseLayout s) (activeLayerId s) m.

(** [executeStartNewProject] *)
Definition executeStartNewProject (s : Session) : Session :=
  setChatMessages []
    (setError None
       (setPrompt ""
          (setActiveLayerId "base"
             (setBaseLayout DEFAULT_LAYOUT
                (setActiveProjectId None
                   (setCurrentIdx (-1) (setHistory [] s))))))).

(** [deleteProject], the [onConfirm] of its modal, up to the [await]. The
    function is made when the delete button is clicked and kept in the
    modal: [r] is the render of that click, whose [projects] it filters;
    [s] is the session when the deletion is confirmed. *)
Definition deleteProject_start (r : Session) (id : string) (s : Session) : Session :=
  setProjects (List.filter (fun p => negb (String.eqb (project_id p) id)) (projects r)) s.

(** The rest of [onConfirm], once [persistProjects] has settled, on the
    session [s] of that moment: the error of a failing store, and then the
    reset when the deleted project was the active one of the render [r] of
    the click. *)
Definition deleteProject_settle (r : Session) (id : string) (storeOk : bool)
    (s : Session) : Session :=
  let s1 := persistProjects storeOk s in
  if decide (activeProjectId r = Some id) then executeStartNewProject s1 else s1.

(** [loadProject]; [lastVersion] is
    [revisionStack[revisionStack.length - 1]], undefined on an empty
    stack. *)
Definition loadProject (project : Project) (s : Session) : Session :=
  let lastVersion := last (revisionStack project) in
  setActiveLayerId "base"
    (setBaseLayout (default DEFAULT_LAYOUT (version_baseLayout <$> lastVersion))
       (setCurrentIdx (Z.of_nat (length (revisionStack project)) - 1)
          (setHistory (revisionStack project)
             (setActiveProjectId (Some (project_id project)) s)))).

(** [currentActiveLayout], the layout the sliders show. *)
Definition currentActiveLayout (s : Session) : Layout :=
  if String.eqb (activeLayerId s) "base" then baseLayout s
  else
    default DEFAULT_LAYOUT
      (layout <$>
         (currentVersion s ≫= fun cv =>
            List.find (fun l => String.eqb (layer_id l) (activeLayerId s)) (layers cv))).

(** The default a slider falls back to: [?? 1] for the scale and the
    stretches, [?? 0] for the translations. *)
Definition sliderDefault (k : LayoutKey) : number :=
  match k with
  | KScale | KStretchX | KStretchY => Fin 1
  | KTranslateX | KTranslateY => Fin 0
  end.

(** The [value] of the slider of a field. *)
Definition sliderValue (k : LayoutKey) (s : Session) : number :=
  nullish (getField k (currentActiveLayout s)) (sliderDefault k).

(** The layer both import paths build: [{ ...DEFAULT_LAYOUT, scale: 0.5 }]
    under the given id, image and name. *)
Definition importedLayer (id u nm : string) : Layer :=
  mkLayer id u (setField KScale (Fin (1 # 2)) DEFAULT_LAYOUT) nm.

(** *** File import

    [handleBaseUpload] and [handleLayerUpload] await [fileToBase64]; the
    continuation gets its result, [None] when the reader fails. *)

Inductive Upload : Type :=
| BaseUpload (r : Session)
| LayerUpload (r : Session) (cv : ThumbnailVersion).

(** The rest of [handleBaseUpload]. *)
Definition handleBaseUpload_settle (b64 : option string) (r : Session)
    (newId : string) (now : Z) (s : Session) : Session :=
  let s1 :=
    match b64 with
    | Some b => addToHistory r b (Some "Subject Upload") [] (Some DEFAULT_LAYOUT) newId now s
    | None => setError (Some "Failed to import asset.") s
    end in
  setIsProcessing false s1.

(** The rest of [handleLayerUpload]. *)
Definition handleLayerUpload_settle (b64 : option string) (r : Session)
    (cv : ThumbnailVersion) (layerId newId : string) (now : Z) (s : Session)
    : Session :=
  let s1 :=
    match b64 with
    | Some b =>
        let newLayer :=
          importedLayer layerId b ("Layer " +:+ pretty (length (layers cv) + 1)%nat) in
        let updatedLayers := layers cv ++ [newLayer] in
        setEditMode transform
          (setActiveLayerId (layer_id newLayer)
             (addToHistory r (url cv) (Some "Added Image Layer") updatedLayers None
                           newId now s))
    | None => setError (Some "Failed to add layer.") s
    end in
  setIsProcessing false s1.

(** *** Camera import *)

Inductive ImportTarget : Type := TargetBase | TargetLayer.

(** The cells and the ref of the import modal. [countdownInterval] is
    [countdownIntervalRef.current]; [running] holds the handles of the
    intervals that [window.setInterval] has started and nothing has
    cleared. *)
Record Capture : Type := mkCapture {
  isImportModalOpen : bool;
  importTarget : ImportTarget;
  isCameraActive : bool;
  capturedImage : option string;
  countdown : option Z;
  countdownInterval : option positive;
  running : list positive
}.

Definition closed : Capture :=
  mkCapture false TargetBase false None None None [].

Definition setCapturedImage (c : option string) (k : Capture) : Capture :=
  mkCapture (isImportModalOpen k) (importTarget k) (isCameraActive k) c
            (countdown k) (countdownInterval k) (running k).
Definition setCountdown (n : option Z) (k : Capture) : Capture :=
  mkCapture (isImportModalOpen k) (importTarget k) (isCameraActive k) (capturedImage k)
            n (countdownInterval k) (running k).
Definition setIsCameraActive (b : bool) (k : Capture) : Capture :=
  mkCapture (isImportModalOpen k) (importTarget k) b (capturedImage k)
            (countdown k) (countdownInterval k) (running k).
Definition setIsImportModalOpen (b : bool) (k : Capture) : Capture :=
  mkCapture b (importTarget k) (isCameraActive k) (capturedImage k)
            (countdown k) (countdownInterval k) (running k).
Definition setImportTarget (t : ImportTarget) (k : Capture) : Capture :=
  mkCapture (isImportModalOpen k) t (isCameraActive k) (capturedImage k)
            (countdown k) (countdownInterval k) (running k).
Definition setCountdownInterval (h : option positive) (k : Capture) : Capture :=
  mkCapture (isImportModalOpen k) (importTarget k) (isCameraActive k) (capturedImage k)
            (countdown k) h (running k).

(** [window.clearInterval(h)]; clearing [null] does nothing. *)
Definition clearInterval (h : option positive) (k : Capture) : Capture :=
  match h with
  | Some h =>
      mkCapture (isImportModalOpen k) (importTarget k) (isCameraActive k)
                (capturedImage k) (countdown k) (countdownInterval k)
                (List.filter (fun h' => negb (Pos.eqb h' h)) (running k))
  | None => k
  end.

(** [window.setInterval(...)] returning the handle [h], which is put into
    the ref. *)
Definition setInterval (h : positive) (k : Capture) : Capture :=
  mkCapture (isImportModalOpen k) (importTarget k) (isCameraActive k)
            (capturedImage k) (countdown k) (Some h) (running k ++ [h]).

(** [openImportModal] *)
Definition openImportModal (target : ImportTarget) (k : Capture) : Capture :=
  setIsImportModalOpen true (setImportTarget target k).

(** Whether the [<video>] element is rendered, that is, whether
    [videoRef.current] is set. *)
Definition videoMounted (k : Capture) : bool :=
  isImportModalOpen k && isCameraActive k && negb (truthy (capturedImage k)).

(** [capturePhoto]. [frame] is the data URL the canvas gives for the video
    frame, [None] when no 2d context is to be had; the hidden canvas is
    always rendered. *)
Definition capturePhoto (frame : option string) (k : Capture) : Capture :=
  if videoMounted k then
    match frame with
    | Some f =>
        let k1 := setCapturedImage (Some f) k in
        let k2 :=
          match countdownInterval k1 with
          | Some h => setCountdownInterval None (clearInterval (Some h) k1)
          | None => k1
          end in
        setCountdown None k2
    | None => k
    end
  else k.

(** [startAutoCapture]; [h] is the handle of the new interval. *)
Definition startAutoCapture (seconds : Z) (h : positive) (k : Capture) : Capture :=
  let k1 := setCountdown (Some seconds) k in
  let k2 :=
    match countdownInterval k1 with
    | Some old => clearInterval (Some old) k1
    | None => k1
    end in
  setInterval h k2.

(** One firing of the interval [h]: the updater given to [setCountdown]. *)
Definition tick (h : positive) (frame : option string) (k : Capture) : Capture :=
  if existsb (Pos.eqb h) (running k) then
    match countdown k with
    | Some p =>
        if negb (p =? 0) && (p <=? 1) then
          let k1 := capturePhoto frame k in
          let k2 := setCountdownInterval None (clearInterval (countdownInterval k1) k1) in
          setCountdown None k2
        else if negb (p =? 0) then setCountdown (Some (p - 1)) k
        else setCountdown None k
    | None => setCountdown None k
    end
  else k.

(** [confirmCapture], on the session and the modal. *)
Definition confirmCapture (layerId newId : string) (now : Z)
    (sk : Session * Capture) : Session * Capture :=
  let (s, k) := sk in
  match truthy (capturedImage k), capturedImage k with
  | true, Some img =>
      let s1 :=
        match importTarget k, currentVersion s with
        | TargetLayer, Some cv =>
            let newLayer := importedLayer layerId img "Camera Shot" in
            setActiveLayerId (layer_id newLayer)
              (addToHistory s (url cv) (Some "Camera Layer") (layers cv ++ [newLayer])
                            None newId now s)
        | _, _ =>
            addToHistory s img (Some "Camera Base") [] (Some DEFAULT_LAYOUT) newId now s
        end in
      (s1, setCapturedImage None (setIsImportModalOpen false (setIsCameraActive false k)))
  | _, _ => (s, k)
  end.

(** *** The whole editor

    The session with its handlers in flight, the file imports in flight and
    the import modal. *)
Record Studio : Type := mkStudio {
  world : World;
  uploads : list Upload;
  capture : Capture
}.

Definition session (st : Studio) : Session := live (world st).

Definition withSession (s : Session) (st : Studio) : Studio :=
  mkStudio (mkWorld s (inflight (world st))) (uploads st) (capture st).

Definition withCapture (k : Capture) (st : Studio) : Studio :=
  mkStudio (world st) (uploads st) k.

(** Everything that can happen to the editor. *)
Inductive Action : Type :=
| Remote (ev : Event)
| ProjectsLoaded (ps : list Project)
| SelectVersion (i : nat)
| Transform (key : LayoutKey) (value : number)
| SelectLayer (id : string)
| SwitchMode (m : EditMode)
| TypePrompt (p : string)
| RemoveLayer (id newId : string) (now : Z)
| SaveProject (newId : string) (now : Z) (storeOk : bool)
| MarkMilestone (now : Z) (storeOk : bool)
| OpenProject (i : nat)
| DeleteProject (id : string) (storeOk : bool)
| NewProject
| PickBaseFile
| PickLayerFile
| FileRead (i : nat) (b64 : option string) (layerId newId : string) (now : Z)
| OpenImport (target : ImportTarget)
| CloseImport
| CameraOn
| CameraExit
| Retake
| SnapNow (frame : option string)
| Shutter (seconds : Z) (h : positive)
| IntervalFires (h : positive) (frame : option string)
| AcceptFrame (layerId newId : string) (now : Z).

(** The handler of an action. A version can be selected and a project
    opened only where the list shows one. [DeleteProject] is the deletion
    confirmed with nothing changed since the click on the delete button
    ([deleteProject_start] and [deleteProject_settle] have the deletion from
    an older render); the effect that opens the camera stream, with its
    error message, is not part of the actions. *)
Definition handle (st : Studio) (a : Action) : Studio :=
  let s := session st in
  match a with
  | Remote ev => mkStudio (step (world st) ev) (uploads st) (capture st)
  | ProjectsLoaded ps => withSession (setProjects ps s) st
  | SelectVersion i =>
      if (i <? length (history s))%nat
      then withSession (setCurrentIdx (Z.of_nat i) s) st else st
  | Transform key value => withSession (updateActiveTransform key value s) st
  | SelectLayer id => withSession (setActiveLayerId id s) st
  | SwitchMode m => withSession (setEditMode m s) st
  | TypePrompt p => withSession (setPrompt p s) st
  | RemoveLayer id newId now => withSession (removeLayer id newId now s) st
  | SaveProject newId now storeOk =>
      withSession (storeCurrentProjectState newId now storeOk s) st
  | MarkMilestone now storeOk => withSession (createSnapshot now storeOk s) st
  | OpenProject i =>
      match projects s !! i with
      | Some project => withSession (loadProject project s) st
      | None => st
      end
  | DeleteProject id storeOk => withSession (deleteProject id storeOk s) st
  | NewProject => withSession (executeStartNewProject s) st
  | PickBaseFile =>
      mkStudio (mkWorld (setIsProcessing true s) (inflight (world st)))
               (uploads st ++ [BaseUpload s])
               (setIsImportModalOpen false (capture st))
  | PickLayerFile =>
      match currentVersion s with
      | Some cv =>
          mkStudio (mkWorld (setIsProcessing true s) (inflight (world st)))
                   (uploads st ++ [LayerUpload s cv])
                   (setIsImportModalOpen false (capture st))
      | None => st
      end
  | FileRead i b64 layerId newId now =>
      match uploads st !! i with
      | Some (BaseUpload r) =>
          mkStudio (mkWorld (handleBaseUpload_settle b64 r newId now s)
                            (inflight (world st)))
                   (delete i (uploads st)) (capture st)
      | Some (LayerUpload r cv) =>
          mkStudio (mkWorld (handleLayerUpload_settle b64 r cv layerId newId now s)
                            (inflight (world st)))
                   (delete i (uploads st)) (capture st)
      | None => st
      end
  | OpenImport target => withCapture (openImportModal target (capture st)) st
  | CloseImport =>
      withCapture (setIsImportModalOpen false (setIsCameraActive false (capture st))) st
  | CameraOn => withCapture (setIsCameraActive true (capture st)) st
  | CameraExit => withCapture (setIsCameraActive false (capture st)) st
  | Retake => withCapture (setCapturedImage None (capture st)) st
  | SnapNow frame => withCapture (capturePhoto frame (capture st)) st
  | Shutter seconds h => withCapture (startAutoCapture seconds h (capture st)) st
  | IntervalFires h frame => withCapture (tick h frame (capture st)) st
  | AcceptFrame layerId newId now =>
      let (s1, k1) := confirmCapture layerId newId now (s, capture st) in
      mkStudio (mkWorld s1 (inflight (world st))) (uploads st) k1
  end.

(** One action, followed by the render and its effect. *)
Definition act (st : Studio) (a : Action) : Studio :=
  withSession (syncBaseLayout (session (handle st a))) (handle st a).

Definition perform (st : Studio) (acts : list Action) : Studio := foldl act st acts.

(** The editor just mounted. *)
Definition opened : Studio := mkStudio mounted [] closed.

End Editor.

(* ===================================================================== *)
(** ** Further vocabulary *)
(* ===================================================================== *)

Module Vocabulary.

Import ImageUtils App Editor.

(** The layers whose image the decoder rejects. *)
Definition undecodable (loadImage : string -> option Image) (ls : list Layer)
    : list Layer :=
  List.filter (fun l => negb (bool_decide (is_Some (loadImage (layer_url l))))) ls.

(** The layer that [handleLayerUpload] adds to a version. *)
Definition uploadedLayer (cv : ThumbnailVersion) (layerId b : string) : Layer :=
  importedLayer layerId b ("Layer " +:+ pretty (length (layers cv) + 1)%nat).

(** Some version is current exactly when there is a history. *)
Definition pointed (s : Session) : Prop :=
  match history s with
  | [] => currentIdx s = -1
  | _ :: _ => 0 <= currentIdx s < Z.of_nat (length (history s))
  end.

(** The actions that write the project list: the list coming in from the
    store, saving, marking a milestone and deleting. *)
Definition writesProjects (a : Action) : bool :=
  match a with
  | ProjectsLoaded _ | SaveProject _ _ _ | MarkMilestone _ _ | DeleteProject _ _ => true
  | _ => false
  end.

(** The session that an event of the remote handlers leaves, before the
    effect. *)
Definition afterEvent (w : World) (ev : Event) : Session :=
  match ev with
  | ClickEdit customPrompt => live (handleEdit_start customPrompt w)
  | ClickGenerate templatePrompt => live (handleGenerateFromScratch_start templatePrompt w)
  | TypeChat input => setChatInput input (live w)
  | ClickChat newId now => live (handleChatSubmit_start newId now w)
  | Settle i e =>
      match inflight w !! i with
      | Some t => settle e t (live w)
      | None => live w
      end
  end.

(** A layout with its five fields. *)
Definition complete (l : Layout) : Prop := Spec.hasMissingField l = false.

(** A version whose base layout and layer layouts have their five fields. *)
Definition completeVersion (v : ThumbnailVersion) : Prop :=
  complete (version_baseLayout v) /\ Forall (fun l => complete (layout l)) (layers v).

(** A stored project as the program writes it: a revision stack that is not
    empty, at most [MAX_SNAPSHOTS] snapshots, and complete layouts
    throughout. *)
Definition soundProject (p : Project) : Prop :=
  revisionStack p <> []
  /\ (Spec.snapshotCount p <= MAX_SNAPSHOTS)%nat
  /\ Forall completeVersion (revisionStack p)
  /\ Forall completeVersion (default [] (snapshots p)).

Definition soundSession (s : Session) : Prop :=
  complete (baseLayout s)
  /\ Forall completeVersion (history s)
  /\ Forall soundProject (projects s).

Definition soundTask (t : Task) : Prop :=
  match t with
  | EditTask r cv _ => soundSession r /\ completeVersion cv
  | GenerateTask r _ => soundSession r
  | ChatTask r _ => soundSession r
  end.

Definition soundUpload (u : Upload) : Prop :=
  match u with
  | BaseUpload r => soundSession r
  | LayerUpload r cv => soundSession r /\ completeVersion cv
  end.

Definition soundStudio (st : Studio) : Prop :=
  soundSession (session st)
  /\ Forall soundTask (inflight (world st))
  /\ Forall soundUpload (uploads st).

(** The project list that arrives from the store is the only thing the
    program does not build itself. *)
Definition admissible (a : Action) : Prop :=
  match a with
  | ProjectsLoaded ps => Forall soundProject ps
  | _ => True
  end.

(** The interval held by the ref is the only one running. *)
Definition tracked (k : Capture) : Prop :=
  running k = match countdownInterval k with
              | Some h => [h]
              | None => []
              end.

(** The interval [h] fires once for each element of [frames], finding that
    frame in the video. *)
Definition ticks (h : positive) (frames : list (option string)) (k : Capture)
    : Capture :=
  foldl (fun k frame => tick h frame k) k frames.

(** Whether the character occurs in the string. *)
Fixpoint occurs (c : Ascii.ascii) (s : string) : bool :=
  match s with
  | EmptyString => false
  | String c' s' => Ascii.eqb c' c || occurs c s'
  end.

(** The data URL [data:<mime>;base64,<data>]. *)
Definition dataUrl (mime data : string) : string :=
  "data:" +:+ mime +:+ ";base64," +:+ data.

(** The request text of [editImage] around the prompt: the template
    literal without the white space at its two ends. *)
Definition editHead : string :=
  "INSTRUCTIONS: You are a professional thumbnail editor. Modify the attached image."
  +:+ GeminiService.nl +:+ "    EDIT REQUEST: ".

Definition editTail : string :=
  "." +:+ GeminiService.nl
  +:+ "    " +:+ GeminiService.nl
  +:+ "    STRICT THUMBNAIL RULES:" +:+ GeminiService.nl
  +:+ "    1. SUBJECT PRESERVATION: Keep the identity and composition of the primary person/object perfectly intact." +:+ GeminiService.nl
  +:+ "    2. BACKGROUND REMOVAL: If the request is to remove, clear, or replace the background, you MUST use a solid, deep, plain #000000 (pure black) color as the absolute starting background. " +:+ GeminiService.nl
  +:+ "    3. EDGE QUALITY: When isolating subjects, ensure edges are crisp, clean, and free of artifacts." +:+ GeminiService.nl
  +:+ "    4. CTR BOOST: Use professional rim lighting, high contrast, and vibrant " +:+ GeminiService.dq +:+ "popping" +:+ GeminiService.dq +:+ " colors." +:+ GeminiService.nl
  +:+ "    5. COMPOSITION: Output must maintain a 16:9 aspect ratio." +:+ GeminiService.nl
  +:+ "    6. CLARITY: Enhance facial details and primary subject sharpness for readability at small sizes.".

(** The same for [generateNewImage]. *)
Definition generateHead : string :=
  "A professional 16:9 YouTube thumbnail background: ".

Definition generateTail : string :=
  ". " +:+ GeminiService.nl
  +:+ "    Style: Epic cinematic, high-end production value, vibrant lighting, no text, clean composition. " +:+ GeminiService.nl
  +:+ "    Design for high CTR.".

(** Whether the string holds nothing but white space. *)
Fixpoint whiteSpaceOnly (s : string) : bool :=
  match s with
  | EmptyString => true
  | String a s' => isWhiteSpace a && whiteSpaceOnly s'
  end.

(** A message as the chat writes it: what the user typed is more than
    white space, what the coach says is not empty. *)
Definition spoken (m : ChatMessage) : Prop :=
  match role m with
  | user => trim (text m) <> ""
  | assistant => text m <> ""
  end.

(** What a handler can do to the transcript: leave it, or put one spoken
    message at its end. *)
Inductive extends (ms : list ChatMessage) : list ChatMessage -> Prop :=
| extends_same : extends ms ms
| extends_one m : spoken m -> extends ms (ms ++ [m]).

End Vocabulary.

(* ===================================================================== *)
(** ** Further sessions and runs *)
(* ===================================================================== *)

Module Cases.

Import ImageUtils App Editor Spec Vocabulary Scenario.

(** The camera on, the video shown, nothing captured. *)
Definition kLive : Capture := mkCapture true TargetBase true None None None [].

(** A frame captured for a layer. *)
Definition kFramed : Capture :=
  mkCapture true TargetLayer true (Some "data:frame") None None [].

(** A stored project without revisions. *)
Definition pEmpty : Project := mkProject "p0" "Thumbnail 0" "" 0 [] None.

(** An answer of the service: one candidate, a text part and then two
    parts with inline data. *)
Definition answer : GeminiService.Response :=
  GeminiService.mkResponse
    (Some [GeminiService.mkCandidate
             (Some [GeminiService.mkPart None (Some "Here it is.");
                    GeminiService.mkPart (Some (Some "QUJD")) None;
                    GeminiService.mkPart (Some (Some "REVG")) None])]).

Definition service (_ : GeminiService.Request) : option GeminiService.Response :=
  Some answer.

(** The saved session in the editor, nothing in flight, the modal closed. *)
Definition stSaved : Studio := mkStudio (mkWorld sSaved []) [] closed.

(** The project list arrives, the project is opened, the base is scaled
    and the project is saved. *)
Definition reopening : list Action :=
  [ProjectsLoaded [pOne]; OpenProject 0; Transform KScale (Fin 2);
   SaveProject "pX" 9 true].

(** A message is typed and sent. *)
Definition chatting : list Action :=
  [Remote (TypeChat "hi"); Remote (ClickChat "m1" 5)].

(** The session [[A; B; C]] while an operation is running. *)
Definition wBusy : World := mkWorld (setIsProcessing true sABC) [].

(** The saved session after a further project has been stored. *)
Definition pFresh : Project := mkProject "fresh" "Thumbnail 3" "data:C" 3 [vC] (Some []).
Definition sStoredSince : Session := setProjects (pFresh :: projects sSaved) sSaved.

(** A no-break space and a space. *)
Definition blankPrompt : string := String "160" (String " " EmptyString).

End Cases.

(* ===================================================================== *)
(** ** Properties of the compositor *)
(* ===================================================================== *)

Module ImageUtilsProofs.

Import ImageUtils App Spec.

Lemma drawImage_dims c img p :
  canvas_width (drawImage c img p) = canvas_width c
  /\ canvas_height (drawImage c img p) = canvas_height c
  /\ fillStyle (drawImage c img p) = fillStyle c
  /\ console (drawImage c img p) = console c.
Proof.
  unfold drawImage.
  destruct (px p), (py p), (targetW p), (targetH p); cbn; auto.
Qed.

Lemma drawWithLayout_dims c img l :
  canvas_width (drawWithLayout c img l) = canvas_width c
  /\ canvas_height (drawWithLayout c img l) = canvas_height c
  /\ fillStyle (drawWithLayout c img l) = fillStyle c.
Proof.
  unfold drawWithLayout.
  destruct (drawImage_dims c img
              (placement (canvas_width c) (canvas_height c) img l))
    as (Hw & Hh & Hf & _).
  auto.
Qed.

Lemma drawWithLayout_ops c img l :
  ops (drawWithLayout c img l)
  = ops c ++ placedOps (canvas_width c) (canvas_height c) img l.
Proof.
  unfold drawWithLayout, drawImage, placedOps.
  destruct (placement _ _ img l) as [[|x] [|y] [|w] [|h]]; cbn;
    rewrite ?app_nil_r; reflexivity.
Qed.

Section Decoder.

Variable loadImage : string -> option Image.

Lemma drawLayer_frame c layer :
  canvas_width (drawLayer loadImage c layer) = canvas_width c
  /\ canvas_height (drawLayer loadImage c layer) = canvas_height c
  /\ fillStyle (drawLayer loadImage c layer) = fillStyle c.
Proof.
  unfold drawLayer.
  destruct (loadImage (layer_url layer)) as [img|]; cbn; auto.
  apply drawWithLayout_dims.
Qed.

Lemma drawLayer_ops c layer :
  ops (drawLayer loadImage c layer)
  = ops c ++ layerOps loadImage (canvas_width c) (canvas_height c) layer.
Proof.
  unfold drawLayer, layerOps.
  destruct (loadImage (layer_url layer)) as [img|].
  - apply drawWithLayout_ops.
  - cbn. now rewrite app_nil_r.
Qed.

(** The loop keeps the canvas and paints the layers in list order. *)
Lemma layers_loop ls : forall c,
  raster (foldl (drawLayer loadImage) c ls)
  = (canvas_width c, canvas_height c, fillStyle c,
     ops c ++ flat_map (layerOps loadImage (canvas_width c) (canvas_height c)) ls).
Proof.
  induction ls as [|layer ls IH]; intros c; cbn [foldl flat_map].
  - unfold raster. now rewrite app_nil_r.
  - rewrite IH.
    destruct (drawLayer_frame c layer) as (-> & -> & ->).
    rewrite drawLayer_ops, <- app_assoc. reflexivity.
Qed.

Lemma layerOps_undecodable cw ch layer :
  loadImage (layer_url layer) = None -> layerOps loadImage cw ch layer = [].
Proof. unfold layerOps. now intros ->. Qed.

(** The raster of a successful composition, in closed form. *)
Lemma composeImage_raster imageUrl baseImg baseLayout ls :
  loadImage imageUrl = Some baseImg ->
  exists c,
    composeImage loadImage true imageUrl baseLayout ls = inr c
    /\ raster c
       = (1280, 720, "#000000",
          placedOps 1280 720 baseImg baseLayout
            ++ flat_map (layerOps loadImage 1280 720) ls).
Proof.
  intros Hbase. unfold composeImage. cbn [negb]. rewrite Hbase.
  eexists. split; [reflexivity|].
  rewrite layers_loop.
  destruct (drawWithLayout_dims blank baseImg baseLayout) as (-> & -> & ->).
  rewrite drawWithLayout_ops. reflexivity.
Qed.

End Decoder.

(** A layout with a missing field is never painted: one of the four
    arguments of [ctx.drawImage] is [NaN]. *)
Lemma drawWithLayout_missing_field c img l :
  hasMissingField l = true -> drawWithLayout c img l = c.
Proof.
  unfold hasMissingField, drawWithLayout, drawImage, placement.
  destruct l as [[s|] [sx|] [sy|] [tx|] [ty|]]; cbn [present andb negb];
    try discriminate; intros _; cbn [scale stretchX stretchY translateX translateY toNumber];
    repeat match goal with
           | n : number |- _ => destruct n
           end; reflexivity.
Qed.

(** The preview cannot tell a layout with missing fields from the same
    layout with the defaults written in. *)
Lemma previewKnobs_withDefaults l :
  previewKnobs (withDefaults l) = previewKnobs l.
Proof. reflexivity. Qed.

(** C4. A layer whose image does not decode is skipped and the
    composition goes on: the raster is the one composed from the base and
    the remaining layers, in order, and the layer is reported on the
    console. When the base image does not decode, [composeImage] fails
    with an error instead of a raster. *)
Theorem composeImage_skips_undecodable_layer
    (loadImage : string -> option Image) (ctxAvailable : bool)
    (imageUrl : string) (baseLayout : Layout)
    (before after : list Layer) (bad : Layer) :
  (forall ls, loadImage imageUrl = None ->
     composeImage loadImage ctxAvailable imageUrl baseLayout ls
     = inl (if ctxAvailable then ImageLoadRejected imageUrl else NoCanvasContext))
  /\ (forall baseImg,
        ctxAvailable = true ->
        loadImage imageUrl = Some baseImg ->
        loadImage (layer_url bad) = None ->
        exists c c',
          composeImage loadImage ctxAvailable imageUrl baseLayout
                       (before ++ bad :: after) = inr c
          /\ composeImage loadImage ctxAvailable imageUrl baseLayout
                          (before ++ after) = inr c'
          /\ raster c = raster c'
          /\ raster c
             = (1280, 720, "#000000",
                placedOps 1280 720 baseImg baseLayout
                  ++ flat_map (layerOps loadImage 1280 720) before
                  ++ flat_map (layerOps loadImage 1280 720) after)).
Proof.
  split.
  - intros ls Hbase. unfold composeImage.
    destruct ctxAvailable; cbn [negb]; [now rewrite Hbase | reflexivity].
  - intros baseImg -> Hbase Hbad.
    destruct (composeImage_raster loadImage imageUrl baseImg baseLayout
                (before ++ bad :: after) Hbase) as (c & Hc & Hr).
    destruct (composeImage_raster loadImage imageUrl baseImg baseLayout
                (before ++ after) Hbase) as (c' & Hc' & Hr').
    exists c, c'. split; [exact Hc|]. split; [exact Hc'|].
    assert (Hskip : flat_map (layerOps loadImage 1280 720) (before ++ bad :: after)
                    = flat_map (layerOps loadImage 1280 720) before
                        ++ flat_map (layerOps loadImage 1280 720) after).
    { rewrite flat_map_app. cbn [flat_map].
      now rewrite (layerOps_undecodable loadImage 1280 720 bad Hbad). }
    rewrite Hr, Hr', Hskip, flat_map_app. split; reflexivity.
Qed.

(** The placement in exact arithmetic, where no operation rounds or
    overflows: width [W * scale * stretchX], height [H * scale * stretchY],
    and the centre of the image is the centre of the canvas moved by
    [(translateX / 100 * canvasWidth, translateY / 100 * canvasHeight)].
    What the code computes in double precision is in [Float64]. *)
Lemma drawWithLayout_centered_placement
    (c : Canvas) (img : Image) (s sx sy tx ty : Q) :
  let l := mkLayout (Some (Fin s)) (Some (Fin sx)) (Some (Fin sy))
                    (Some (Fin tx)) (Some (Fin ty)) in
  let W := inject_Z (width img) in
  let H := inject_Z (height img) in
  let cw := inject_Z (canvas_width c) in
  let ch := inject_Z (canvas_height c) in
  exists x y w h,
    placement (canvas_width c) (canvas_height c) img l
      = mkPlacement (Fin x) (Fin y) (Fin w) (Fin h)
    /\ ops (drawWithLayout c img l) = ops c ++ [mkDrawOp img x y w h]
    /\ (w == W * s * sx)%Q
    /\ (h == H * s * sy)%Q
    /\ (x == (cw - w) / 2 + tx / 100 * cw)%Q
    /\ (y == (ch - h) / 2 + ty / 100 * ch)%Q
    /\ (x + w / 2 == cw / 2 + tx / 100 * cw)%Q
    /\ (y + h / 2 == ch / 2 + ty / 100 * ch)%Q.
Proof.
  intros l W H cw ch.
  eexists _, _, _, _.
  split; [reflexivity|].
  split; [unfold drawWithLayout, drawImage; reflexivity|].
  subst W H cw ch.
  repeat split; try reflexivity; field.
Qed.

(** C1 fails on the code. A layout without its [scale] is shown by the
    preview exactly like the default layout, but [drawWithLayout] computes
    a [NaN] placement for it and paints nothing, where the layout with the
    default written in is painted: as a base layout it leaves the
    composition black, and as the layout of a layer it leaves the layer
    out of the composition, without a warning. *)
Lemma drawWithLayout_does_not_normalize :
  let l := mkLayout None (Some (Fin 1)) (Some (Fin 1)) (Some (Fin 0)) (Some (Fin 0)) in
  let img := mkImage "logo" 400 200 in
  let decode := fun _ : string => Some img in
  hasMissingField l = true
  /\ withDefaults l = DEFAULT_LAYOUT
  /\ previewKnobs l = previewKnobs DEFAULT_LAYOUT
  /\ placement 1280 720 img l = mkPlacement NaN NaN NaN NaN
  /\ drawWithLayout blank img l = blank
  /\ ops (drawWithLayout blank img (withDefaults l))
     = [mkDrawOp img ((inject_Z 1280 - inject_Z 400 * 1 * 1) / 2
                        + 0 * inject_Z 1280 / 100)
                     ((inject_Z 720 - inject_Z 200 * 1 * 1) / 2
                        + 0 * inject_Z 720 / 100)
                     (inject_Z 400 * 1 * 1) (inject_Z 200 * 1 * 1)]
  /\ placement 1280 720 img l <> placement 1280 720 img (withDefaults l)
  /\ drawWithLayout blank img l <> drawWithLayout blank img (withDefaults l)
  /\ composeImage decode true "logo" l [] = inr blank
  /\ composeImage decode true "logo" l [] <> composeImage decode true "logo" (withDefaults l) []
  /\ composeImage decode true "logo" DEFAULT_LAYOUT [mkLayer "top" "logo" l "Layer 1"]
     = composeImage decode true "logo" DEFAULT_LAYOUT []
  /\ composeImage decode true "logo" DEFAULT_LAYOUT [mkLayer "top" "logo" l "Layer 1"]
     <> composeImage decode true "logo" DEFAULT_LAYOUT
          [mkLayer "top" "logo" (withDefaults l) "Layer 1"].
Proof.
  cbv zeta. do 6 (split; [reflexivity|]).
  split; [discriminate|].
  split; [intros Heq; apply (f_equal ops) in Heq; discriminate Heq|].
  split; [reflexivity|].
  split; [intros Heq; injection Heq as Heq; discriminate Heq|].
  split; [reflexivity|].
  intros Heq. injection Heq as Heq. discriminate Heq.
Qed.

Lemma withDefaults_complete l : hasMissingField l = false -> withDefaults l = l.
Proof.
  unfold hasMissingField.
  destruct l as [[s|] [sx|] [sy|] [tx|] [ty|]]; cbn; intros H;
    try discriminate H; reflexivity.
Qed.

End ImageUtilsProofs.

(* ===================================================================== *)
(** ** The placement as the code computes it *)
(* ===================================================================== *)

Module Float64Proofs.

Import ImageUtils Float64 PrimFloat.

#[local] Set Warnings "-inexact-float".

(** C5, as the code has it. In double precision [drawWithLayout] paints
    an image of natural size [W] x [H] with width [W * scale * stretchX]
    and height [H * scale * stretchY], each product taken from the left,
    at [x = (canvasWidth - width) / 2 + translateX * canvasWidth / 100]
    and [y = (canvasHeight - height) / 2 + translateY * canvasHeight / 100]:
    the offset is the product divided by 100, not the hundredth times the
    canvas size. It is painted once when the four values are finite and
    not at all otherwise. The sizes are those of the specification, and
    so is the whole placement on the canvas of [composeImage] when the
    layout is not translated. *)
Theorem drawWithLayout_binary64_placement
    (cw ch : Z) (ops : list DrawOp) (img : Image) (l : Layout) :
  let W := ofZ (width img) in
  let H := ofZ (height img) in
  let CW := ofZ cw in
  let CH := ofZ ch in
  let w := (W * scale l * stretchX l)%float in
  let h := (H * scale l * stretchY l)%float in
  let x := ((CW - w) / 2 + translateX l * CW / 100)%float in
  let y := ((CH - h) / 2 + translateY l * CH / 100)%float in
  placement cw ch img l = mkPlacement x y w h
  /\ drawWithLayout cw ch ops img l
     = (if is_finite x && is_finite y && is_finite w && is_finite h
        then ops ++ [mkDrawOp img x y w h]
        else ops)
  /\ targetW (claimedPlacement cw ch img l) = w
  /\ targetH (claimedPlacement cw ch img l) = h
  /\ px (claimedPlacement cw ch img l) = ((CW - w) / 2 + translateX l / 100 * CW)%float
  /\ py (claimedPlacement cw ch img l) = ((CH - h) / 2 + translateY l / 100 * CH)%float
  /\ (forall s sx sy : number,
        placement 1280 720 img (mkLayout s sx sy 0%float 0%float)
        = claimedPlacement 1280 720 img (mkLayout s sx sy 0%float 0%float)).
Proof.
  intros W H CW CH w h x y.
  split; [reflexivity|].
  split; [|repeat split].
  unfold drawWithLayout, drawImage, finite.
  change (placement cw ch img l) with (mkPlacement x y w h).
  reflexivity.
Qed.

(** C5 as stated fails in the arithmetic of the code. A picture that
    fills the canvas, moved 7 percent to the right, is painted at
    [x = 7 * 1280 / 100 = 89.6]; the claimed offset [7 / 100 * 1280] is
    [89.60000000000001], the next double. The sizes agree. And a layout
    of finite numbers whose width overflows is not placed at all. *)
Lemma claimed_offset_is_not_computed :
  placement 1280 720 wide moved = (mkPlacement 89.6 0 1280 720)%float
  /\ claimedPlacement 1280 720 wide moved = (mkPlacement 89.60000000000001 0 1280 720)%float
  /\ px (placement 1280 720 wide moved) <> px (claimedPlacement 1280 720 wide moved)
  /\ placement 1280 720 wide moved <> claimedPlacement 1280 720 wide moved
  /\ drawWithLayout 1280 720 [] wide moved = [(mkDrawOp wide 89.6 0 1280 720)%float]
  /\ drawWithLayout 1280 720 [] wide moved
     <> drawImage [] wide (claimedPlacement 1280 720 wide moved)
  /\ is_finite (scale huge) = true
  /\ drawWithLayout 1280 720 [] half huge = [].
Proof.
  assert (Hx : px (placement 1280 720 wide moved)
               <> px (claimedPlacement 1280 720 wide moved)).
  { intros Heq. apply (f_equal (fun a => PrimFloat.eqb a 89.6%float)) in Heq.
    vm_compute in Heq. discriminate Heq. }
  split; [reflexivity|]. split; [reflexivity|]. split; [exact Hx|].
  split; [intros Heq; apply Hx; now rewrite Heq|].
  split; [reflexivity|].
  split; [|split; reflexivity].
  intros Heq.
  apply (f_equal (fun l => match l with
                           | [o] => PrimFloat.eqb (op_x o) 89.6%float
                           | _ => false
                           end)) in Heq.
  vm_compute in Heq. discriminate Heq.
Qed.

(** A picture of 640 x 360 at a scale of 0.55: the height is
    [360 * 0.55 = 198.00000000000003]; and a scale at which the width
    overflows paints nothing. *)
Lemma drawWithLayout_binary64_placement_witness :
  placement 1280 720 half shrunk = (mkPlacement 464 261 352 198.00000000000003)%float
  /\ drawWithLayout 1280 720 [] half shrunk
     = [(mkDrawOp half 464 261 352 198.00000000000003)%float]
  /\ drawWithLayout 1280 720 [] half huge = [].
Proof.
  pose proof (drawWithLayout_binary64_placement 1280 720 [] half shrunk) as Hs.
  pose proof (drawWithLayout_binary64_placement 1280 720 [] half huge) as Hh.
  cbv zeta in Hs, Hh.
  destruct Hs as (Hp & Hd & _). destruct Hh as (_ & Hd' & _).
  split; [rewrite Hp; reflexivity|].
  split; [rewrite Hd; reflexivity | rewrite Hd'; reflexivity].
Defined.

End Float64Proofs.

(* ===================================================================== *)
(** ** Properties of the version history *)
(* ===================================================================== *)

Module HistoryProofs.

Import ImageUtils App Spec.

Lemma slice0_nonneg {A : Type} (l : list A) (e : Z) :
  0 <= e -> slice0 l e = take (Z.to_nat e) l.
Proof.
  intros He. unfold slice0.
  destruct (e <? 0) eqn:Hlt; [apply Z.ltb_lt in Hlt; lia | reflexivity].
Qed.

Lemma currentVersion_Some s v :
  currentVersion s = Some v ->
  0 <= currentIdx s < Z.of_nat (length (history s))
  /\ history s !! Z.to_nat (currentIdx s) = Some v.
Proof.
  unfold currentVersion.
  destruct (0 <=? currentIdx s) eqn:H0; cbn [andb]; [|discriminate].
  destruct (currentIdx s <? Z.of_nat (length (history s))) eqn:H1; [|discriminate].
  apply Z.leb_le in H0. apply Z.ltb_lt in H1. auto.
Qed.

Lemma currentVersion_lookup s v :
  0 <= currentIdx s ->
  history s !! Z.to_nat (currentIdx s) = Some v ->
  currentVersion s = Some v.
Proof.
  intros H0 Hl. unfold currentVersion.
  pose proof (lookup_lt_Some _ _ _ Hl) as Hlt.
  destruct (0 <=? currentIdx s) eqn:E0; [|apply Z.leb_gt in E0; lia].
  destruct (currentIdx s <? Z.of_nat (length (history s))) eqn:E1;
    [exact Hl | apply Z.ltb_ge in E1; lia].
Qed.

(** What [addToHistory] writes, for a position in range. *)
Lemma addToHistory_spec r u p ls cbl newId now s :
  -1 <= currentIdx r <= Z.of_nat (length (history r)) - 1 ->
  history (addToHistory r u p ls cbl newId now s)
  = take (Z.to_nat (currentIdx r + 1)) (history r)
      ++ [newVersion r u p ls cbl newId now]
  /\ currentIdx (addToHistory r u p ls cbl newId now s) = currentIdx r + 1.
Proof.
  intros Hidx. unfold addToHistory. cbn [history currentIdx setCurrentIdx setHistory].
  rewrite slice0_nonneg by lia. split; [reflexivity|].
  rewrite length_app, length_take. cbn [length]. lia.
Qed.

Lemma filter_all_kept {A : Type} (f : A -> bool) (l : list A) :
  Forall (fun x => f x = true) l -> List.filter f l = l.
Proof.
  induction 1 as [|x l Hx _ IH]; cbn; [reflexivity|].
  now rewrite Hx, IH.
Qed.

(** C2. Appending a version keeps the history up to the current position,
    drops what lies beyond it, puts the new version last and makes it
    current: [[A; B; C]] at position 1 becomes [[A; B; D]] at position 2,
    and the empty history at position -1 becomes [[D]] at position 0. *)
Theorem addToHistory_branch_on_write :
  (forall s u p ls cbl newId now,
      -1 <= currentIdx s <= Z.of_nat (length (history s)) - 1 ->
      let s' := addToHistory s u p ls cbl newId now s in
      history s'
      = take (Z.to_nat (currentIdx s + 1)) (history s)
          ++ [newVersion s u p ls cbl newId now]
      /\ currentIdx s' = Z.of_nat (length (history s')) - 1
      /\ currentIdx s' = currentIdx s + 1
      /\ currentVersion s' = Some (newVersion s u p ls cbl newId now))
  /\ (forall s A B C u p ls cbl newId now,
        history s = [A; B; C] -> currentIdx s = 1 ->
        let s' := addToHistory s u p ls cbl newId now s in
        history s' = [A; B; newVersion s u p ls cbl newId now]
        /\ currentIdx s' = 2)
  /\ (forall s u p ls cbl newId now,
        history s = [] -> currentIdx s = -1 ->
        let s' := addToHistory s u p ls cbl newId now s in
        history s' = [newVersion s u p ls cbl newId now]
        /\ currentIdx s' = 0).
Proof.
  split; [|split].
  - intros s u p ls cbl newId now Hidx s'.
    destruct (addToHistory_spec s u p ls cbl newId now s Hidx) as [Hh Hi].
    fold s' in Hh, Hi.
    assert (Hlen : Z.of_nat (length (history s')) = currentIdx s + 2).
    { rewrite Hh, length_app, length_take. cbn [length]. lia. }
    split; [exact Hh|]. split; [lia|]. split; [exact Hi|].
    apply currentVersion_lookup; [lia|].
    rewrite Hi, Hh.
    rewrite lookup_app_r by (rewrite length_take; lia).
    rewrite length_take.
    replace (Z.to_nat (currentIdx s + 1)
             - Z.to_nat (currentIdx s + 1) `min` length (history s))%nat
      with 0%nat by lia.
    reflexivity.
  - intros s A B C u p ls cbl newId now Hh Hi s'.
    destruct (addToHistory_spec s u p ls cbl newId now s) as [Hh' Hi'].
    { rewrite Hh, Hi. cbn. lia. }
    fold s' in Hh', Hi'. rewrite Hh', Hi', Hh, Hi. split; reflexivity.
  - intros s u p ls cbl newId now Hh Hi s'.
    destruct (addToHistory_spec s u p ls cbl newId now s) as [Hh' Hi'].
    { rewrite Hh, Hi. cbn. lia. }
    fold s' in Hh', Hi'. rewrite Hh', Hi', Hh, Hi. split; reflexivity.
Qed.

(** C3, as the code has it. Removing a layer id that the current version
    does not carry raises no error and is not ignored: a new version
    with the same base image and the same layer list is appended after
    the current position and becomes current. Only without a current
    version is the call ignored. *)
Theorem removeLayer_absent_id_appends s id newId now :
  (currentVersion s = None -> removeLayer id newId now s = s)
  /\ (forall cv,
        currentVersion s = Some cv ->
        ~ hasLayer id cv ->
        let s' := removeLayer id newId now s in
        history s'
        = take (Z.to_nat (currentIdx s + 1)) (history s)
            ++ [mkVersion newId (url cv) (layers cv) (baseLayout s)
                          (Some "Removed Layer") now]
        /\ currentIdx s' = currentIdx s + 1
        /\ Z.of_nat (length (history s')) = currentIdx s + 2
        /\ projects s' = projects s
        /\ activeProjectId s' = activeProjectId s
        /\ baseLayout s' = baseLayout s).
Proof.
  split.
  - intros Hcv. unfold removeLayer. now rewrite Hcv.
  - intros cv Hcv Habs s'.
    destruct (currentVersion_Some s cv Hcv) as [Hidx _].
    assert (Hkeep : List.filter (fun l => negb (String.eqb (layer_id l) id)) (layers cv)
                    = layers cv).
    { apply filter_all_kept. apply Forall_forall. intros l Hl.
      destruct (String.eqb (layer_id l) id) eqn:E; [|reflexivity].
      exfalso. apply Habs. apply Exists_exists. exists l.
      split; [exact Hl | now apply String.eqb_eq]. }
    assert (Hs' : history s'
                  = take (Z.to_nat (currentIdx s + 1)) (history s)
                      ++ [mkVersion newId (url cv) (layers cv) (baseLayout s)
                                    (Some "Removed Layer") now]
                  /\ currentIdx s' = currentIdx s + 1
                  /\ projects s' = projects s
                  /\ activeProjectId s' = activeProjectId s
                  /\ baseLayout s' = baseLayout s).
    { subst s'. unfold removeLayer. rewrite Hcv, Hkeep.
      destruct (addToHistory_spec s (url cv) (Some "Removed Layer") (layers cv)
                  None newId now s) as [Hh Hi]; [lia|].
      destruct (String.eqb (activeLayerId s) id);
        cbn [history currentIdx projects activeProjectId baseLayout setActiveLayerId];
        rewrite Hh, Hi; repeat split; reflexivity. }
    destruct Hs' as (Hh & Hi & Hp & Ha & Hb).
    split; [exact Hh|]. split; [exact Hi|].
    split; [|auto].
    rewrite Hh, length_app, length_take. cbn [length]. lia.
Qed.

Lemma getField_setField_eq k v l : getField k (setField k v l) = Some v.
Proof. destruct k; reflexivity. Qed.

Lemma getField_setField_ne k k' v l :
  k' <> k -> getField k' (setField k v l) = getField k' l.
Proof. destruct k, k'; intros Hne; try reflexivity; congruence. Qed.

(** The effect leaves the session's [baseLayout] equal to the one of the
    current version. *)
Lemma syncBaseLayout_synced s : synced (syncBaseLayout s).
Proof.
  unfold synced, syncBaseLayout. intros v.
  destruct (currentVersion s) as [cv|] eqn:Hcv.
  - unfold currentVersion in *.
    cbn [history currentIdx baseLayout setBaseLayout].
    rewrite Hcv. now intros [= ->].
  - now rewrite Hcv.
Qed.

(** A layout tweak leaves the mirror in place. *)
Lemma updateActiveTransform_synced key value s :
  synced s -> synced (updateActiveTransform key value s).
Proof.
  intros Hs v. unfold updateActiveTransform.
  destruct (String.eqb (activeLayerId s) "base");
    destruct (currentVersion s) as [cv|] eqn:Hcv.
  - destruct (currentVersion_Some s cv Hcv) as [Hidx Hl].
    unfold currentVersion.
    cbn [history currentIdx baseLayout setBaseLayout setHistory].
    rewrite length_insert.
    destruct ((0 <=? currentIdx s) && (currentIdx s <? Z.of_nat (length (history s))));
      [|discriminate].
    rewrite list_lookup_insert_eq by lia. now intros [= <-].
  - unfold currentVersion in *.
    cbn [history currentIdx baseLayout setBaseLayout]. rewrite Hcv. discriminate.
  - destruct (currentVersion_Some s cv Hcv) as [Hidx Hl].
    unfold currentVersion.
    cbn [history currentIdx baseLayout setHistory].
    rewrite length_insert.
    destruct ((0 <=? currentIdx s) && (currentIdx s <? Z.of_nat (length (history s))));
      [|discriminate].
    rewrite list_lookup_insert_eq by lia. intros [= <-]. cbn. now apply Hs.
  - rewrite Hcv. discriminate.
Qed.

(** C7. With a current version, [updateActiveTransform] rewrites the slot
    of the current version and nothing else: the history keeps its length
    and the position stays; on the base, only the given field of the
    base layout changes; on a layer, only the given field of the layouts
    of the layers carrying the active id changes. *)
Theorem updateActiveTransform_in_place s key value cv :
  currentVersion s = Some cv ->
  synced s ->
  let s' := updateActiveTransform key value s in
  length (history s') = length (history s)
  /\ currentIdx s' = currentIdx s
  /\ (forall j, j <> Z.to_nat (currentIdx s) -> history s' !! j = history s !! j)
  /\ exists cv',
       currentVersion s' = Some cv'
       /\ version_id cv' = version_id cv
       /\ url cv' = url cv
       /\ version_prompt cv' = version_prompt cv
       /\ timestamp cv' = timestamp cv
       /\ (activeLayerId s = "base" ->
            layers cv' = layers cv
            /\ getField key (version_baseLayout cv') = Some value
            /\ forall k, k <> key ->
                 getField k (version_baseLayout cv')
                 = getField k (version_baseLayout cv))
       /\ (activeLayerId s <> "base" ->
            version_baseLayout cv' = version_baseLayout cv
            /\ length (layers cv') = length (layers cv)
            /\ forall i l,
                 layers cv !! i = Some l ->
                 exists l',
                   layers cv' !! i = Some l'
                   /\ layer_id l' = layer_id l
                   /\ layer_url l' = layer_url l
                   /\ layer_name l' = layer_name l
                   /\ (layer_id l <> activeLayerId s -> l' = l)
                   /\ (layer_id l = activeLayerId s ->
                        getField key (layout l') = Some value
                        /\ forall k, k <> key ->
                             getField k (layout l') = getField k (layout l))).
Proof.
  intros Hcv Hsync s'.
  destruct (currentVersion_Some s cv Hcv) as [Hidx Hl].
  pose proof (Hsync cv Hcv) as Hbase.
  subst s'. unfold updateActiveTransform. rewrite Hcv.
  destruct (String.eqb (activeLayerId s) "base") eqn:Eb.
  - apply String.eqb_eq in Eb.
    cbn [history currentIdx setHistory setBaseLayout].
    split; [apply length_insert|]. split; [reflexivity|].
    split; [intros j Hj; now apply list_lookup_insert_ne|].
    eexists. split.
    { apply currentVersion_lookup; [cbn; lia|].
      cbn [history currentIdx setHistory setBaseLayout].
      apply list_lookup_insert_eq. lia. }
    cbn [version_id url version_prompt timestamp layers version_baseLayout].
    do 4 (split; [reflexivity|]).
    split; [|intros Hne; contradiction].
    intros _. split; [reflexivity|]. rewrite Hbase.
    split; [apply getField_setField_eq|].
    intros k Hk. now apply getField_setField_ne.
  - apply String.eqb_neq in Eb.
    cbn [history currentIdx setHistory].
    split; [apply length_insert|]. split; [reflexivity|].
    split; [intros j Hj; now apply list_lookup_insert_ne|].
    eexists. split.
    { apply currentVersion_lookup; [cbn; lia|].
      cbn [history currentIdx setHistory].
      apply list_lookup_insert_eq. lia. }
    cbn [version_id url version_prompt timestamp layers version_baseLayout].
    do 4 (split; [reflexivity|]).
    split; [intros Hb; contradiction|].
    intros _. split; [reflexivity|].
    split; [apply length_map|].
    intros i l Hi.
    change (@List.map Layer Layer) with (@fmap list _ Layer Layer).
    rewrite list_lookup_fmap, Hi. cbn [fmap option_fmap option_map].
    eexists. split; [reflexivity|].
    destruct (String.eqb (layer_id l) (activeLayerId s)) eqn:El.
    + apply String.eqb_eq in El. cbn [layer_id layer_url layer_name layout].
      do 3 (split; [reflexivity|]).
      split; [intros Hne; contradiction|].
      intros _. split; [apply getField_setField_eq|].
      intros k Hk. now apply getField_setField_ne.
    + apply String.eqb_neq in El.
      do 3 (split; [reflexivity|]).
      split; [reflexivity|]. intros He; contradiction.
Qed.

End HistoryProofs.

(* ===================================================================== *)
(** ** Properties of snapshots and projects *)
(* ===================================================================== *)

Module ProjectProofs.

Import ImageUtils App Spec HistoryProofs.

Lemma find_map_same_id (g : Project -> Project) (a : string) (ps : list Project) :
  (forall p, project_id (g p) = project_id p) ->
  List.find (fun p => String.eqb (project_id p) a) (List.map g ps)
  = option_map g (List.find (fun p => String.eqb (project_id p) a) ps).
Proof.
  intros Hid. induction ps as [|p ps IH]; cbn; [reflexivity|].
  rewrite Hid. destruct (String.eqb (project_id p) a); [reflexivity | exact IH].
Qed.

Lemma find_id (a : string) (ps : list Project) (p : Project) :
  List.find (fun p => String.eqb (project_id p) a) ps = Some p ->
  project_id p = a.
Proof.
  intros H. apply List.find_some in H. destruct H as [_ H].
  now apply String.eqb_eq.
Qed.

Lemma lookup_map {A B : Type} (f : A -> B) (l : list A) (i : nat) :
  List.map f l !! i = f <$> (l !! i).
Proof.
  change (@List.map A B) with (@fmap list _ A B). apply list_lookup_fmap.
Qed.

Lemma truthy_Some (a : string) : a <> "" -> truthy (Some a) = true.
Proof.
  intros Ha. cbn. destruct (String.eqb a "") eqn:E; [|reflexivity].
  apply String.eqb_eq in E. contradiction.
Qed.

Lemma truthy_inv (o : option string) :
  truthy o = true -> exists a, o = Some a /\ a <> "".
Proof.
  destruct o as [a|]; cbn; [|discriminate].
  destruct (String.eqb a "") eqn:E; [discriminate|].
  apply String.eqb_neq in E. eauto.
Qed.

Lemma persistProjects_frame ok s :
  history (persistProjects ok s) = history s
  /\ currentIdx (persistProjects ok s) = currentIdx s
  /\ projects (persistProjects ok s) = projects s
  /\ activeProjectId (persistProjects ok s) = activeProjectId s
  /\ baseLayout (persistProjects ok s) = baseLayout s.
Proof. destruct ok; cbn; auto. Qed.

Lemma slice0_cap {A : Type} (l : list A) :
  slice0 l (Z.of_nat MAX_SNAPSHOTS) = take MAX_SNAPSHOTS l.
Proof. rewrite slice0_nonneg by lia. now rewrite Nat2Z.id. Qed.

(** One [createSnapshot] with a version and a stored active project. *)
Lemma createSnapshot_spec now ok s cv a p :
  currentVersion s = Some cv ->
  activeProjectId s = Some a ->
  a <> "" ->
  activeProject s = Some p ->
  let s' := createSnapshot now ok s in
  let snaps := take MAX_SNAPSHOTS (refreshed cv now :: default [] (snapshots p)) in
  projects s'
  = List.map (fun q => if String.eqb (project_id q) a then withSnapshots q snaps else q)
             (projects s)
  /\ activeProject s' = Some (withSnapshots p snaps)
  /\ history s' = history s
  /\ currentIdx s' = currentIdx s
  /\ activeProjectId s' = activeProjectId s.
Proof.
  intros Hcv Ha Hne Hp s' snaps.
  assert (Hproj : projects s'
                  = List.map (fun q => if String.eqb (project_id q) a
                                       then withSnapshots q snaps else q)
                             (projects s)
                  /\ history s' = history s
                  /\ currentIdx s' = currentIdx s
                  /\ activeProjectId s' = activeProjectId s).
  { subst s' snaps. unfold createSnapshot.
    rewrite Hcv, Ha, (truthy_Some a Hne), <- Ha, Hp. cbn [mbind option_bind].
    rewrite slice0_cap.
    destruct (persistProjects_frame ok
                (setProjects
                   (List.map (fun q => if String.eqb (project_id q) a
                                       then withSnapshots q
                                              (take MAX_SNAPSHOTS
                                                 (refreshed cv now
                                                    :: default [] (snapshots p)))
                                       else q) (projects s)) s))
      as (Hh & Hi & Hps & Hid & _).
    unfold withSnapshots, refreshed in *.
    rewrite Hh, Hi, Hps, Hid. cbn. auto. }
  destruct Hproj as (Hps & Hh & Hi & Hid).
  split; [exact Hps|]. split; [|auto].
  unfold activeProject in *. rewrite Hid, Ha in *. rewrite Hps.
  rewrite find_map_same_id, Hp.
  - cbn [option_map]. rewrite (find_id a _ p Hp), String.eqb_refl. reflexivity.
  - intros q. now destruct (String.eqb (project_id q) a).
Qed.

Lemma take_app_take {A : Type} (n : nat) (xs ys : list A) :
  take n (xs ++ take n ys) = take n (xs ++ ys).
Proof.
  rewrite !take_app, take_take. do 2 f_equal. lia.
Qed.

Lemma currentVersion_ext s s' :
  history s' = history s -> currentIdx s' = currentIdx s ->
  currentVersion s' = currentVersion s.
Proof. unfold currentVersion. now intros -> ->. Qed.

(** A run of [createSnapshot] calls on a stored active project: the
    snapshots of the calls come first, the latest call first, and the
    list is cut at the cap. *)
Lemma createSnapshots_spec calls : forall call s cv a p,
  currentVersion s = Some cv ->
  activeProjectId s = Some a ->
  a <> "" ->
  activeProject s = Some p ->
  let s' := createSnapshots (call :: calls) s in
  activeProject s'
  = Some (withSnapshots p
            (take MAX_SNAPSHOTS
               (((fun c => refreshed cv (fst c)) <$> reverse (call :: calls))
                  ++ default [] (snapshots p))))
  /\ history s' = history s
  /\ currentIdx s' = currentIdx s
  /\ activeProjectId s' = activeProjectId s.
Proof.
  induction calls as [|c2 rest IH]; intros call s cv a p Hcv Ha Hne Hp s'.
  - destruct (createSnapshot_spec (fst call) (snd call) s cv a p Hcv Ha Hne Hp)
      as (_ & Hact & Hh & Hi & Hid).
    subst s'. unfold createSnapshots. cbn [foldl].
    rewrite Hact. auto.
  - destruct (createSnapshot_spec (fst call) (snd call) s cv a p Hcv Ha Hne Hp)
      as (_ & Hact & Hh & Hi & Hid).
    set (s1 := createSnapshot (fst call) (snd call) s) in *.
    assert (Hcv1 : currentVersion s1 = Some cv)
      by (rewrite (currentVersion_ext s s1 Hh Hi); exact Hcv).
    assert (Ha1 : activeProjectId s1 = Some a) by congruence.
    destruct (IH c2 s1 cv a _ Hcv1 Ha1 Hne Hact) as (Hact' & Hh' & Hi' & Hid').
    subst s'. change (createSnapshots (call :: c2 :: rest) s)
      with (createSnapshots (c2 :: rest) s1).
    rewrite Hact', Hh', Hi', Hid'. split; [|auto].
    unfold withSnapshots at 1 2. cbn [project_id name thumbnailUrl project_timestamp
                                       revisionStack snapshots default].
    unfold withSnapshots. do 2 f_equal. cbn [snapshots default from_option id].
    rewrite take_app_take.
    rewrite (reverse_cons (c2 :: rest) call), fmap_app, <- app_assoc.
    reflexivity.
Qed.

Lemma createSnapshot_noop now ok s :
  currentVersion s = None \/ truthy (activeProjectId s) = false ->
  createSnapshot now ok s = s.
Proof.
  unfold createSnapshot. intros [H|H]; rewrite H; [reflexivity|].
  now destruct (currentVersion s).
Qed.

Lemma createSnapshot_capped now ok s : capped s -> capped (createSnapshot now ok s).
Proof.
  unfold capped, createSnapshot. intros Hs.
  destruct (currentVersion s) as [cv|]; [|exact Hs].
  destruct (truthy (activeProjectId s)); [|exact Hs].
  destruct (activeProjectId s) as [a|]; [|exact Hs].
  destruct (persistProjects_frame ok
              (setProjects
                 (List.map
                    (fun p =>
                       if String.eqb (project_id p) a
                       then mkProject (project_id p) (name p) (thumbnailUrl p)
                              (project_timestamp p) (revisionStack p)
                              (Some (slice0
                                       (mkVersion (version_id cv) (url cv) (layers cv)
                                          (version_baseLayout cv) (version_prompt cv) now
                                        :: default [] (activeProject s ≫= snapshots))
                                       (Z.of_nat MAX_SNAPSHOTS)))
                       else p) (projects s)) s))
    as (_ & _ & -> & _).
  cbn [projects setProjects].
  apply Forall_forall. intros q Hq.
  apply list_elem_of_In, in_map_iff in Hq. destruct Hq as (p & <- & Hp).
  destruct (String.eqb (project_id p) a).
  - unfold snapshotCount. cbn [snapshots default from_option id].
    rewrite slice0_cap, length_take. lia.
  - rewrite Forall_forall in Hs. apply Hs. now apply list_elem_of_In.
Qed.

Lemma storeCurrentProjectState_capped newId now ok s :
  capped s -> capped (storeCurrentProjectState newId now ok s).
Proof.
  unfold capped, storeCurrentProjectState. intros Hs.
  destruct (currentVersion s) as [cv|]; [|exact Hs].
  destruct (truthy (activeProjectId s)), (activeProjectId s) as [a|];
    match goal with
    | |- context [persistProjects ok ?x] =>
        destruct (persistProjects_frame ok x) as (_ & _ & -> & _)
    end; cbn [projects setProjects setActiveProjectId].
  2-4: constructor; [unfold snapshotCount; cbn; unfold MAX_SNAPSHOTS; lia | exact Hs].
  apply Forall_forall. intros q Hq.
  apply list_elem_of_In, in_map_iff in Hq. destruct Hq as (p & <- & Hp).
  rewrite Forall_forall in Hs. apply list_elem_of_In, Hs in Hp.
  now destruct (String.eqb (project_id p) a).
Qed.

Lemma deleteProject_capped id ok s :
  capped s -> capped (deleteProject id ok s).
Proof.
  unfold capped, deleteProject. intros Hs.
  match goal with
  | |- context [persistProjects ok ?x] =>
      destruct (persistProjects_frame ok x) as (_ & _ & Hp & _)
  end.
  destruct (decide (activeProjectId s = Some id)); cbn [projects]; rewrite Hp;
    cbn [projects setProjects];
    apply Forall_forall; intros q Hq;
    apply list_elem_of_In, filter_In in Hq; destruct Hq as [Hq _];
    rewrite Forall_forall in Hs; apply Hs; now apply list_elem_of_In.
Qed.

Lemma map_no_match (g : Project -> Project) (a : string) (ps : list Project) :
  List.find (fun p => String.eqb (project_id p) a) ps = None ->
  List.map (fun p => if String.eqb (project_id p) a then g p else p) ps = ps.
Proof.
  induction ps as [|p ps IH]; cbn; [reflexivity|].
  destruct (String.eqb (project_id p) a); [discriminate|].
  intros Hnone. now rewrite (IH Hnone).
Qed.

(** With an active project id that no stored project carries,
    [createSnapshot] only writes the project list back as it is. *)
Lemma createSnapshot_dangling now ok s cv a :
  currentVersion s = Some cv ->
  activeProjectId s = Some a ->
  a <> "" ->
  activeProject s = None ->
  createSnapshot now ok s = persistProjects ok s.
Proof.
  intros Hcv Ha Hne Hp. unfold createSnapshot.
  rewrite Hcv, Ha, (truthy_Some a Hne).
  unfold activeProject in Hp. rewrite Ha in Hp.
  rewrite map_no_match by exact Hp.
  f_equal. destruct s; reflexivity.
Qed.

Lemma deleteProject_start_capped r id s :
  capped r -> capped (Editor.deleteProject_start r id s).
Proof.
  unfold capped, Editor.deleteProject_start. cbn [projects setProjects]. intros Hr.
  apply Forall_forall. intros q Hq.
  apply list_elem_of_In, filter_In in Hq. destruct Hq as [Hq _].
  rewrite Forall_forall in Hr. apply Hr. now apply list_elem_of_In.
Qed.

Lemma deleteProject_settle_capped r id ok s :
  capped s -> capped (Editor.deleteProject_settle r id ok s).
Proof.
  unfold capped, Editor.deleteProject_settle. intros Hs.
  destruct (persistProjects_frame ok s) as (_ & _ & Hp & _).
  destruct (decide (activeProjectId r = Some id));
    cbn [projects Editor.executeStartNewProject setChatMessages setError setPrompt
         setActiveLayerId setBaseLayout setActiveProjectId setCurrentIdx setHistory];
    rewrite Hp; exact Hs.
Qed.

(** C6, as the code has it. Without a current version or without an
    active project id [createSnapshot] changes nothing. With both and a
    stored project that carries the id, that project gets the current
    version, with the new timestamp, in front of its snapshots, cut to the
    first [MAX_SNAPSHOTS] = 12; the other projects and the history are
    untouched. With both and no stored project that carries the id, no
    snapshot is recorded: the project list is written back as it is,
    which changes nothing when the store takes it and sets the storage
    error when it does not. The cap on every project is kept by the
    operations that write the project list, and [MAX_SNAPSHOTS] + 1
    snapshots on a project without snapshots leave exactly
    [MAX_SNAPSHOTS], latest first, the first one dropped. *)
Theorem createSnapshot_prepends_and_caps :
  MAX_SNAPSHOTS = 12%nat
  /\ (forall now ok s,
        currentVersion s = None \/ truthy (activeProjectId s) = false ->
        createSnapshot now ok s = s)
  /\ (forall now ok s cv a p,
        currentVersion s = Some cv ->
        activeProjectId s = Some a ->
        a <> "" ->
        activeProject s = Some p ->
        let s' := createSnapshot now ok s in
        let snaps := take MAX_SNAPSHOTS (refreshed cv now :: default [] (snapshots p)) in
        activeProject s' = Some (withSnapshots p snaps)
        /\ (length snaps <= MAX_SNAPSHOTS)%nat
        /\ (forall i q, projects s !! i = Some q -> project_id q <> a ->
                        projects s' !! i = Some q)
        /\ length (projects s') = length (projects s)
        /\ history s' = history s
        /\ currentIdx s' = currentIdx s)
  /\ (forall now ok s cv a,
        currentVersion s = Some cv ->
        activeProjectId s = Some a ->
        a <> "" ->
        activeProject s = None ->
        let s' := createSnapshot now ok s in
        s' = persistProjects ok s
        /\ projects s' = projects s
        /\ activeProject s' = None
        /\ history s' = history s
        /\ currentIdx s' = currentIdx s
        /\ error s' = (if ok then error s
                       else Some "Storage error. Database might be full."))
  /\ (forall now ok newId id r s,
        capped s ->
        capped (createSnapshot now ok s)
        /\ capped (storeCurrentProjectState newId now ok s)
        /\ capped (deleteProject id ok s)
        /\ capped (Editor.deleteProject_settle r id ok s)
        /\ (capped r -> capped (Editor.deleteProject_start r id s)))
  /\ (forall first rest s cv a p,
        currentVersion s = Some cv ->
        activeProjectId s = Some a ->
        a <> "" ->
        activeProject s = Some p ->
        default [] (snapshots p) = [] ->
        length rest = MAX_SNAPSHOTS ->
        let s' := createSnapshots (first :: rest) s in
        activeProject s'
        = Some (withSnapshots p ((fun c => refreshed cv (fst c)) <$> reverse rest))
        /\ length ((fun c => refreshed cv (fst c)) <$> reverse rest) = MAX_SNAPSHOTS).
Proof.
  split; [reflexivity|].
  split; [intros now ok s; apply createSnapshot_noop|].
  split; [|split; [|split]].
  - intros now ok s cv a p Hcv Ha Hne Hp s' snaps.
    destruct (createSnapshot_spec now ok s cv a p Hcv Ha Hne Hp)
      as (Hps & Hact & Hh & Hi & _).
    fold s' in Hps, Hact, Hh, Hi. fold snaps in Hps, Hact.
    split; [exact Hact|].
    split; [subst snaps; rewrite length_take; lia|].
    split; [|split; [rewrite Hps; apply length_map | auto]].
    intros i q Hq Hid. rewrite Hps, lookup_map, Hq. cbn.
    destruct (String.eqb (project_id q) a) eqn:E; [|reflexivity].
    apply String.eqb_eq in E. contradiction.
  - intros now ok s cv a Hcv Ha Hne Hp s'. subst s'.
    rewrite (createSnapshot_dangling now ok s cv a Hcv Ha Hne Hp).
    destruct (persistProjects_frame ok s) as (Hh & Hi & Hps & Hid & _).
    split; [reflexivity|]. split; [exact Hps|].
    split; [unfold activeProject in *; now rewrite Hid, Hps|].
    split; [exact Hh|]. split; [exact Hi|].
    now destruct ok.
  - intros now ok newId id r s Hs.
    split; [now apply createSnapshot_capped|].
    split; [now apply storeCurrentProjectState_capped|].
    split; [now apply deleteProject_capped|].
    split; [now apply deleteProject_settle_capped|].
    apply deleteProject_start_capped.
  - intros first rest s cv a p Hcv Ha Hne Hp Hempty Hlen s'.
    destruct (createSnapshots_spec rest first s cv a p Hcv Ha Hne Hp)
      as (Hact & _).
    fold s' in Hact. rewrite Hact, Hempty, app_nil_r.
    rewrite reverse_cons, fmap_app.
    rewrite length_fmap, length_reverse. split; [|exact Hlen].
    rewrite take_app_length'; [reflexivity|].
    now rewrite length_fmap, length_reverse.
Qed.

(** C8, as the code has it. With a current version: when the active
    project id is set, every stored project carrying it gets the base
    image of the current version as thumbnail, the whole history as
    revision stack and the new timestamp, and keeps its other fields;
    the other projects, the length of the list and the active id are
    unchanged. When no active project id is set, a project with the
    generated id and the next default name is put in front of the list
    and becomes the active one. *)
Theorem storeCurrentProjectState_upsert newId now ok s cv :
  currentVersion s = Some cv ->
  let s' := storeCurrentProjectState newId now ok s in
  history s' = history s
  /\ currentIdx s' = currentIdx s
  /\ (forall a,
        activeProjectId s = Some a ->
        a <> "" ->
        activeProjectId s' = Some a
        /\ length (projects s') = length (projects s)
        /\ forall i p,
             projects s !! i = Some p ->
             projects s' !! i
             = Some (if String.eqb (project_id p) a
                     then saved p (url cv) (history s) now
                     else p))
  /\ (truthy (activeProjectId s) = false ->
      projects s'
      = mkProject newId
                  ("Thumbnail " +:+ pretty (length (projects s) + 1)%nat)
                  (url cv) now (history s) (Some [])
          :: projects s
      /\ activeProjectId s' = Some newId).
Proof.
  intros Hcv s'. subst s'. unfold storeCurrentProjectState. rewrite Hcv.
  destruct (truthy (activeProjectId s)) eqn:Ht.
  - destruct (truthy_inv _ Ht) as (a & Ha & Hne). rewrite Ha.
    match goal with
    | |- context [persistProjects ok ?x] =>
        destruct (persistProjects_frame ok x) as (-> & -> & -> & -> & _)
    end.
    cbn [history currentIdx projects activeProjectId setProjects].
    split; [reflexivity|]. split; [reflexivity|].
    split; [|discriminate].
    intros a' [= <-] _.
    split; [exact Ha|]. split; [apply length_map|].
    intros i p Hp. rewrite lookup_map, Hp. reflexivity.
  - assert (Hset : forall a, activeProjectId s = Some a -> a <> "" -> False).
    { intros a Ha Hne. rewrite Ha, (truthy_Some a Hne) in Ht. discriminate. }
    destruct (activeProjectId s) as [a0|];
      match goal with
      | |- context [persistProjects ok ?x] =>
          destruct (persistProjects_frame ok x) as (-> & -> & -> & -> & _)
      end;
      cbn [history currentIdx projects activeProjectId setProjects setActiveProjectId];
      (split; [reflexivity|]); (split; [reflexivity|]);
      (split; [|auto]);
      intros a Ha Hne; destruct (Hset a Ha Hne).
Qed.

End ProjectProofs.

(* ===================================================================== *)
(** ** Properties of the edit orchestration *)
(* ===================================================================== *)

Module OrchestratorProofs.

Import ImageUtils App Spec Scenario HistoryProofs ImageUtilsProofs.

(** The busy flag is down after every continuation, whatever happened. *)
Lemma settle_clears_busy e t s : isProcessing (settle e t s) = false.
Proof. destruct t; reflexivity. Qed.

(** The chat handler is not started while the busy flag is up. *)
Lemma handleChatSubmit_start_guarded newId now w :
  isProcessing (live w) = true -> handleChatSubmit_start newId now w = w.
Proof.
  intros Hbusy. unfold handleChatSubmit_start. rewrite Hbusy.
  now rewrite orb_true_r.
Qed.

(** Neither of the two content handlers looks at the busy flag. *)
Lemma handleGenerateFromScratch_start_unguarded templatePrompt w :
  inflight (handleGenerateFromScratch_start templatePrompt w)
  = inflight w ++ [GenerateTask (live w) templatePrompt].
Proof. reflexivity. Qed.

Lemma handleEdit_start_unguarded customPrompt w cv :
  currentVersion (live w) = Some cv ->
  trim (orElse (default "" customPrompt) (prompt (live w))) <> "" ->
  inflight (handleEdit_start customPrompt w)
  = inflight w
      ++ [EditTask (live w) cv
            (trim (orElse (default "" customPrompt) (prompt (live w))))].
Proof.
  intros Hcv Hp. unfold handleEdit_start. rewrite Hcv.
  destruct (String.eqb _ "") eqn:E; [|reflexivity].
  apply String.eqb_eq in E. contradiction.
Qed.

(** After every event the session's [baseLayout] mirrors the current
    version: handlers are entered in such a session only. *)
Lemma step_synced w ev : synced (live (step w ev)).
Proof. unfold step. cbn [live]. apply syncBaseLayout_synced. Qed.

Lemma run_synced evs : forall w, synced (live w) -> synced (live (run w evs)).
Proof.
  unfold run. induction evs as [|ev evs IH]; intros w Hw; cbn [foldl].
  - exact Hw.
  - apply IH, step_synced.
Qed.

(** A request that was composed came from a decodable base, and holds the
    layers of the version painted over it. *)
Lemma submission_raster e r cv composed :
  submission e r cv = inr composed ->
  exists baseImg,
    loadImage e (url cv) = Some baseImg
    /\ raster composed
       = (1280, 720, "#000000",
          placedOps 1280 720 baseImg (baseLayout r)
            ++ flat_map (layerOps (loadImage e) 1280 720) (layers cv)).
Proof.
  unfold submission. intros Hsub.
  destruct (ctxAvailable e) eqn:Hctx; [|discriminate].
  destruct (loadImage e (url cv)) as [baseImg|] eqn:Hbase;
    [|unfold composeImage in Hsub; rewrite Hbase in Hsub; discriminate].
  exists baseImg. split; [reflexivity|].
  destruct (composeImage_raster (loadImage e) (url cv) baseImg (baseLayout r)
              (layers cv) Hbase) as (c & Hc & Hr).
  rewrite Hc in Hsub. now injection Hsub as <-.
Qed.

(** C10. A remote edit or generation that succeeds appends a version with
    the image the service returned, no layers and the default base
    layout; the layers of the version that was edited are in the request
    only, painted into the composed raster. A failed operation, and the
    chat, leave the history as it is. *)
Theorem remote_result_has_no_layers :
  (forall e r cv rawPrompt s composed result,
      submission e r cv = inr composed ->
      editImage e composed (orElse rawPrompt "Clean background removal.") = Some result ->
      let s' := handleEdit_settle e r cv rawPrompt s in
      exists v,
        history s' = slice0 (history r) (currentIdx r + 1) ++ [v]
        /\ url v = result
        /\ layers v = []
        /\ version_baseLayout v = DEFAULT_LAYOUT
        /\ baseLayout s' = DEFAULT_LAYOUT
        /\ exists baseImg,
             loadImage e (url cv) = Some baseImg
             /\ raster composed
                = (1280, 720, "#000000",
                   placedOps 1280 720 baseImg (baseLayout r)
                     ++ flat_map (layerOps (loadImage e) 1280 720) (layers cv)))
  /\ (forall e r templatePrompt s result,
        generateNewImage e templatePrompt = Some result ->
        let s' := handleGenerateFromScratch_settle e r templatePrompt s in
        exists v,
          history s' = slice0 (history r) (currentIdx r + 1) ++ [v]
          /\ url v = result
          /\ layers v = []
          /\ version_baseLayout v = DEFAULT_LAYOUT)
  /\ (forall e t s,
        match t with
        | EditTask r cv rawPrompt =>
            match submission e r cv with
            | inl _ => True
            | inr composed =>
                editImage e composed (orElse rawPrompt "Clean background removal.") = None
            end
        | GenerateTask r templatePrompt => generateNewImage e templatePrompt = None
        | ChatTask r userText => True
        end ->
        history (settle e t s) = history s
        /\ currentIdx (settle e t s) = currentIdx s).
Proof.
  split; [|split].
  - intros e r cv rawPrompt s composed result Hsub Hedit s'.
    subst s'. unfold handleEdit_settle. rewrite Hsub, Hedit.
    eexists. split; [reflexivity|].
    do 4 (split; [reflexivity|]).
    now apply submission_raster.
  - intros e r templatePrompt s result Hgen s'.
    subst s'. unfold handleGenerateFromScratch_settle. rewrite Hgen.
    eexists. split; [reflexivity|]. repeat split.
  - intros e [r cv rawPrompt | r templatePrompt | r userText] s; cbn [settle].
    + unfold handleEdit_settle.
      destruct (submission e r cv) as [err|composed]; [auto|].
      intros ->. auto.
    + unfold handleGenerateFromScratch_settle. intros ->. auto.
    + intros _. unfold handleChatSubmit_settle.
      destruct (currentVersion r) as [cv|];
        [destruct (submission e r cv) as [err|composed]|];
        try destruct (generateContent e _ userText); auto.
Qed.

(** C9, evaluated on the code. Two blueprints are clicked one after the
    other on the start screen: the second click is accepted although the
    busy flag is up, the first result to come back clears the flag
    while the other handler is still in flight, and both results are
    appended at position 0, so that the second replaces the first. The
    same happens to two quick actions on an open version. A chat message
    sent while the flag is up is rejected. *)
Theorem second_operation_is_not_rejected :
  let w1 := step mounted (ClickGenerate "city") in
  let w2 := step w1 (ClickGenerate "forest") in
  let w3 := step w2 (Settle 0 envA) in
  let w4 := step w3 (Settle 0 envB) in
  let e0 := mkWorld sABC [] in
  let e1 := step e0 (ClickEdit (Some "neon")) in
  let e2 := step e1 (ClickEdit (Some "sepia")) in
  let e4 := run e2 [Settle 0 envA; Settle 0 envB] in
  let c1 := run w1 [TypeChat "rate it"; ClickChat "m1" 7] in
  let c0 := run mounted [TypeChat "rate it"; ClickChat "m1" 7] in
  (isProcessing (live w1) = true /\ length (inflight w1) = 1%nat)
  /\ (isProcessing (live w2) = true /\ length (inflight w2) = 2%nat)
  /\ (url <$> history (live w3) = ["gen:city"]
      /\ currentIdx (live w3) = 0
      /\ isProcessing (live w3) = false
      /\ length (inflight w3) = 1%nat)
  /\ (url <$> history (live w4) = ["gen:forest"]
      /\ currentIdx (live w4) = 0
      /\ inflight w4 = [])
  /\ (isProcessing (live e1) = true /\ length (inflight e2) = 2%nat)
  /\ (url <$> history (live e4) = ["data:A"; "data:B"; "edit:sepia"]
      /\ currentIdx (live e4) = 2)
  /\ (inflight c1 = inflight w1 /\ chatMessages (live c1) = [])
  /\ (length (inflight c0) = 1%nat /\ length (chatMessages (live c0)) = 1%nat).
Proof. cbv zeta. repeat split; vm_compute; reflexivity. Qed.

End OrchestratorProofs.

(* ===================================================================== *)
(** ** The properties on concrete sessions *)
(* ===================================================================== *)

Module Instances.

Import ImageUtils App Spec Scenario.
Import ImageUtilsProofs HistoryProofs ProjectProofs OrchestratorProofs.

Lemma sLayers_synced : synced sLayers.
Proof. intros v Hv. vm_compute in Hv. injection Hv as <-. reflexivity. Defined.

Lemma vLayers_no_ghost : ~ hasLayer "ghost" vLayers.
Proof.
  unfold hasLayer, vLayers, layers. intros H.
  repeat (apply Exists_cons in H; destruct H as [H|H]; [discriminate H|]).
  now apply Exists_nil in H.
Defined.

(** [[A; B; C]] with [B] active: appending [D] gives [[A; B; D]] with [D]
    active. *)
Lemma addToHistory_branch_on_write_witness :
  -1 <= currentIdx sABC <= Z.of_nat (length (history sABC)) - 1
  /\ history (addToHistory sABC "data:D" None [] None "d" 4 sABC)
     = [vA; vB; mkVersion "d" "data:D" [] DEFAULT_LAYOUT None 4]
  /\ currentIdx (addToHistory sABC "data:D" None [] None "d" 4 sABC) = 2.
Proof.
  assert (Hrange : -1 <= currentIdx sABC <= Z.of_nat (length (history sABC)) - 1)
    by (cbn; lia).
  split; [exact Hrange|].
  destruct (proj1 addToHistory_branch_on_write sABC "data:D" None [] None "d" 4 Hrange)
    as (Hh & _ & Hi & _).
  split; [exact Hh | exact Hi].
Defined.

(** C3 as stated fails: the version has no layer ["ghost"], and removing
    it still moves the history from two versions at position 1 to three
    versions at position 2. *)
Lemma removeLayer_absent_id_not_ignored :
  currentVersion sLayers = Some vLayers
  /\ ~ hasLayer "ghost" vLayers
  /\ length (history sLayers) = 2%nat
  /\ length (history (removeLayer "ghost" "v3" 9 sLayers)) = 3%nat
  /\ history (removeLayer "ghost" "v3" 9 sLayers) <> history sLayers
  /\ currentIdx (removeLayer "ghost" "v3" 9 sLayers) <> currentIdx sLayers
  /\ currentVersion (removeLayer "ghost" "v3" 9 sLayers) <> currentVersion sLayers.
Proof.
  split; [reflexivity|]. split; [exact vLayers_no_ghost|].
  split; [reflexivity|]. split; [reflexivity|].
  split; [intros H; apply (f_equal length) in H; discriminate H|].
  split; [discriminate|].
  intros H. vm_compute in H. discriminate H.
Qed.

Lemma removeLayer_absent_id_appends_witness :
  currentVersion sLayers = Some vLayers
  /\ ~ hasLayer "ghost" vLayers
  /\ history (removeLayer "ghost" "v3" 9 sLayers)
     = [vA; vLayers;
        mkVersion "v3" "data:A" [logo; badge; face] DEFAULT_LAYOUT
                  (Some "Removed Layer") 9]
  /\ currentIdx (removeLayer "ghost" "v3" 9 sLayers) = 2.
Proof.
  assert (Hcv : currentVersion sLayers = Some vLayers) by reflexivity.
  split; [exact Hcv|]. split; [exact vLayers_no_ghost|].
  destruct (proj2 (removeLayer_absent_id_appends sLayers "ghost" "v3" 9)
              vLayers Hcv vLayers_no_ghost) as (Hh & Hi & _).
  split; [exact Hh | exact Hi].
Defined.

(** Base and three layers, the second of which does not decode: the
    raster is the one of base, first and third layer. *)
Lemma composeImage_skips_undecodable_layer_witness :
  decoder "data:A" = Some (mkImage "data:A" 640 360)
  /\ decoder (layer_url badge) = None
  /\ exists c c',
       composeImage decoder true "data:A" DEFAULT_LAYOUT [logo; badge; face] = inr c
       /\ composeImage decoder true "data:A" DEFAULT_LAYOUT [logo; face] = inr c'
       /\ raster c = raster c'
       /\ length (ops c) = 3%nat.
Proof.
  split; [reflexivity|]. split; [reflexivity|].
  destruct (proj2 (composeImage_skips_undecodable_layer decoder true "data:A"
                     DEFAULT_LAYOUT [logo] [face] badge)
              (mkImage "data:A" 640 360) eq_refl eq_refl eq_refl)
    as (c & c' & Hc & Hc' & Hr & Hops).
  exists c, c'. split; [exact Hc|]. split; [exact Hc'|]. split; [exact Hr|].
  apply (f_equal snd) in Hops. cbn [snd raster] in Hops. now rewrite Hops.
Defined.

(** The saved session: a snapshot goes in front, and thirteen snapshots
    leave the twelve latest. *)
Lemma createSnapshot_prepends_and_caps_witness :
  currentVersion sSaved = Some vA
  /\ activeProject sSaved = Some pOne
  /\ activeProject (createSnapshot 50 true sSaved)
     = Some (withSnapshots pOne [refreshed vA 50])
  /\ (snapshots <$> activeProject (createSnapshots thirteen sSaved))
     = Some (Some (refreshed vA
                     <$> [113; 112; 111; 110; 109; 108; 107; 106; 105; 104; 103; 102]))
  /\ activeProject sDangling = None
  /\ projects (createSnapshot 7 false sDangling) = projects sDangling
  /\ error (createSnapshot 7 false sDangling)
     = Some "Storage error. Database might be full.".
Proof.
  assert (Hcv : currentVersion sSaved = Some vA) by reflexivity.
  assert (Hp : activeProject sSaved = Some pOne) by reflexivity.
  assert (Hne : "p1" <> "") by discriminate.
  assert (Hgone : "gone" <> "") by discriminate.
  destruct createSnapshot_prepends_and_caps as (_ & _ & Hone & Hnone & _ & Hmany).
  split; [exact Hcv|]. split; [exact Hp|]. split; [|split; [|split; [reflexivity|]]].
  - destruct (Hone 50 true sSaved vA "p1" pOne Hcv eq_refl Hne Hp) as (Hact & _).
    exact Hact.
  - destruct (Hmany (101, true) (tail thirteen) sSaved vA "p1" pOne
                Hcv eq_refl Hne Hp eq_refl eq_refl) as (Hact & _).
    change (createSnapshots ((101, true) :: tail thirteen) sSaved)
      with (createSnapshots thirteen sSaved) in Hact.
    rewrite Hact. reflexivity.
  - destruct (Hnone 7 false sDangling vA "gone" eq_refl eq_refl Hgone eq_refl)
      as (_ & Hps & _ & _ & _ & Herr).
    split; [exact Hps | exact Herr].
Defined.

(** The scale slider moved on the layer [logo]. *)
Lemma updateActiveTransform_in_place_witness :
  currentVersion sLayers = Some vLayers
  /\ synced sLayers
  /\ length (history (updateActiveTransform KScale (Fin (3 # 2)) sLayers)) = 2%nat
  /\ currentIdx (updateActiveTransform KScale (Fin (3 # 2)) sLayers) = 1
  /\ history (updateActiveTransform KScale (Fin (3 # 2)) sLayers) !! 0%nat = Some vA.
Proof.
  assert (Hcv : currentVersion sLayers = Some vLayers) by reflexivity.
  split; [exact Hcv|]. split; [exact sLayers_synced|].
  destruct (updateActiveTransform_in_place sLayers KScale (Fin (3 # 2)) vLayers
              Hcv sLayers_synced) as (Hlen & Hidx & Hother & _).
  split; [exact Hlen|]. split; [exact Hidx|].
  rewrite (Hother 0%nat); [reflexivity | discriminate].
Defined.

(** C6 as stated fails: there is a current version and the active id
    ["gone"] is set, but no stored project carries it. No snapshot is
    recorded anywhere, with a store that works and with one that fails, so
    the call does not prepend; and it is not a silent no-op either, since
    with a failing store it leaves the storage error. *)
Lemma createSnapshot_dangling_id :
  currentVersion sDangling = Some vA
  /\ activeProjectId sDangling = Some "gone"
  /\ activeProject sDangling = None
  /\ projects (createSnapshot 7 true sDangling) = projects sDangling
  /\ projects (createSnapshot 7 false sDangling) = projects sDangling
  /\ (snapshots <$> projects (createSnapshot 7 true sDangling)) = [Some []]
  /\ activeProject (createSnapshot 7 true sDangling) = None
  /\ error sDangling = None
  /\ error (createSnapshot 7 false sDangling)
     = Some "Storage error. Database might be full."
  /\ createSnapshot 7 false sDangling <> sDangling.
Proof.
  do 9 (split; [reflexivity|]).
  intros Heq. apply (f_equal error) in Heq. discriminate Heq.
Qed.

(** C8 as stated fails: the active id ["gone"] refers to no stored
    project, and saving neither creates a project nor adopts a new id. *)
Lemma storeCurrentProjectState_dangling_id :
  currentVersion sDangling = Some vA
  /\ activeProjectId sDangling = Some "gone"
  /\ activeProject sDangling = None
  /\ projects (storeCurrentProjectState "fresh" 9 true sDangling) = projects sDangling
  /\ length (projects (storeCurrentProjectState "fresh" 9 true sDangling)) = 1%nat
  /\ activeProjectId (storeCurrentProjectState "fresh" 9 true sDangling) <> Some "fresh"
  /\ activeProject (storeCurrentProjectState "fresh" 9 true sDangling) = None.
Proof.
  do 5 (split; [reflexivity|]).
  split; [discriminate | reflexivity].
Qed.

Lemma storeCurrentProjectState_upsert_witness :
  currentVersion sSaved = Some vA
  /\ projects (storeCurrentProjectState "fresh" 9 true sSaved) !! 1%nat
     = Some (saved pOne "data:A" [vA] 9)
  /\ projects (storeCurrentProjectState "fresh" 9 true sSaved) !! 0%nat = Some pTwo
  /\ projects (storeCurrentProjectState "fresh" 9 true
                 (setActiveProjectId None sSaved))
     = [mkProject "fresh" "Thumbnail 3" "data:A" 9 [vA] (Some []); pTwo; pOne].
Proof.
  assert (Hcv : currentVersion sSaved = Some vA) by reflexivity.
  assert (Hne : "p1" <> "") by discriminate.
  split; [exact Hcv|].
  destruct (storeCurrentProjectState_upsert "fresh" 9 true sSaved vA Hcv)
    as (_ & _ & Hupd & _).
  destruct (Hupd "p1" eq_refl Hne) as (_ & _ & Hat).
  split; [exact (Hat 1%nat pOne eq_refl)|].
  split; [exact (Hat 0%nat pTwo eq_refl)|].
  destruct (storeCurrentProjectState_upsert "fresh" 9 true
              (setActiveProjectId None sSaved) vA Hcv)
    as (_ & _ & _ & Hnew).
  destruct (Hnew eq_refl) as (Hps & _). exact Hps.
Defined.

(** An edit of the version with three layers that the service answers. *)
Lemma remote_result_has_no_layers_witness :
  (exists composed,
      submission envA sLayers vLayers = inr composed
      /\ length (ops composed) = 3%nat)
  /\ (layers <$> history (handleEdit_settle envA sLayers vLayers "neon" sLayers))
     = [[]; [logo; badge; face]; []]
  /\ (url <$> history (handleGenerateFromScratch_settle envA initial "city" initial))
     = ["gen:city"]
  /\ history (settle envDown (GenerateTask initial "city") sLayers) = history sLayers.
Proof.
  destruct remote_result_has_no_layers as (Hedit & Hgen & Hfail).
  split; [eexists; split; reflexivity|].
  split; [|split].
  - destruct (Hedit envA sLayers vLayers "neon" sLayers _ "edit:neon" eq_refl eq_refl)
      as (v & Hh & Hu & Hl & _).
    rewrite Hh, fmap_app. cbn [fmap list_fmap]. rewrite Hl. reflexivity.
  - destruct (Hgen envA initial "city" initial "gen:city" eq_refl)
      as (v & Hh & Hu & _).
    rewrite Hh, fmap_app. cbn [fmap list_fmap]. rewrite Hu. reflexivity.
  - exact (proj1 (Hfail envDown (GenerateTask initial "city") sLayers eq_refl)).
Defined.

End Instances.

(* ===================================================================== *)
(** ** Further properties of the compositor *)
(* ===================================================================== *)

Module ComposeProofs.

Import ImageUtils App Spec Scenario Vocabulary ImageUtilsProofs.

Section Decoder.

Variable loadImage : string -> option Image.

Lemma drawLayer_console c layer :
  console (drawLayer loadImage c layer)
  = console c ++ (layer_id <$> undecodable loadImage [layer]).
Proof.
  unfold drawLayer, undecodable. cbn [List.filter].
  destruct (loadImage (layer_url layer)) as [img|]; cbn.
  - rewrite app_nil_r. unfold drawWithLayout.
    now destruct (drawImage_dims c img
                    (placement (canvas_width c) (canvas_height c) img (layout layer)))
      as (_ & _ & _ & ->).
  - reflexivity.
Qed.

Lemma undecodable_app ls1 ls2 :
  undecodable loadImage (ls1 ++ ls2)
  = undecodable loadImage ls1 ++ undecodable loadImage ls2.
Proof. apply List.filter_app. Qed.

Lemma undecodable_length ls : (length (undecodable loadImage ls) <= length ls)%nat.
Proof. apply List.filter_length_le. Qed.

Lemma layers_loop_console ls : forall c,
  console (foldl (drawLayer loadImage) c ls)
  = console c ++ (layer_id <$> undecodable loadImage ls).
Proof.
  induction ls as [|layer ls IH]; intros c; cbn [foldl].
  - cbn. now rewrite app_nil_r.
  - rewrite IH, drawLayer_console, <- app_assoc, <- fmap_app.
    now rewrite <- undecodable_app.
Qed.

Lemma placedOps_length cw ch img l : (length (placedOps cw ch img l) <= 1)%nat.
Proof.
  unfold placedOps.
  destruct (placement cw ch img l) as [[|x] [|y] [|w] [|h]]; cbn; lia.
Qed.

Lemma layerOps_length cw ch ls :
  (length (flat_map (layerOps loadImage cw ch) ls)
     + length (undecodable loadImage ls) <= length ls)%nat.
Proof.
  induction ls as [|layer ls IH]; [cbn; lia|].
  cbn [flat_map]. rewrite length_app.
  change (undecodable loadImage (layer :: ls))
    with (undecodable loadImage ([layer] ++ ls)).
  rewrite undecodable_app, length_app.
  unfold layerOps at 1. unfold undecodable at 1. cbn [List.filter].
  destruct (loadImage (layer_url layer)) as [img|]; cbn [length].
  - pose proof (placedOps_length cw ch img (layout layer)).
    rewrite bool_decide_eq_true_2 by eauto. cbn [negb length]. lia.
  - rewrite bool_decide_eq_false_2 by (intros [? ?]; discriminate).
    cbn [negb length]. lia.
Qed.

End Decoder.

(** The console of a composition: the warnings of the layers that did not
    decode. *)
Lemma composeImage_console
    (loadImage : string -> option Image) (imageUrl : string) (baseImg : Image)
    (baseLayout : Layout) (ls : list Layer) (c : Canvas) :
  loadImage imageUrl = Some baseImg ->
  composeImage loadImage true imageUrl baseLayout ls = inr c ->
  console c = (layer_id <$> undecodable loadImage ls).
Proof.
  intros Hbase Hc.
  unfold composeImage in Hc. cbn [negb] in Hc. rewrite Hbase in Hc.
  injection Hc as <-. rewrite layers_loop_console.
  unfold drawWithLayout.
  now destruct (drawImage_dims blank baseImg
                  (placement (canvas_width blank) (canvas_height blank) baseImg baseLayout))
    as (_ & _ & _ & ->).
Qed.

(** X1. When the base image decodes, [composeImage] returns a 1280 x 720
    canvas filled with black whose console holds exactly the ids of the
    layers that did not decode, in layer order, and which has at most one
    draw operation for the base and one for each layer that decoded. *)
Theorem composeImage_reports_skipped_layers
    (loadImage : string -> option Image) (imageUrl : string) (baseImg : Image)
    (baseLayout : Layout) (ls : list Layer) :
  loadImage imageUrl = Some baseImg ->
  exists c,
    composeImage loadImage true imageUrl baseLayout ls = inr c
    /\ canvas_width c = 1280
    /\ canvas_height c = 720
    /\ fillStyle c = "#000000"
    /\ console c = (layer_id <$> undecodable loadImage ls)
    /\ (length (ops c) <= 1 + (length ls - length (undecodable loadImage ls)))%nat.
Proof.
  intros Hbase.
  destruct (composeImage_raster loadImage imageUrl baseImg baseLayout ls Hbase)
    as (c & Hc & Hr).
  exists c. split; [exact Hc|].
  pose proof (composeImage_console loadImage imageUrl baseImg baseLayout ls c Hbase Hc)
    as Hcon.
  unfold raster in Hr. injection Hr as Hw Hh Hf Hops.
  do 4 (split; [assumption|]).
  rewrite Hops, length_app.
  pose proof (placedOps_length 1280 720 baseImg baseLayout).
  pose proof (layerOps_length loadImage 1280 720 ls). lia.
Qed.

(** X2. Layers are painted in list order on top of what is there: composing
    with further layers at the end of the list keeps the draw operations of
    the shorter composition as a prefix and only adds those of the further
    layers after them. *)
Theorem composeImage_appends_later_layers
    (loadImage : string -> option Image) (imageUrl : string) (baseImg : Image)
    (baseLayout : Layout) (ls more : list Layer) :
  loadImage imageUrl = Some baseImg ->
  exists c c',
    composeImage loadImage true imageUrl baseLayout ls = inr c
    /\ composeImage loadImage true imageUrl baseLayout (ls ++ more) = inr c'
    /\ ops c' = ops c ++ flat_map (layerOps loadImage 1280 720) more
    /\ console c' = console c ++ (layer_id <$> undecodable loadImage more).
Proof.
  intros Hbase.
  destruct (composeImage_raster loadImage imageUrl baseImg baseLayout ls Hbase)
    as (c & Hc & Hr).
  destruct (composeImage_raster loadImage imageUrl baseImg baseLayout (ls ++ more) Hbase)
    as (c' & Hc' & Hr').
  pose proof (composeImage_console loadImage imageUrl baseImg baseLayout ls c Hbase Hc)
    as Hcon.
  pose proof (composeImage_console loadImage imageUrl baseImg baseLayout (ls ++ more) c'
                Hbase Hc') as Hcon'.
  exists c, c'. split; [exact Hc|]. split; [exact Hc'|].
  unfold raster in Hr, Hr'. injection Hr as _ _ _ Hops. injection Hr' as _ _ _ Hops'.
  split.
  - rewrite Hops', Hops, flat_map_app, app_assoc. reflexivity.
  - rewrite Hcon', Hcon, undecodable_app, fmap_app. reflexivity.
Qed.

End ComposeProofs.

(* ===================================================================== *)
(** ** Properties of the remote image service *)
(* ===================================================================== *)

Module ServiceProofs.

Import App GeminiService Vocabulary.

Lemma find_first {A : Type} (f : A -> bool) (l : list A) (x : A) :
  List.find f l = Some x
  <-> exists pre post,
        l = pre ++ x :: post /\ f x = true /\ Forall (fun y => f y = false) pre.
Proof.
  split.
  - induction l as [|y l IH]; cbn; [discriminate|].
    destruct (f y) eqn:Hy.
    + intros [= <-]. exists [], l. auto.
    + intros Hfind. destruct (IH Hfind) as (pre & post & -> & Hx & Hpre).
      exists (y :: pre), post. auto.
  - intros (pre & post & -> & Hx & Hpre).
    induction Hpre as [|y pre Hy _ IH]; cbn.
    + now rewrite Hx.
    + now rewrite Hy.
Qed.

Lemma find_none {A : Type} (f : A -> bool) (l : list A) :
  List.find f l = None <-> Forall (fun y => f y = false) l.
Proof.
  induction l as [|y l IH]; cbn.
  - split; auto.
  - destruct (f y) eqn:Hy.
    + split; [discriminate|]. intros H. inversion H; congruence.
    + rewrite IH. split; [auto|]. intros H. now inversion H.
Qed.

Lemma has_inline part :
  bool_decide (is_Some (inlineData part)) = false <-> inlineData part = None.
Proof.
  destruct (inlineData part) as [d|].
  - rewrite bool_decide_eq_true_2 by eauto. split; discriminate.
  - rewrite bool_decide_eq_false_2 by (intros [? ?]; discriminate). tauto.
Qed.

(** What [firstImage] answers, case by case. *)
Lemma firstImage_cases mime noCandidate noImage response :
  match candidates response ≫= head with
  | None => firstImage mime noCandidate noImage response = inl (Thrown noCandidate)
  | Some candidate =>
      match parts candidate with
      | None => firstImage mime noCandidate noImage response = inl NotIterable
      | Some ps =>
          (Forall (fun part => inlineData part = None) ps
           /\ firstImage mime noCandidate noImage response = inl (Thrown noImage))
          \/ (exists pre d t post,
                ps = pre ++ mkPart (Some d) t :: post
                /\ Forall (fun part => inlineData part = None) pre
                /\ firstImage mime noCandidate noImage response
                   = inr (dataUrl mime (default "undefined" d)))
      end
  end.
Proof.
  unfold firstImage.
  destruct (candidates response ≫= head) as [candidate|]; [|reflexivity].
  destruct (parts candidate) as [ps|]; [|reflexivity].
  destruct (List.find _ ps) as [part|] eqn:Hfind.
  - right. apply find_first in Hfind.
    destruct Hfind as (pre & post & -> & Hpart & Hpre).
    destruct part as [[d|] t];
      [|rewrite bool_decide_eq_false_2 in Hpart by (intros [? ?]; discriminate);
        discriminate].
    exists pre, d, t, post. split; [reflexivity|]. split; [|reflexivity].
    eapply Forall_impl; [exact Hpre|]. intros q Hq. now apply has_inline.
  - left. apply find_none in Hfind. split; [|reflexivity].
    eapply Forall_impl; [exact Hfind|]. intros q Hq. now apply has_inline.
Qed.

(** X3. [editImage] answers with a data URL exactly when the call returns
    and the first candidate has a part with inline data: the URL is built
    from the first such part of the first candidate and the requested mime
    type, whatever the other parts and candidates hold. Without a
    candidate, and with a first candidate without inline data, it throws
    its two messages. *)
Theorem editImage_takes_first_inline_part
    (generateContent : Request -> option Response)
    (base64Image prompt : string) (mimeType : option string) :
  let mime := default "image/png" mimeType in
  let request :=
    mkRequest "gemini-2.5-flash-image" (Some (payload base64Image, mime))
              (trim (editTemplate prompt)) "16:9" in
  (forall response c rest pre d t post,
      generateContent request = Some response ->
      candidates response = Some (c :: rest) ->
      parts c = Some (pre ++ mkPart (Some d) t :: post) ->
      Forall (fun part => inlineData part = None) pre ->
      editImage generateContent base64Image prompt mimeType
      = inr (dataUrl mime (default "undefined" d)))
  /\ (forall response,
        generateContent request = Some response ->
        candidates response ≫= head = None ->
        editImage generateContent base64Image prompt mimeType
        = inl (Thrown "The AI engine failed to return a result."))
  /\ (forall response c rest ps,
        generateContent request = Some response ->
        candidates response = Some (c :: rest) ->
        parts c = Some ps ->
        Forall (fun part => inlineData part = None) ps ->
        editImage generateContent base64Image prompt mimeType
        = inl (Thrown "No image data found. The generation might have been filtered or failed."))
  /\ (forall u,
        editImage generateContent base64Image prompt mimeType = inr u ->
        exists response c rest pre d t post,
          generateContent request = Some response
          /\ candidates response = Some (c :: rest)
          /\ parts c = Some (pre ++ mkPart (Some d) t :: post)
          /\ Forall (fun part => inlineData part = None) pre
          /\ u = dataUrl mime (default "undefined" d)).
Proof.
  intros mime request. unfold editImage. fold mime. fold request.
  split; [|split; [|split]].
  - intros response c rest pre d t post -> Hc Hps Hpre.
    unfold firstImage. rewrite Hc. cbn [mbind option_bind head]. rewrite Hps.
    assert (Hfind : List.find (fun part => bool_decide (is_Some (inlineData part)))
                      (pre ++ mkPart (Some d) t :: post) = Some (mkPart (Some d) t)).
    { apply find_first. exists pre, post. split; [reflexivity|].
      split; [apply bool_decide_eq_true_2; cbn; eauto|].
      eapply Forall_impl; [exact Hpre|]. intros q Hq. now apply has_inline. }
    rewrite Hfind. reflexivity.
  - intros response -> Hnone. unfold firstImage. now rewrite Hnone.
  - intros response c rest ps -> Hc Hps Hall.
    unfold firstImage. rewrite Hc. cbn [mbind option_bind head]. rewrite Hps.
    assert (Hfind : List.find (fun part => bool_decide (is_Some (inlineData part))) ps = None).
    { apply find_none. eapply Forall_impl; [exact Hall|].
      intros q Hq. now apply has_inline. }
    now rewrite Hfind.
  - intros u. destruct (generateContent request) as [response|]; [|discriminate].
    pose proof (firstImage_cases mime "The AI engine failed to return a result."
                  "No image data found. The generation might have been filtered or failed."
                  response) as Hcases.
    destruct (candidates response) as [[|c rest]|] eqn:Hc; cbn in Hcases;
      try (rewrite Hcases; discriminate).
    destruct (parts c) as [ps|] eqn:Hps; [|rewrite Hcases; discriminate].
    destruct Hcases as [[_ Herr] | (pre & d & t & post & -> & Hpre & Hok)];
      [rewrite Herr; discriminate|].
    rewrite Hok. intros [= <-].
    exists response, c, rest, pre, d, t, post. auto.
Qed.

Lemma splitOn_cons sep s : exists h t, splitOn sep s = h :: t.
Proof.
  induction s as [|c s (h & t & IH)]; cbn; [eauto|].
  destruct (Ascii.eqb c sep); [eauto|]. rewrite IH. eauto.
Qed.

Lemma splitOn_without sep s : occurs sep s = false -> splitOn sep s = [s].
Proof.
  induction s as [|c s IH]; cbn; [reflexivity|].
  destruct (Ascii.eqb c sep); cbn; [discriminate|].
  intros Hs. now rewrite (IH Hs).
Qed.

Lemma append_nil (b : string) : "" +:+ b = b.
Proof. reflexivity. Qed.

Lemma append_cons (c : Ascii.ascii) (a b : string) :
  String c a +:+ b = String c (a +:+ b).
Proof. reflexivity. Qed.

Lemma splitOn_at sep a b :
  occurs sep a = false -> splitOn sep (a +:+ String sep b) = a :: splitOn sep b.
Proof.
  induction a as [|c a IH]; cbn [occurs].
  - intros _. rewrite append_nil. cbn [splitOn]. now rewrite Ascii.eqb_refl.
  - rewrite append_cons. cbn [splitOn].
    destruct (Ascii.eqb c sep); cbn [orb]; [discriminate|].
    intros Ha. now rewrite (IH Ha).
Qed.

Lemma occurs_app c a b : occurs c (a +:+ b) = occurs c a || occurs c b.
Proof.
  induction a as [|c' a IH]; [reflexivity|].
  rewrite append_cons. cbn [occurs]. now rewrite IH, orb_assoc.
Qed.

Lemma app_assoc_string (a b c : string) : (a +:+ b) +:+ c = a +:+ (b +:+ c).
Proof.
  induction a as [|x a IH]; [reflexivity|].
  rewrite !append_cons. now rewrite IH.
Qed.

(** X4. What [editImage] sends as image data: of a data URL whose mime type
    and data hold no comma it is the data alone, unless the data is empty,
    in which case it is the whole URL; a string without comma, such as bare
    base64, is sent as it is. In particular the URL that [editImage]
    returns for a part gives back the data of that part. *)
Theorem payload_of_data_url (mime data bare : string) :
  (occurs "," mime = false ->
   occurs "," data = false ->
   payload (dataUrl mime data) = orElse data (dataUrl mime data))
  /\ (occurs "," mime = false ->
      occurs "," data = false ->
      data <> "" ->
      payload (dataUrl mime data) = data)
  /\ (occurs "," bare = false -> payload bare = bare).
Proof.
  assert (Hsplit : occurs "," mime = false -> occurs "," data = false ->
                   splitOn "," (dataUrl mime data)
                   = [("data:" +:+ mime +:+ ";base64"); data]).
  { intros Hm Hd. unfold dataUrl.
    replace ("data:" +:+ mime +:+ ";base64," +:+ data)
      with (("data:" +:+ mime +:+ ";base64") +:+ String "," data).
    - rewrite splitOn_at.
      + now rewrite (splitOn_without "," data Hd).
      + rewrite !occurs_app, Hm. reflexivity.
    - rewrite !app_assoc_string. reflexivity. }
  split; [|split].
  - intros Hm Hd. unfold payload. now rewrite (Hsplit Hm Hd).
  - intros Hm Hd Hne. unfold payload. rewrite (Hsplit Hm Hd). cbn.
    unfold orElse. destruct (String.eqb data "") eqn:E; [|reflexivity].
    apply String.eqb_eq in E. contradiction.
  - intros Hb. unfold payload. now rewrite (splitOn_without "," bare Hb).
Qed.

End ServiceProofs.

(* ===================================================================== *)
(** ** Properties of layers and layouts in the session *)
(* ===================================================================== *)

Module LayerProofs.

Import ImageUtils App Editor Spec Vocabulary HistoryProofs.

Lemma find_map_layer (g : Layer -> Layer) (a : string) (ls : list Layer) :
  (forall l, layer_id (g l) = layer_id l) ->
  List.find (fun l => String.eqb (layer_id l) a) (List.map g ls)
  = option_map g (List.find (fun l => String.eqb (layer_id l) a) ls).
Proof.
  intros Hid. induction ls as [|l ls IH]; cbn; [reflexivity|].
  rewrite Hid. destruct (String.eqb (layer_id l) a); [reflexivity | exact IH].
Qed.

Lemma find_layer_none (a : string) (ls : list Layer) :
  ~ Exists (fun l => layer_id l = a) ls ->
  List.find (fun l => String.eqb (layer_id l) a) ls = None.
Proof.
  intros Hno. induction ls as [|l ls IH]; cbn; [reflexivity|].
  destruct (String.eqb (layer_id l) a) eqn:E.
  - exfalso. apply Hno. left. now apply String.eqb_eq.
  - apply IH. intros H. apply Hno. now right.
Qed.

Lemma find_layer_some (a : string) (ls : list Layer) :
  Exists (fun l => layer_id l = a) ls ->
  exists l, List.find (fun l => String.eqb (layer_id l) a) ls = Some l.
Proof.
  induction 1 as [l ls Hl | l ls _ IH]; cbn.
  - exists l. apply String.eqb_eq in Hl. now rewrite Hl.
  - destruct (String.eqb (layer_id l) a); eauto.
Qed.

(** After [addToHistory] from the live session the new version is the
    current one. *)
Lemma addToHistory_spec_current s u p ls cbl newId now :
  -1 <= currentIdx s <= Z.of_nat (length (history s)) - 1 ->
  currentVersion (addToHistory s u p ls cbl newId now s)
  = Some (newVersion s u p ls cbl newId now)
  /\ currentIdx (addToHistory s u p ls cbl newId now s) = currentIdx s + 1.
Proof.
  intros Hidx.
  destruct (addToHistory_spec s u p ls cbl newId now s Hidx) as [Hh Hi].
  split; [|exact Hi].
  apply currentVersion_lookup; [lia|].
  rewrite Hi, Hh.
  rewrite lookup_app_r by (rewrite length_take; lia).
  rewrite length_take.
  replace (Z.to_nat (currentIdx s + 1)
           - Z.to_nat (currentIdx s + 1) `min` length (history s))%nat
    with 0%nat by lia.
  reflexivity.
Qed.

Lemma nullish_getField_setField k v l : nullish (getField k (setField k v l)) (sliderDefault k) = v.
Proof. now rewrite getField_setField_eq. Qed.

(** The current version after a layout tweak on a layer. *)
Lemma updateActiveTransform_layer_version s key value cv :
  currentVersion s = Some cv ->
  activeLayerId s <> "base" ->
  currentVersion (updateActiveTransform key value s)
  = Some (mkVersion (version_id cv) (url cv)
            (List.map (fun l =>
                    if String.eqb (layer_id l) (activeLayerId s)
                    then mkLayer (layer_id l) (layer_url l)
                                 (setField key value (layout l)) (layer_name l)
                    else l) (layers cv))
            (version_baseLayout cv) (version_prompt cv) (timestamp cv)).
Proof.
  intros Hcv Hb. destruct (currentVersion_Some s cv Hcv) as [Hidx Hl].
  unfold updateActiveTransform. rewrite Hcv.
  apply String.eqb_neq in Hb. rewrite Hb.
  apply currentVersion_lookup; [cbn; lia|].
  cbn [history currentIdx setHistory].
  apply list_lookup_insert_eq. lia.
Qed.

(** X5. After a slider is moved, the slider shows the value it was moved
    to and the other sliders show what they showed, both on the base and
    on a layer that the current version has. When the active layer id is
    carried by no layer of the current version, the sliders keep showing
    the defaults: the value is written nowhere. *)
Theorem slider_shows_what_was_set s key value cv :
  currentVersion s = Some cv ->
  let s' := updateActiveTransform key value s in
  (activeLayerId s = "base" \/ hasLayer (activeLayerId s) cv ->
   sliderValue key s' = value
   /\ forall k, k <> key -> sliderValue k s' = sliderValue k s)
  /\ (activeLayerId s <> "base" -> ~ hasLayer (activeLayerId s) cv ->
      forall k, sliderValue k s' = sliderDefault k /\ sliderValue k s = sliderDefault k).
Proof.
  intros Hcv s'.
  destruct (String.eqb (activeLayerId s) "base") eqn:Eb.
  - apply String.eqb_eq in Eb. split; [|intros Hne; contradiction].
    intros _.
    assert (Hlay : currentActiveLayout s' = setField key value (baseLayout s)
                   /\ currentActiveLayout s = baseLayout s).
    { subst s'. unfold currentActiveLayout, updateActiveTransform.
      rewrite Hcv, Eb. cbn. rewrite Eb. cbn. auto. }
    destruct Hlay as [Hl' Hl]. unfold sliderValue. rewrite Hl', Hl.
    split; [apply nullish_getField_setField|].
    intros k Hk. now rewrite getField_setField_ne.
  - apply String.eqb_neq in Eb.
    pose proof (updateActiveTransform_layer_version s key value cv Hcv Eb) as Hcv'.
    fold s' in Hcv'.
    assert (Hact : activeLayerId s' = activeLayerId s).
    { subst s'. unfold updateActiveTransform. rewrite Hcv.
      apply String.eqb_neq in Eb. now rewrite Eb. }
    assert (Hcur : forall t (cvt : ThumbnailVersion),
               currentVersion t = Some cvt -> activeLayerId t = activeLayerId s ->
               currentActiveLayout t
               = default DEFAULT_LAYOUT
                   (layout <$> List.find
                      (fun l => String.eqb (layer_id l) (activeLayerId s)) (layers cvt))).
    { intros t cvt Ht Ha. unfold currentActiveLayout. rewrite Ha, Ht.
      apply String.eqb_neq in Eb. now rewrite Eb. }
    unfold sliderValue.
    rewrite (Hcur s' _ Hcv' Hact), (Hcur s cv Hcv eq_refl).
    cbn [layers]. rewrite find_map_layer
      by (intros l; now destruct (String.eqb (layer_id l) (activeLayerId s))).
    split.
    + intros [Hbase | Hhas]; [contradiction|].
      destruct (find_layer_some _ _ Hhas) as (l & Hfind).
      pose proof Hfind as Hid. apply List.find_some in Hid. destruct Hid as [_ Hid].
      rewrite Hfind. cbn [option_map fmap option_fmap default from_option id].
      rewrite Hid. cbn [layout].
      split; [apply nullish_getField_setField|].
      intros k Hk. now rewrite getField_setField_ne.
    + intros _ Hno. rewrite (find_layer_none _ _ Hno). cbn. intros k.
      split; destruct k; reflexivity.
Qed.

(** X6. Removing a layer makes the version without it current: the new
    version has the base image of the old one and its layers in their
    order, less every layer that carries the id, so that no layer with the
    id is left; the selection falls back to the base when the removed
    layer was selected and stays otherwise. *)
Theorem removeLayer_leaves_no_such_layer s id newId now cv :
  currentVersion s = Some cv ->
  let s' := removeLayer id newId now s in
  exists v,
    currentVersion s' = Some v
    /\ url v = url cv
    /\ version_baseLayout v = baseLayout s
    /\ layers v = List.filter (fun l => negb (String.eqb (layer_id l) id)) (layers cv)
    /\ ~ hasLayer id v
    /\ (forall l, In l (layers cv) -> layer_id l <> id -> In l (layers v))
    /\ currentIdx s' = currentIdx s + 1
    /\ activeLayerId s' = (if String.eqb (activeLayerId s) id then "base" else activeLayerId s).
Proof.
  intros Hcv s'.
  destruct (currentVersion_Some s cv Hcv) as [Hidx _].
  set (ls := List.filter (fun l => negb (String.eqb (layer_id l) id)) (layers cv)).
  destruct (addToHistory_spec_current s (url cv) (Some "Removed Layer") ls None newId now)
    as (Hcur & Hi); [lia|].
  exists (newVersion s (url cv) (Some "Removed Layer") ls None newId now).
  assert (Hs' : currentVersion s' = currentVersion
                  (addToHistory s (url cv) (Some "Removed Layer") ls None newId now s)
                /\ currentIdx s' = currentIdx s + 1
                /\ activeLayerId s'
                   = (if String.eqb (activeLayerId s) id then "base" else activeLayerId s)).
  { subst s'. unfold removeLayer. rewrite Hcv. fold ls.
    destruct (String.eqb (activeLayerId s) id); cbn; rewrite ?Hi; auto. }
  destruct Hs' as (Hc' & Hi' & Ha'). rewrite Hc', Hcur.
  split; [reflexivity|]. do 3 (split; [reflexivity|]).
  split.
  - unfold hasLayer. cbn [layers newVersion]. intros Hex.
    apply Exists_exists in Hex. destruct Hex as (l & Hin & Hid).
    apply list_elem_of_In, filter_In in Hin. destruct Hin as [_ Hne].
    apply String.eqb_eq in Hid. rewrite Hid in Hne. discriminate.
  - split; [|auto]. intros l Hin Hne. cbn [layers newVersion]. apply filter_In.
    split; [exact Hin|]. apply String.eqb_neq in Hne. now rewrite Hne.
Qed.

End LayerProofs.

(* ===================================================================== *)
(** ** Properties of imports *)
(* ===================================================================== *)

Module ImportProofs.

Import ImageUtils App Editor Spec Vocabulary HistoryProofs LayerProofs.

Lemma filter_fresh_layer (ls : list Layer) (l : Layer) :
  ~ Exists (fun x => layer_id x = layer_id l) ls ->
  List.filter (fun x => negb (String.eqb (layer_id x) (layer_id l))) (ls ++ [l]) = ls.
Proof.
  intros Hfresh. rewrite List.filter_app. cbn [List.filter].
  rewrite String.eqb_refl. cbn [negb]. rewrite app_nil_r.
  apply filter_all_kept. apply Forall_forall. intros x Hx.
  destruct (String.eqb (layer_id x) (layer_id l)) eqn:E; [|reflexivity].
  exfalso. apply Hfresh. apply Exists_exists. exists x.
  split; [exact Hx | now apply String.eqb_eq].
Qed.

Lemma pointed_range s :
  pointed s -> -1 <= currentIdx s <= Z.of_nat (length (history s)) - 1.
Proof. unfold pointed. destruct (history s); cbn [length]; lia. Qed.

Lemma currentVersion_range s v :
  currentVersion s = Some v -> -1 <= currentIdx s <= Z.of_nat (length (history s)) - 1.
Proof. intros H. destruct (currentVersion_Some s v H). lia. Qed.

Lemma syncBaseLayout_frame s :
  history (syncBaseLayout s) = history s
  /\ currentIdx (syncBaseLayout s) = currentIdx s
  /\ currentVersion (syncBaseLayout s) = currentVersion s
  /\ activeLayerId (syncBaseLayout s) = activeLayerId s
  /\ projects (syncBaseLayout s) = projects s
  /\ activeProjectId (syncBaseLayout s) = activeProjectId s
  /\ editMode (syncBaseLayout s) = editMode s.
Proof.
  unfold syncBaseLayout. destruct (currentVersion s) eqn:E.
  - cbn [history currentIdx activeLayerId projects activeProjectId editMode setBaseLayout].
    do 2 (split; [reflexivity|]). split; [|repeat split].
    unfold currentVersion in *. exact E.
  - repeat split. exact E.
Qed.

(** The session after a layer upload that ran in the render of its
    click. *)
Lemma layer_upload_settled s cv b layerId newId now :
  currentVersion s = Some cv ->
  let s1 := syncBaseLayout (handleLayerUpload_settle (Some b) s cv layerId newId now s) in
  currentVersion s1
  = Some (newVersion s (url cv) (Some "Added Image Layer")
            (layers cv ++ [uploadedLayer cv layerId b]) None newId now)
  /\ currentIdx s1 = currentIdx s + 1
  /\ activeLayerId s1 = layerId
  /\ editMode s1 = transform
  /\ isProcessing s1 = false
  /\ baseLayout s1 = baseLayout s.
Proof.
  intros Hcv s1.
  pose proof (currentVersion_range s cv Hcv) as Hr.
  destruct (addToHistory_spec_current s (url cv) (Some "Added Image Layer")
              (layers cv ++ [uploadedLayer cv layerId b]) None newId now Hr)
    as (Hcur & Hi).
  assert (Hc0 : currentVersion (handleLayerUpload_settle (Some b) s cv layerId newId now s)
                = Some (newVersion s (url cv) (Some "Added Image Layer")
                          (layers cv ++ [uploadedLayer cv layerId b]) None newId now))
    by exact Hcur.
  destruct (syncBaseLayout_frame (handleLayerUpload_settle (Some b) s cv layerId newId now s))
    as (_ & Hsi & Hsc & Hsa & _ & _ & Hsm).
  subst s1. rewrite Hsc, Hsi, Hsa, Hsm.
  split; [exact Hc0|]. split; [exact Hi|].
  do 2 (split; [reflexivity|]).
  unfold syncBaseLayout. rewrite Hc0. split; reflexivity.
Qed.

(** Removing the last layer of the current version, whose id no other
    layer carries, while it is selected. *)
Lemma remove_selected_last_layer s1 added ls l newId now :
  currentVersion s1 = Some added ->
  layers added = ls ++ [l] ->
  ~ Exists (fun x => layer_id x = layer_id l) ls ->
  activeLayerId s1 = layer_id l ->
  let s2 := removeLayer (layer_id l) newId now s1 in
  currentVersion s2
  = Some (newVersion s1 (url added) (Some "Removed Layer") ls None newId now)
  /\ currentIdx s2 = currentIdx s1 + 1
  /\ Z.of_nat (length (history s2)) = currentIdx s1 + 2
  /\ activeLayerId s2 = "base".
Proof.
  intros Hc1 Hla Hfresh Ha1 s2.
  pose proof (currentVersion_range s1 added Hc1) as Hr1.
  destruct (addToHistory_spec_current s1 (url added) (Some "Removed Layer")
              ls None newId now Hr1) as (Hcur2 & Hi2).
  destruct (addToHistory_spec s1 (url added) (Some "Removed Layer")
              ls None newId now s1 Hr1) as (Hh2 & _).
  assert (Hs2 : s2 = setActiveLayerId "base"
                       (addToHistory s1 (url added) (Some "Removed Layer")
                          ls None newId now s1)).
  { subst s2. unfold removeLayer.
    rewrite Hc1, Hla, (filter_fresh_layer ls l Hfresh), Ha1.
    now rewrite String.eqb_refl. }
  rewrite Hs2.
  split; [exact Hcur2|].
  cbn [currentIdx history activeLayerId setActiveLayerId].
  split; [exact Hi2|]. split; [|reflexivity].
  rewrite Hh2, length_app, length_take. cbn [length]. lia.
Qed.

(** X7. A layer that was imported from a file and is removed again leaves
    the layers as they were: the upload makes a version with the new layer
    at the end of the list, at half scale, selected, in transform mode and
    over the same base image; removing that layer, whose id no other layer
    carries, makes a version with the old layer list over the same base
    image, two positions after the old one, with the base selected. *)
Theorem upload_then_remove_restores_layers s cv b layerId v1 t1 v2 t2 :
  currentVersion s = Some cv ->
  ~ hasLayer layerId cv ->
  let s1 := syncBaseLayout (handleLayerUpload_settle (Some b) s cv layerId v1 t1 s) in
  let s2 := removeLayer layerId v2 t2 s1 in
  (exists added,
      currentVersion s1 = Some added
      /\ url added = url cv
      /\ layers added = layers cv ++ [uploadedLayer cv layerId b]
      /\ layout (uploadedLayer cv layerId b) = setField KScale (Fin (1 # 2)) DEFAULT_LAYOUT
      /\ activeLayerId s1 = layerId
      /\ editMode s1 = transform
      /\ isProcessing s1 = false)
  /\ (exists removed,
        currentVersion s2 = Some removed
        /\ url removed = url cv
        /\ layers removed = layers cv
        /\ version_baseLayout removed = baseLayout s
        /\ currentIdx s2 = currentIdx s + 2
        /\ Z.of_nat (length (history s2)) = currentIdx s + 3
        /\ activeLayerId s2 = "base").
Proof.
  intros Hcv Hfresh.
  destruct (layer_upload_settled s cv b layerId v1 t1 Hcv)
    as (Hc1 & Hi1 & Ha1 & Hm1 & Hp1 & Hb1).
  intros s1 s2.
  change (syncBaseLayout (handleLayerUpload_settle (Some b) s cv layerId v1 t1 s))
    with s1 in Hc1, Hi1, Ha1, Hm1, Hp1, Hb1.
  clearbody s1.
  split.
  - eexists. split; [exact Hc1|]. do 3 (split; [reflexivity|]). auto.
  - destruct (remove_selected_last_layer s1 _ (layers cv) (uploadedLayer cv layerId b)
                v2 t2 Hc1 eq_refl Hfresh Ha1) as (Hc2 & Hi2 & Hl2 & Ha2).
    change (removeLayer (layer_id (uploadedLayer cv layerId b)) v2 t2 s1)
      with s2 in Hc2, Hi2, Hl2, Ha2.
    clearbody s2.
    eexists. split; [exact Hc2|]. do 2 (split; [reflexivity|]).
    split; [exact Hb1|]. split; [lia|]. split; [lia | exact Ha2].
Qed.

(** X8. [confirmCapture] without a captured frame does nothing. With one,
    the modal is closed and the frame dropped from it, and the frame
    becomes a layer named [Camera Shot] at the end of the current
    version's layers when the target is a layer and there is a current
    version; in every other case, a layer target without a version
    included, it becomes the base of a new version without layers and
    with the default layout. *)
Theorem confirmCapture_routes_frame layerId newId now s k :
  (truthy (capturedImage k) = false -> confirmCapture layerId newId now (s, k) = (s, k))
  /\ (forall img,
        capturedImage k = Some img ->
        img <> "" ->
        pointed s ->
        let s' := fst (confirmCapture layerId newId now (s, k)) in
        let k' := snd (confirmCapture layerId newId now (s, k)) in
        k' = setCapturedImage None (setIsImportModalOpen false (setIsCameraActive false k))
        /\ videoMounted k' = false
        /\ (forall cv,
              importTarget k = TargetLayer ->
              currentVersion s = Some cv ->
              currentVersion s'
              = Some (mkVersion newId (url cv)
                        (layers cv ++ [importedLayer layerId img "Camera Shot"])
                        (baseLayout s) (Some "Camera Layer") now)
              /\ activeLayerId s' = layerId)
        /\ (importTarget k = TargetBase \/ currentVersion s = None ->
            currentVersion s'
            = Some (mkVersion newId img [] DEFAULT_LAYOUT (Some "Camera Base") now)
            /\ activeLayerId s' = activeLayerId s)).
Proof.
  split.
  - intros Hno. unfold confirmCapture. rewrite Hno. reflexivity.
  - intros img Himg Hne Hp s' k'.
    pose proof (pointed_range s Hp) as Hr.
    assert (Ht : truthy (capturedImage k) = true).
    { rewrite Himg. cbn. destruct (String.eqb img "") eqn:E; [|reflexivity].
      apply String.eqb_eq in E. contradiction. }
    subst s' k'. unfold confirmCapture. rewrite Ht, Himg.
    cbn [fst snd].
    split; [reflexivity|].
    split; [unfold videoMounted; cbn; reflexivity|].
    split.
    + intros cv Htarget Hcv. rewrite Htarget, Hcv.
      destruct (addToHistory_spec_current s (url cv) (Some "Camera Layer")
                  (layers cv ++ [importedLayer layerId img "Camera Shot"]) None
                  newId now Hr) as (Hcur & _).
      split; [exact Hcur | reflexivity].
    + intros Hcase.
      destruct (addToHistory_spec_current s img (Some "Camera Base") []
                  (Some DEFAULT_LAYOUT) newId now Hr) as (Hcur & _).
      destruct Hcase as [Hb | Hn].
      * rewrite Hb. split; [exact Hcur | reflexivity].
      * rewrite Hn. destruct (importTarget k); split; (exact Hcur || reflexivity).
Qed.

End ImportProofs.

(* ===================================================================== *)
(** ** Properties of the project list *)
(* ===================================================================== *)

Module LibraryProofs.

Import ImageUtils App Editor Spec Vocabulary HistoryProofs ProjectProofs ImportProofs.

Lemma last_lookup_Z {A : Type} (l : list A) :
  l !! Z.to_nat (Z.of_nat (length l) - 1) = last l \/ l = [].
Proof.
  destruct l as [|x l]; [now right|]. left.
  rewrite last_lookup. f_equal. cbn [length]. lia.
Qed.

(** The session after [loadProject]. *)
Lemma loadProject_spec project s :
  let s' := loadProject project s in
  history s' = revisionStack project
  /\ currentIdx s' = Z.of_nat (length (revisionStack project)) - 1
  /\ currentVersion s' = last (revisionStack project)
  /\ baseLayout s' = default DEFAULT_LAYOUT (version_baseLayout <$> last (revisionStack project))
  /\ activeProjectId s' = Some (project_id project)
  /\ activeLayerId s' = "base"
  /\ projects s' = projects s.
Proof.
  intros s'. subst s'. unfold loadProject.
  cbn [history currentIdx baseLayout activeProjectId activeLayerId projects
       setActiveLayerId setBaseLayout setCurrentIdx setHistory setActiveProjectId].
  do 2 (split; [reflexivity|]). split; [|repeat split].
  unfold currentVersion.
  cbn [history currentIdx setActiveLayerId setBaseLayout setCurrentIdx setHistory
       setActiveProjectId].
  destruct (revisionStack project) as [|v vs] eqn:E; [reflexivity|].
  rewrite <- E.
  assert (Hlen : (0 < length (revisionStack project))%nat) by (rewrite E; cbn; lia).
  destruct (0 <=? Z.of_nat (length (revisionStack project)) - 1) eqn:E0;
    [|apply Z.leb_gt in E0; lia].
  destruct (Z.of_nat (length (revisionStack project)) - 1
            <? Z.of_nat (length (revisionStack project))) eqn:E1;
    [|apply Z.ltb_ge in E1; lia].
  cbn [andb].
  destruct (last_lookup_Z (revisionStack project)) as [H|H]; [exact H|].
  rewrite H in E. discriminate.
Qed.

Lemma loadProject_lands_on_last_version_aux project s :
  pointed (loadProject project s) /\ synced (loadProject project s).
Proof.
  destruct (loadProject_spec project s) as (Hh & Hi & Hc & Hb & _).
  split.
  - unfold pointed. rewrite Hh, Hi.
    destruct (revisionStack project); cbn [length]; lia.
  - intros v Hv. rewrite Hb. rewrite Hc in Hv. now rewrite Hv.
Qed.

(** X9. Opening a project puts its revision stack in place of the history
    and makes the last version current, whichever version was current when
    the project was saved; the session's base layout is that of this
    version at once, the base is selected and the project is the active
    one. A project with an empty stack leaves no current version and the
    default layout. *)
Theorem loadProject_lands_on_last_version project s :
  let s' := loadProject project s in
  history s' = revisionStack project
  /\ currentVersion s' = last (revisionStack project)
  /\ pointed s'
  /\ synced s'
  /\ activeProjectId s' = Some (project_id project)
  /\ activeLayerId s' = "base"
  /\ (revisionStack project = [] ->
      currentVersion s' = None /\ baseLayout s' = DEFAULT_LAYOUT).
Proof.
  intros s'.
  destruct (loadProject_spec project s) as (Hh & Hi & Hc & Hb & Ha & Hl & Hp).
  fold s' in Hh, Hi, Hc, Hb, Ha, Hl, Hp.
  split; [exact Hh|]. split; [exact Hc|].
  split; [|split; [|split; [|split; [exact Hl|]]]].
  - unfold pointed. rewrite Hh, Hi.
    destruct (revisionStack project); cbn [length]; lia.
  - intros v Hv. rewrite Hb. rewrite Hc in Hv. rewrite Hv. reflexivity.
  - exact Ha.
  - intros Hempty. rewrite Hc, Hb, Hempty. split; reflexivity.
Qed.

(** The two branches of [storeCurrentProjectState]. *)
Lemma store_updates newId now ok s cv a :
  currentVersion s = Some cv ->
  activeProjectId s = Some a ->
  a <> "" ->
  projects (storeCurrentProjectState newId now ok s)
  = List.map (fun q => if String.eqb (project_id q) a
                       then saved q (url cv) (history s) now else q)
             (projects s)
  /\ activeProjectId (storeCurrentProjectState newId now ok s) = Some a
  /\ history (storeCurrentProjectState newId now ok s) = history s
  /\ currentIdx (storeCurrentProjectState newId now ok s) = currentIdx s.
Proof.
  intros Hcv Ha Hne. unfold storeCurrentProjectState.
  rewrite Hcv, Ha, (truthy_Some a Hne).
  match goal with
  | |- context [persistProjects ok ?x] =>
      destruct (persistProjects_frame ok x) as (-> & -> & -> & -> & _)
  end.
  cbn [projects activeProjectId history currentIdx setProjects]. rewrite Ha. auto.
Qed.

Lemma store_creates newId now ok s cv :
  currentVersion s = Some cv ->
  truthy (activeProjectId s) = false ->
  projects (storeCurrentProjectState newId now ok s)
  = mkProject newId ("Thumbnail " +:+ pretty (length (projects s) + 1)%nat)
              (url cv) now (history s) (Some [])
      :: projects s
  /\ activeProjectId (storeCurrentProjectState newId now ok s) = Some newId
  /\ history (storeCurrentProjectState newId now ok s) = history s
  /\ currentIdx (storeCurrentProjectState newId now ok s) = currentIdx s.
Proof.
  intros Hcv Ht. unfold storeCurrentProjectState. rewrite Hcv, Ht.
  destruct (activeProjectId s);
    match goal with
    | |- context [persistProjects ok ?x] =>
        destruct (persistProjects_frame ok x) as (-> & -> & -> & -> & _)
    end; repeat split.
Qed.

(** What [storeCurrentProjectState] leaves as the active project. *)
Lemma stored_active_project newId now ok s cv :
  currentVersion s = Some cv ->
  (truthy (activeProjectId s) = true -> is_Some (activeProject s)) ->
  exists p,
    activeProject (storeCurrentProjectState newId now ok s) = Some p
    /\ revisionStack p = history s
    /\ thumbnailUrl p = url cv
    /\ project_timestamp p = now.
Proof.
  intros Hcv Hfound.
  destruct (truthy (activeProjectId s)) eqn:Ht.
  - destruct (truthy_inv _ Ht) as (a & Ha & Hne).
    destruct (Hfound eq_refl) as [p Hp].
    destruct (store_updates newId now ok s cv a Hcv Ha Hne) as (Hps & Ha' & _).
    pose proof Hp as Hfind. unfold activeProject in Hfind. rewrite Ha in Hfind.
    exists (saved p (url cv) (history s) now).
    split; [|split; [|split]; reflexivity].
    unfold activeProject. rewrite Ha', Hps, find_map_same_id, Hfind.
    + cbn [option_map]. now rewrite (find_id a _ p Hfind), String.eqb_refl.
    + intros q. now destruct (String.eqb (project_id q) a).
  - destruct (store_creates newId now ok s cv Hcv Ht) as (Hps & Ha' & _).
    exists (mkProject newId ("Thumbnail " +:+ pretty (length (projects s) + 1)%nat)
              (url cv) now (history s) (Some [])).
    split; [|split; [|split]; reflexivity].
    unfold activeProject. rewrite Ha', Hps. cbn [List.find project_id].
    now rewrite String.eqb_refl.
Qed.

(** X10. A project that was saved and is opened again brings back the
    history as it was saved, with its last version current: after
    [storeCurrentProjectState] the active project holds the whole history,
    the base image of the current version as thumbnail and the timestamp
    of the save, and [loadProject] of it, from any later session, restores
    that history. The version that was current at the time of the save is
    current again only if it was the last one. *)
Theorem save_then_open_restores_history newId now ok s cv later :
  currentVersion s = Some cv ->
  (truthy (activeProjectId s) = true -> is_Some (activeProject s)) ->
  exists p,
    activeProject (storeCurrentProjectState newId now ok s) = Some p
    /\ thumbnailUrl p = url cv
    /\ project_timestamp p = now
    /\ history (loadProject p later) = history s
    /\ currentVersion (loadProject p later) = last (history s)
    /\ currentIdx (loadProject p later) = Z.of_nat (length (history s)) - 1
    /\ (currentIdx s = Z.of_nat (length (history s)) - 1 ->
        currentVersion (loadProject p later) = Some cv).
Proof.
  intros Hcv Hfound.
  destruct (stored_active_project newId now ok s cv Hcv Hfound)
    as (p & Hact & Hstack & Hthumb & Htime).
  destruct (loadProject_spec p later) as (Hh & Hi & Hc & _).
  exists p. rewrite Hh, Hi, Hc, Hstack.
  do 6 (split; [reflexivity || assumption|]).
  intros Hlast. destruct (currentVersion_Some s cv Hcv) as [Hidx Hl].
  rewrite Hlast in Hl.
  destruct (last_lookup_Z (history s)) as [H|H]; [now rewrite <- H|].
  rewrite H in Hidx. cbn in Hidx. lia.
Qed.

End LibraryProofs.

(* ===================================================================== *)
(** ** Properties of the camera countdown *)
(* ===================================================================== *)

Module CameraProofs.

Import ImageUtils App Editor Spec Vocabulary.

Lemma filter_self (h : positive) :
  List.filter (fun h' => negb (Pos.eqb h' h)) [h] = [].
Proof. cbn. now rewrite Pos.eqb_refl. Qed.

Lemma startAutoCapture_spec seconds h k :
  tracked k ->
  let k1 := startAutoCapture seconds h k in
  countdown k1 = Some seconds
  /\ running k1 = [h]
  /\ countdownInterval k1 = Some h
  /\ capturedImage k1 = capturedImage k
  /\ videoMounted k1 = videoMounted k.
Proof.
  intros Ht k1. unfold tracked in Ht. subst k1. unfold startAutoCapture.
  cbn [countdownInterval setCountdown].
  destruct (countdownInterval k) as [old|];
    cbn [clearInterval setInterval running countdown countdownInterval capturedImage
         setCountdown];
    rewrite Ht; rewrite ?filter_self; repeat split.
Qed.

(** A firing while more than one second is left. *)
Lemma tick_counts_down h frame k p :
  running k = [h] -> countdown k = Some p -> 2 <= p ->
  tick h frame k = setCountdown (Some (p - 1)) k.
Proof.
  intros Hr Hc Hp. unfold tick. rewrite Hr, Hc. cbn [existsb].
  rewrite Pos.eqb_refl. cbn [orb].
  destruct (p =? 0) eqn:E0; [apply Z.eqb_eq in E0; lia|].
  destruct (p <=? 1) eqn:E1; [apply Z.leb_le in E1; lia|].
  reflexivity.
Qed.

(** The firing at one second. *)
Lemma tick_fires h frame k :
  running k = [h] -> countdownInterval k = Some h -> countdown k = Some 1 ->
  let k' := tick h frame k in
  countdown k' = None
  /\ running k' = []
  /\ countdownInterval k' = None
  /\ capturedImage k'
     = (if videoMounted k then
          match frame with Some f => Some f | None => capturedImage k end
        else capturedImage k).
Proof.
  intros Hr Hi Hc k'. subst k'. unfold tick. rewrite Hr, Hc. cbn [existsb].
  rewrite Pos.eqb_refl. cbn [orb Z.eqb Z.leb Z.compare negb andb].
  unfold capturePhoto.
  destruct (videoMounted k); [destruct frame as [f|]|];
    cbn [countdownInterval setCapturedImage]; rewrite ?Hi;
    cbn [clearInterval setCountdownInterval setCountdown setCapturedImage running
         countdown countdownInterval capturedImage];
    rewrite ?Hi; cbn [clearInterval running]; rewrite Hr, filter_self; repeat split.
Qed.

Lemma ticks_snoc h frames frame k :
  ticks h (frames ++ [frame]) k = tick h frame (ticks h frames k).
Proof. unfold ticks. now rewrite foldl_app. Qed.

(** While the countdown runs. *)
Lemma ticks_count_down h k n : forall frames,
  running k = [h] -> countdownInterval k = Some h -> countdown k = Some n ->
  Z.of_nat (length frames) < n ->
  let k' := ticks h frames k in
  countdown k' = Some (n - Z.of_nat (length frames))
  /\ running k' = [h]
  /\ countdownInterval k' = Some h
  /\ capturedImage k' = capturedImage k
  /\ videoMounted k' = videoMounted k.
Proof.
  induction frames as [|frame frames IH] using rev_ind; intros Hr Hi Hc Hlen k'.
  - subst k'. cbn. rewrite Hc. repeat split; try assumption. f_equal. lia.
  - rewrite length_app in Hlen. cbn [length] in Hlen.
    destruct (IH Hr Hi Hc) as (Hc' & Hr' & Hi' & Hcap & Hv); [lia|].
    subst k'. rewrite ticks_snoc.
    rewrite (tick_counts_down h frame _ _ Hr' Hc') by lia.
    cbn [countdown running countdownInterval capturedImage setCountdown].
    rewrite length_app. cbn [length].
    split; [f_equal; lia|]. do 3 (split; [assumption|]).
    unfold videoMounted in *. exact Hv.
Qed.

(** X11. The shutter fires when its seconds are over and not before. With
    [seconds] at least 1, the countdown shows one second less after every
    firing of the interval, the interval stays the only one running and
    nothing is captured; the firing number [seconds] takes the frame of
    the video, if the video is still shown and gives one, stops the
    interval and clears the countdown. *)
Theorem shutter_fires_when_seconds_are_over seconds h k before frame :
  tracked k ->
  1 <= seconds ->
  Z.of_nat (length before) = seconds - 1 ->
  let waiting := ticks h before (startAutoCapture seconds h k) in
  let fired := tick h frame waiting in
  (forall j,
      (j <= length before)%nat ->
      let kj := ticks h (take j before) (startAutoCapture seconds h k) in
      countdown kj = Some (seconds - Z.of_nat j)
      /\ running kj = [h]
      /\ capturedImage kj = capturedImage k)
  /\ countdown fired = None
  /\ running fired = []
  /\ countdownInterval fired = None
  /\ capturedImage fired
     = (if videoMounted k then
          match frame with Some f => Some f | None => capturedImage k end
        else capturedImage k).
Proof.
  intros Ht Hs Hlen waiting fired.
  destruct (startAutoCapture_spec seconds h k Ht) as (Hc1 & Hr1 & Hi1 & Hcap1 & Hv1).
  split.
  - intros j Hj kj.
    destruct (ticks_count_down h (startAutoCapture seconds h k) seconds (take j before)
                Hr1 Hi1 Hc1) as (Hc & Hr & _ & Hcap & _).
    { rewrite length_take. lia. }
    fold kj in Hc, Hr, Hcap. rewrite length_take in Hc.
    replace (j `min` length before)%nat with j in Hc by lia.
    rewrite Hcap, Hcap1. auto.
  - destruct (ticks_count_down h (startAutoCapture seconds h k) seconds before
                Hr1 Hi1 Hc1) as (Hc & Hr & Hi & Hcap & Hv); [lia|].
    fold waiting in Hc, Hr, Hi, Hcap, Hv.
    replace (seconds - Z.of_nat (length before)) with 1 in Hc by lia.
    destruct (tick_fires h frame waiting Hr Hi Hc) as (Hc' & Hr' & Hi' & Hcap').
    fold fired in Hc', Hr', Hi', Hcap'.
    rewrite Hcap', Hv, Hv1, Hcap, Hcap1. auto.
Qed.

(** X12. A shutter of zero seconds never fires: the first firing of the
    interval clears the countdown, and from then on every firing leaves the
    interval running and the captured frame as it was. *)
Theorem shutter_of_zero_seconds_never_fires h k frames :
  tracked k ->
  frames <> [] ->
  let k' := ticks h frames (startAutoCapture 0 h k) in
  countdown k' = None
  /\ running k' = [h]
  /\ countdownInterval k' = Some h
  /\ capturedImage k' = capturedImage k.
Proof.
  intros Ht Hne k'.
  destruct (startAutoCapture_spec 0 h k Ht) as (Hc1 & Hr1 & Hi1 & Hcap1 & _).
  assert (Hidle : forall frame k0,
             running k0 = [h] -> countdown k0 = Some 0 \/ countdown k0 = None ->
             tick h frame k0 = setCountdown None k0).
  { intros frame k0 Hr [Hc|Hc]; unfold tick; rewrite Hr, Hc; cbn [existsb];
      rewrite Pos.eqb_refl; reflexivity. }
  assert (Hall : forall fs,
             let kf := ticks h fs (startAutoCapture 0 h k) in
             (countdown kf = Some 0 \/ countdown kf = None)
             /\ (fs <> [] -> countdown kf = None)
             /\ running kf = [h]
             /\ countdownInterval kf = Some h
             /\ capturedImage kf = capturedImage k).
  { induction fs as [|frame fs IH] using rev_ind; intros kf.
    - subst kf. cbn. split; [now left|]. split; [congruence|]. auto.
    - destruct IH as (Hc & _ & Hr & Hi & Hcap).
      subst kf. rewrite ticks_snoc, (Hidle frame _ Hr Hc).
      cbn [countdown running countdownInterval capturedImage setCountdown].
      auto. }
  destruct (Hall frames) as (_ & Hc & Hr & Hi & Hcap).
  fold k' in Hc, Hr, Hi, Hcap. auto.
Qed.

End CameraProofs.

(* ===================================================================== *)
(** ** What every run of the editor keeps *)
(* ===================================================================== *)

Module StudioProofs.

Import ImageUtils App Editor Spec Vocabulary HistoryProofs ProjectProofs ImportProofs
       LibraryProofs CameraProofs.

(** The cells a handler leaves alone are read off by computation. *)
Ltac cells :=
  cbn [history currentIdx projects activeProjectId isProcessing prompt chatInput
       chatMessages error baseLayout activeLayerId editMode
       setHistory setCurrentIdx setProjects setActiveProjectId setIsProcessing
       setPrompt setChatInput setChatMessages setError setBaseLayout
       setActiveLayerId setEditMode live inflight world uploads capture session
       withSession withCapture].

Lemma pointed_intro s :
  history s <> [] -> 0 <= currentIdx s < Z.of_nat (length (history s)) -> pointed s.
Proof. unfold pointed. destruct (history s); [congruence | auto]. Qed.

Lemma pointed_same s s' :
  history s' = history s -> currentIdx s' = currentIdx s -> pointed s -> pointed s'.
Proof. unfold pointed. now intros -> ->. Qed.

Lemma addToHistory_pointed r u p ls cbl newId now s :
  pointed (addToHistory r u p ls cbl newId now s).
Proof.
  apply pointed_intro; unfold addToHistory; cells.
  - intros H. apply (f_equal length) in H. rewrite length_app in H. cbn in H. lia.
  - rewrite length_app. cbn [length]. lia.
Qed.

Lemma addToHistory_projects r u p ls cbl newId now s :
  projects (addToHistory r u p ls cbl newId now s) = projects s.
Proof. reflexivity. Qed.

Lemma updateActiveTransform_frame key value s :
  length (history (updateActiveTransform key value s)) = length (history s)
  /\ currentIdx (updateActiveTransform key value s) = currentIdx s
  /\ projects (updateActiveTransform key value s) = projects s.
Proof.
  unfold updateActiveTransform.
  destruct (String.eqb (activeLayerId s) "base"), (currentVersion s); cells;
    rewrite ?length_insert; auto.
Qed.

Lemma pointed_length s s' :
  length (history s') = length (history s) -> currentIdx s' = currentIdx s ->
  pointed s -> pointed s'.
Proof.
  unfold pointed. intros Hl ->.
  destruct (history s), (history s'); cbn [length] in *; try lia; auto.
Qed.

Lemma removeLayer_pointed id newId now s : pointed s -> pointed (removeLayer id newId now s).
Proof.
  intros Hp. unfold removeLayer. destruct (currentVersion s) as [cv|]; [|exact Hp].
  destruct (String.eqb (activeLayerId s) id);
    [eapply pointed_same; [| |apply addToHistory_pointed]; reflexivity
    | apply addToHistory_pointed].
Qed.

Lemma removeLayer_projects id newId now s :
  projects (removeLayer id newId now s) = projects s.
Proof.
  unfold removeLayer. destruct (currentVersion s) as [cv|]; [|reflexivity].
  now destruct (String.eqb (activeLayerId s) id).
Qed.

Lemma createSnapshot_frame now ok s :
  history (createSnapshot now ok s) = history s
  /\ currentIdx (createSnapshot now ok s) = currentIdx s.
Proof.
  unfold createSnapshot.
  destruct (currentVersion s), (truthy (activeProjectId s)), (activeProjectId s); auto;
    match goal with
    | |- context [persistProjects ok ?x] =>
        destruct (persistProjects_frame ok x) as (-> & -> & _)
    end; auto.
Qed.

Lemma storeCurrentProjectState_frame newId now ok s :
  history (storeCurrentProjectState newId now ok s) = history s
  /\ currentIdx (storeCurrentProjectState newId now ok s) = currentIdx s.
Proof.
  unfold storeCurrentProjectState.
  destruct (currentVersion s); [|auto].
  destruct (truthy (activeProjectId s)), (activeProjectId s);
    match goal with
    | |- context [persistProjects ok ?x] =>
        destruct (persistProjects_frame ok x) as (-> & -> & _)
    end; auto.
Qed.

Lemma deleteProject_pointed id ok s : pointed s -> pointed (deleteProject id ok s).
Proof.
  intros Hp. unfold deleteProject.
  destruct (decide (activeProjectId s = Some id)); [reflexivity|].
  match goal with
  | |- context [persistProjects ok ?x] =>
      destruct (persistProjects_frame ok x) as (Hh & Hi & _)
  end.
  eapply pointed_same; [exact Hh | exact Hi | exact Hp].
Qed.

Lemma settle_pointed e t s : pointed s -> pointed (settle e t s).
Proof.
  intros Hp. destruct t as [r cv rawPrompt | r templatePrompt | r userText]; cbn [settle].
  - unfold handleEdit_settle.
    destruct (submission e r cv) as [err|composed]; [exact Hp|].
    destruct (editImage e composed _) as [result|]; [|exact Hp].
    eapply pointed_same; [| |apply (addToHistory_pointed r result
      (Some (orElse rawPrompt "AI Edit")) [] (Some DEFAULT_LAYOUT) (randomId e) (dateNow e) s)];
      reflexivity.
  - unfold handleGenerateFromScratch_settle.
    destruct (generateNewImage e templatePrompt) as [result|]; [|exact Hp].
    eapply pointed_same; [| |apply (addToHistory_pointed r result
      (Some templatePrompt) [] (Some DEFAULT_LAYOUT) (randomId e) (dateNow e) s)];
      reflexivity.
  - unfold handleChatSubmit_settle.
    destruct (currentVersion r) as [cv|];
      [destruct (submission e r cv) as [err|composed]|];
      try destruct (generateContent e _ userText); exact Hp.
Qed.

Lemma settle_projects e t s : projects (settle e t s) = projects s.
Proof.
  destruct t as [r cv rawPrompt | r templatePrompt | r userText]; cbn [settle].
  - unfold handleEdit_settle.
    destruct (submission e r cv) as [err|composed]; [reflexivity|].
    now destruct (editImage e composed _).
  - unfold handleGenerateFromScratch_settle.
    now destruct (generateNewImage e templatePrompt).
  - unfold handleChatSubmit_settle.
    destruct (currentVersion r) as [cv|];
      [destruct (submission e r cv) as [err|composed]|];
      try destruct (generateContent e _ userText); reflexivity.
Qed.

Lemma step_live w ev : live (step w ev) = syncBaseLayout (afterEvent w ev).
Proof.
  unfold step, afterEvent. destruct ev as [c|t|input|newId now|i e]; try reflexivity.
  now destruct (inflight w !! i).
Qed.

Lemma afterEvent_pointed w ev : pointed (live w) -> pointed (afterEvent w ev).
Proof.
  intros Hp. destruct ev as [c|t|input|newId now|i e]; cbn [afterEvent].
  - unfold handleEdit_start. destruct (currentVersion (live w)); [|exact Hp].
    destruct (_ && _); exact Hp.
  - exact Hp.
  - exact Hp.
  - unfold handleChatSubmit_start. destruct (_ || _); exact Hp.
  - destruct (inflight w !! i); [now apply settle_pointed | exact Hp].
Qed.

Lemma afterEvent_projects w ev : projects (afterEvent w ev) = projects (live w).
Proof.
  destruct ev as [c|t|input|newId now|i e]; cbn [afterEvent]; try reflexivity.
  - unfold handleEdit_start. destruct (currentVersion (live w)); [|reflexivity].
    now destruct (_ && _).
  - unfold handleChatSubmit_start. now destruct (_ || _).
  - destruct (inflight w !! i); [apply settle_projects | reflexivity].
Qed.

Lemma syncBaseLayout_pointed s : pointed s -> pointed (syncBaseLayout s).
Proof.
  destruct (syncBaseLayout_frame s) as (Hh & Hi & _).
  now apply pointed_same.
Qed.

Lemma upload_settle_pointed s :
  pointed s ->
  (forall b64 r newId now, pointed (handleBaseUpload_settle b64 r newId now s))
  /\ (forall b64 r cv layerId newId now,
        pointed (handleLayerUpload_settle b64 r cv layerId newId now s)).
Proof.
  intros Hp. split.
  - intros [b|] r newId now; unfold handleBaseUpload_settle; [|exact Hp].
    eapply pointed_same; [| |apply (addToHistory_pointed r b (Some "Subject Upload") []
      (Some DEFAULT_LAYOUT) newId now s)]; reflexivity.
  - intros [b|] r cv layerId newId now; unfold handleLayerUpload_settle; [|exact Hp].
    eapply pointed_same; [| |apply (addToHistory_pointed r (url cv)
      (Some "Added Image Layer") (layers cv ++ [uploadedLayer cv layerId b]) None
      newId now s)]; reflexivity.
Qed.

Lemma confirmCapture_pointed layerId newId now s k :
  pointed s -> pointed (fst (confirmCapture layerId newId now (s, k))).
Proof.
  intros Hp. unfold confirmCapture.
  destruct (truthy (capturedImage k)), (capturedImage k) as [img|]; try exact Hp.
  cbn [fst].
  destruct (importTarget k), (currentVersion s) as [cv|];
    apply addToHistory_pointed.
Qed.

(** The session an action leaves, before the effect. *)
Lemma handle_pointed st a : pointed (live (world st)) -> pointed (session (handle st a)).
Proof.
  intros Hp. unfold handle. cbv zeta. unfold session in *.
  destruct a as [ev|ps|i|key value|id|m|p|id newId now|newId now storeOk|now storeOk
                |i|id storeOk| | | |i b64 layerId newId now|target| | | |
                |frame|seconds h|h frame|layerId newId now].
  - cbn [world]. rewrite step_live.
    now apply syncBaseLayout_pointed, afterEvent_pointed.
  - exact Hp.
  - destruct (_ <? _)%nat eqn:E; [|exact Hp]. cells.
    apply Nat.ltb_lt in E. apply pointed_intro; cells.
    + intros H. rewrite H in E. cbn in E. lia.
    + lia.
  - cells. destruct (updateActiveTransform_frame key value (live (world st)))
      as (Hl & Hi & _).
    eapply pointed_length; eauto.
  - exact Hp.
  - exact Hp.
  - exact Hp.
  - cells. now apply removeLayer_pointed.
  - cells.
    destruct (storeCurrentProjectState_frame newId now storeOk (live (world st)))
      as (Hh & Hi).
    eapply pointed_same; eauto.
  - cells. destruct (createSnapshot_frame now storeOk (live (world st))) as (Hh & Hi).
    eapply pointed_same; eauto.
  - destruct (projects (live (world st)) !! i) as [project|]; [|exact Hp]. cells.
    now destruct (loadProject_lands_on_last_version_aux project (live (world st))).
  - cells. now apply deleteProject_pointed.
  - reflexivity.
  - exact Hp.
  - destruct (currentVersion (live (world st))); exact Hp.
  - destruct (upload_settle_pointed (live (world st)) Hp) as (Hb & Hl).
    destruct (uploads st !! i) as [[r|r cv]|]; cells; auto.
  - exact Hp.
  - exact Hp.
  - exact Hp.
  - exact Hp.
  - exact Hp.
  - exact Hp.
  - exact Hp.
  - exact Hp.
  - pose proof (confirmCapture_pointed layerId newId now (live (world st)) (capture st) Hp)
      as H.
    destruct (confirmCapture layerId newId now (live (world st), capture st)); exact H.
Qed.

Lemma act_session st a : session (act st a) = syncBaseLayout (session (handle st a)).
Proof. reflexivity. Qed.

Lemma pointed_current s : pointed s -> (currentVersion s = None <-> history s = []).
Proof.
  unfold pointed, currentVersion. intros Hp.
  destruct (history s) as [|v vs] eqn:E.
  - rewrite Hp. cbn. tauto.
  - destruct (0 <=? currentIdx s) eqn:E0; [|apply Z.leb_gt in E0; lia].
    destruct (currentIdx s <? Z.of_nat (length (v :: vs))) eqn:E1;
      [|apply Z.ltb_ge in E1; lia].
    cbn [andb]. split; [|discriminate].
    intros Hnone. apply lookup_ge_None in Hnone. lia.
Qed.

(** X13. In every run of the editor from its start, whatever the order in
    which actions and late results arrive, the pointer into the history
    is valid: it is -1 on an empty history and a position of the history
    otherwise, so that there is a current version exactly when there is a
    history; and the session's base layout is the one of the current
    version. *)
Theorem current_version_exactly_when_history (acts : list Action) :
  let s := session (perform opened acts) in
  pointed s
  /\ (currentVersion s = None <-> history s = [])
  /\ synced s.
Proof.
  intros s. subst s.
  assert (Hinv : pointed (session (perform opened acts))
                 /\ synced (session (perform opened acts))).
  { unfold perform. induction acts as [|a acts IH] using rev_ind.
    - split; [reflexivity|]. intros v Hv. discriminate Hv.
    - rewrite foldl_app. cbn [foldl]. destruct IH as [Hp _].
      rewrite act_session. split.
      + now apply syncBaseLayout_pointed, handle_pointed.
      + apply syncBaseLayout_synced. }
  destruct Hinv as [Hp Hs].
  split; [exact Hp|]. split; [now apply pointed_current | exact Hs].
Qed.

Lemma handle_projects st a :
  writesProjects a = false ->
  projects (session (handle st a)) = projects (session st).
Proof.
  intros Hw. unfold handle. cbv zeta. unfold session in *.
  destruct a as [ev|ps|i|key value|id|m|p|id newId now|newId now storeOk|now storeOk
                |i|id storeOk| | | |i b64 layerId newId now|target| | | |
                |frame|seconds h|h frame|layerId newId now];
    try discriminate Hw; try reflexivity.
  - cbn [world]. rewrite step_live.
    destruct (syncBaseLayout_frame (afterEvent (world st) ev)) as (_ & _ & _ & _ & -> & _).
    apply afterEvent_projects.
  - now destruct (_ <? _)%nat.
  - cells. now destruct (updateActiveTransform_frame key value (live (world st)))
      as (_ & _ & ->).
  - cells. apply removeLayer_projects.
  - destruct (projects (live (world st)) !! i) as [project|]; reflexivity.
  - now destruct (currentVersion (live (world st))).
  - destruct (uploads st !! i) as [[r|r cv]|]; cells; [| |reflexivity].
    + unfold handleBaseUpload_settle. now destruct b64.
    + unfold handleLayerUpload_settle. now destruct b64.
  - unfold confirmCapture.
    destruct (truthy (capturedImage (capture st))), (capturedImage (capture st));
      try reflexivity.
    now destruct (importTarget (capture st)), (currentVersion (live (world st))).
Qed.

(** X14. The project list is written by four actions only: the list that
    arrives from the store, saving, marking a milestone and deleting.
    Every other action, each edit, layout tweak, import, remote result and
    opening of a project among them, leaves the project list, and with it
    every saved revision stack and every snapshot, as it is. *)
Theorem only_saving_writes_projects st a :
  writesProjects a = false ->
  projects (session (act st a)) = projects (session st).
Proof.
  intros Hw. rewrite act_session.
  destruct (syncBaseLayout_frame (session (handle st a))) as (_ & _ & _ & _ & -> & _).
  now apply handle_projects.
Qed.

Lemma capturePhoto_tracked frame k : tracked k -> tracked (capturePhoto frame k).
Proof.
  unfold tracked, capturePhoto. intros Ht.
  destruct (videoMounted k); [|exact Ht].
  destruct frame as [f|]; [|exact Ht].
  cbn [countdownInterval setCapturedImage].
  destruct (countdownInterval k) as [h|] eqn:Eh;
    cbn [clearInterval setCountdownInterval setCountdown setCapturedImage running
         countdownInterval]; rewrite ?Eh, Ht; [apply filter_self | reflexivity].
Qed.

Lemma tick_tracked h frame k : tracked k -> tracked (tick h frame k).
Proof.
  intros Ht. unfold tick.
  destruct (existsb (Pos.eqb h) (running k)); [|exact Ht].
  destruct (countdown k) as [p|]; [|exact Ht].
  destruct (negb (p =? 0) && (p <=? 1)); [|destruct (negb (p =? 0)); exact Ht].
  pose proof (capturePhoto_tracked frame k Ht) as Hc. unfold tracked in *.
  cbn [running countdownInterval setCountdown setCountdownInterval].
  destruct (countdownInterval (capturePhoto frame k)) as [h'|];
    cbn [clearInterval running]; rewrite Hc; [apply filter_self | reflexivity].
Qed.

Lemma startAutoCapture_tracked seconds h k :
  tracked k -> tracked (startAutoCapture seconds h k).
Proof.
  intros Ht. destruct (startAutoCapture_spec seconds h k Ht) as (_ & Hr & Hi & _).
  unfold tracked. now rewrite Hr, Hi.
Qed.

Lemma handle_tracked st a : tracked (capture st) -> tracked (capture (handle st a)).
Proof.
  intros Ht. unfold handle. cbv zeta. unfold session in *.
  destruct a as [ev|ps|i|key value|id|m|p|id newId now|newId now storeOk|now storeOk
                |i|id storeOk| | | |i b64 layerId newId now|target| | | |
                |frame|seconds h|h frame|layerId newId now];
    try exact Ht.
  - now destruct (_ <? _)%nat.
  - now destruct (projects (live (world st)) !! i).
  - now destruct (currentVersion (live (world st))).
  - now destruct (uploads st !! i) as [[r|r cv]|].
  - now apply capturePhoto_tracked.
  - now apply startAutoCapture_tracked.
  - now apply tick_tracked.
  - unfold confirmCapture.
    destruct (truthy (capturedImage (capture st))), (capturedImage (capture st));
      exact Ht.
Qed.

(** X15. In every run of the editor at most one countdown interval is
    running, and it is the one whose handle the ref holds: no interval is
    ever left running behind the ref, so that [Snap Now], the end of the
    countdown and the next shutter always stop the interval that is
    running. *)
Theorem one_interval_at_most (acts : list Action) :
  let k := capture (perform opened acts) in
  tracked k /\ (length (running k) <= 1)%nat.
Proof.
  intros k. subst k.
  assert (Ht : tracked (capture (perform opened acts))).
  { unfold perform. induction acts as [|a acts IH] using rev_ind; [reflexivity|].
    rewrite foldl_app. cbn [foldl].
    change (capture (act (foldl act opened acts) a))
      with (capture (handle (foldl act opened acts) a)).
    now apply handle_tracked. }
  split; [exact Ht|]. unfold tracked in Ht. rewrite Ht.
  destruct (countdownInterval _); cbn; lia.
Qed.

End StudioProofs.

(* ===================================================================== *)
(** ** What every run keeps of layouts and projects *)
(* ===================================================================== *)

Module SoundnessProofs.

Import ImageUtils App Editor Spec Vocabulary HistoryProofs ProjectProofs ImportProofs
       LibraryProofs StudioProofs.

Lemma complete_setField k v l : complete l -> complete (setField k v l).
Proof.
  unfold complete, hasMissingField.
  destruct l as [[s|] [sx|] [sy|] [tx|] [ty|]], k; cbn; intros H;
    try discriminate H; reflexivity.
Qed.

Lemma complete_default : complete DEFAULT_LAYOUT.
Proof. reflexivity. Qed.

Lemma complete_imported id u nm : complete (layout (importedLayer id u nm)).
Proof. reflexivity. Qed.

Lemma soundSession_same s s' :
  baseLayout s' = baseLayout s -> history s' = history s -> projects s' = projects s ->
  soundSession s -> soundSession s'.
Proof. unfold soundSession. now intros -> -> ->. Qed.

Lemma currentVersion_In s cv : currentVersion s = Some cv -> In cv (history s).
Proof.
  intros H. destruct (currentVersion_Some s cv H) as [_ Hl].
  apply list_elem_of_In. eapply list_elem_of_lookup_2. exact Hl.
Qed.

Lemma currentVersion_complete s cv :
  Forall completeVersion (history s) -> currentVersion s = Some cv -> completeVersion cv.
Proof.
  intros Hall Hcv. rewrite Forall_forall in Hall.
  apply Hall, list_elem_of_In. now apply currentVersion_In.
Qed.

Lemma slice0_Forall {A : Type} (P : A -> Prop) (l : list A) (e : Z) :
  Forall P l -> Forall P (slice0 l e).
Proof. intros H. unfold slice0. destruct (e <? 0); now apply Forall_take. Qed.

Lemma addToHistory_sound r u p ls cbl newId now s :
  Forall completeVersion (history r) ->
  complete (default (baseLayout r) cbl) ->
  Forall (fun l => complete (layout l)) ls ->
  soundSession s ->
  soundSession (addToHistory r u p ls cbl newId now s).
Proof.
  intros Hr Hb Hls (Hsb & _ & Hsp). unfold soundSession, addToHistory. cells.
  split; [exact Hsb|]. split; [|exact Hsp].
  apply Forall_app. split; [now apply slice0_Forall|].
  constructor; [|constructor]. split; [exact Hb | exact Hls].
Qed.

Lemma updateActiveTransform_sound key value s :
  soundSession s -> soundSession (updateActiveTransform key value s).
Proof.
  intros (Hb & Hh & Hp). unfold updateActiveTransform.
  destruct (String.eqb (activeLayerId s) "base"), (currentVersion s) as [cv|] eqn:Hcv;
    unfold soundSession; cells.
  - pose proof (currentVersion_complete s cv Hh Hcv) as [_ Hls].
    split; [now apply complete_setField|]. split; [|exact Hp].
    apply Forall_insert; [exact Hh|]. split; [now apply complete_setField | exact Hls].
  - split; [now apply complete_setField | auto].
  - pose proof (currentVersion_complete s cv Hh Hcv) as [Hcb Hls].
    split; [exact Hb|]. split; [|exact Hp].
    apply Forall_insert; [exact Hh|]. split; [exact Hcb|]. cbn [layers].
    apply Forall_forall. intros l Hl.
    apply list_elem_of_In, in_map_iff in Hl. destruct Hl as (l0 & <- & Hl0).
    rewrite Forall_forall in Hls. apply list_elem_of_In, Hls in Hl0.
    destruct (String.eqb (layer_id l0) (activeLayerId s)); [|exact Hl0].
    now apply complete_setField.
  - auto.
Qed.

Lemma filter_Forall {A : Type} (P : A -> Prop) (f : A -> bool) (l : list A) :
  Forall P l -> Forall P (List.filter f l).
Proof.
  intros H. apply Forall_forall. intros x Hx.
  apply list_elem_of_In, filter_In in Hx. destruct Hx as [Hx _].
  rewrite Forall_forall in H. now apply H, list_elem_of_In.
Qed.

Lemma removeLayer_sound id newId now s :
  soundSession s -> soundSession (removeLayer id newId now s).
Proof.
  intros Hs. pose proof Hs as (Hb & Hh & Hp). unfold removeLayer.
  destruct (currentVersion s) as [cv|] eqn:Hcv; [|exact Hs].
  pose proof (currentVersion_complete s cv Hh Hcv) as [_ Hls].
  assert (Hadd : soundSession
                   (addToHistory s (url cv) (Some "Removed Layer")
                      (List.filter (fun l => negb (String.eqb (layer_id l) id)) (layers cv))
                      None newId now s)).
  { apply addToHistory_sound; [exact Hh | exact Hb | now apply filter_Forall | exact Hs]. }
  destruct (String.eqb (activeLayerId s) id); [|exact Hadd].
  eapply soundSession_same; [| | |exact Hadd]; reflexivity.
Qed.

Lemma find_In (a : string) (ps : list Project) (p : Project) :
  List.find (fun q => String.eqb (project_id q) a) ps = Some p -> In p ps.
Proof. intros H. now apply List.find_some in H. Qed.

Lemma activeProject_snapshots_complete s :
  Forall soundProject (projects s) ->
  Forall completeVersion (default [] (activeProject s ≫= snapshots)).
Proof.
  intros Hp. unfold activeProject.
  destruct (activeProjectId s) as [a|]; [|constructor].
  destruct (List.find _ (projects s)) as [p|] eqn:Hf; [|constructor].
  apply find_In in Hf. rewrite Forall_forall in Hp.
  apply list_elem_of_In, Hp in Hf. now destruct Hf as (_ & _ & _ & Hsn).
Qed.

Lemma createSnapshot_sound now ok s :
  soundSession s -> soundSession (createSnapshot now ok s).
Proof.
  intros Hs. pose proof Hs as (Hb & Hh & Hp). unfold createSnapshot.
  destruct (currentVersion s) as [cv|] eqn:Hcv; [|exact Hs].
  destruct (truthy (activeProjectId s)); [|exact Hs].
  destruct (activeProjectId s) as [a|] eqn:Ha; [|exact Hs].
  pose proof (currentVersion_complete s cv Hh Hcv) as Hcvc.
  pose proof (activeProject_snapshots_complete s Hp) as Hold.
  match goal with
  | |- context [persistProjects ok ?x] =>
      destruct (persistProjects_frame ok x) as (Hh' & _ & Hp' & _ & Hb')
  end.
  unfold soundSession. rewrite Hh', Hp', Hb'. cells.
  split; [exact Hb|]. split; [exact Hh|].
  apply Forall_forall. intros q Hq.
  apply list_elem_of_In, in_map_iff in Hq. destruct Hq as (p & <- & Hin).
  rewrite Forall_forall in Hp. apply list_elem_of_In, Hp in Hin.
  destruct (String.eqb (project_id p) a); [|exact Hin].
  destruct Hin as (Hne & _ & Hst & _).
  unfold soundProject, snapshotCount.
  cbn [revisionStack snapshots default from_option id].
  rewrite slice0_cap.
  split; [exact Hne|]. split; [rewrite length_take; lia|]. split; [exact Hst|].
  apply Forall_take. constructor; [exact Hcvc | exact Hold].
Qed.

Lemma currentVersion_nonempty s cv : currentVersion s = Some cv -> history s <> [].
Proof.
  intros H Hempty. apply currentVersion_In in H. rewrite Hempty in H. destruct H.
Qed.

Lemma storeCurrentProjectState_sound newId now ok s :
  soundSession s -> soundSession (storeCurrentProjectState newId now ok s).
Proof.
  intros Hs. pose proof Hs as (Hb & Hh & Hp). unfold storeCurrentProjectState.
  destruct (currentVersion s) as [cv|] eqn:Hcv; [|exact Hs].
  pose proof (currentVersion_nonempty s cv Hcv) as Hne.
  destruct (truthy (activeProjectId s)), (activeProjectId s) as [a|];
    match goal with
    | |- context [persistProjects ok ?x] =>
        destruct (persistProjects_frame ok x) as (Hh' & _ & Hp' & _ & Hb')
    end;
    unfold soundSession; rewrite Hh', Hp', Hb'; cells;
    (split; [exact Hb|]); (split; [exact Hh|]).
  2-4: constructor; [|exact Hp];
       unfold soundProject, snapshotCount; cbn; unfold MAX_SNAPSHOTS;
       (split; [exact Hne|]); (split; [lia|]); (split; [exact Hh | constructor]).
  apply Forall_forall. intros q Hq.
  apply list_elem_of_In, in_map_iff in Hq. destruct Hq as (p & <- & Hin).
  rewrite Forall_forall in Hp. apply list_elem_of_In, Hp in Hin.
  destruct (String.eqb (project_id p) a); [|exact Hin].
  destruct Hin as (_ & Hcap & _ & Hsn).
  unfold soundProject, snapshotCount in *. cbn [revisionStack snapshots].
  auto.
Qed.

Lemma executeStartNewProject_sound s :
  soundSession s -> soundSession (executeStartNewProject s).
Proof.
  intros (_ & _ & Hp). unfold soundSession, executeStartNewProject. cells.
  split; [apply complete_default|]. split; [constructor | exact Hp].
Qed.

Lemma deleteProject_sound id ok s :
  soundSession s -> soundSession (deleteProject id ok s).
Proof.
  intros (Hb & Hh & Hp). unfold deleteProject.
  match goal with
  | |- context [persistProjects ok ?x] =>
      destruct (persistProjects_frame ok x) as (Hh' & _ & Hp' & _ & Hb')
  end.
  destruct (decide (activeProjectId s = Some id)); unfold soundSession;
    cbn [baseLayout history projects]; rewrite ?Hh', ?Hb', Hp'; cells.
  - split; [apply complete_default|]. split; [constructor | now apply filter_Forall].
  - split; [exact Hb|]. split; [exact Hh | now apply filter_Forall].
Qed.

Lemma last_Forall {A : Type} (P : A -> Prop) (l : list A) (x : A) :
  Forall P l -> last l = Some x -> P x.
Proof.
  intros H Hl. rewrite Forall_forall in H. apply H.
  rewrite last_lookup in Hl. eapply list_elem_of_lookup_2. exact Hl.
Qed.

Lemma loadProject_sound project s :
  soundProject project -> soundSession s -> soundSession (loadProject project s).
Proof.
  intros (_ & _ & Hst & _) (_ & _ & Hp).
  destruct (loadProject_spec project s) as (Hh & _ & _ & Hb & _ & _ & Hps).
  unfold soundSession. rewrite Hh, Hb, Hps.
  split; [|auto].
  destruct (last (revisionStack project)) as [v|] eqn:Hl; [|apply complete_default].
  cbn. now destruct (last_Forall completeVersion _ v Hst Hl).
Qed.

Lemma syncBaseLayout_sound s : soundSession s -> soundSession (syncBaseLayout s).
Proof.
  intros Hs. pose proof Hs as (Hb & Hh & Hp). unfold syncBaseLayout.
  destruct (currentVersion s) as [cv|] eqn:Hcv; [|exact Hs].
  unfold soundSession. cells.
  split; [|auto]. now destruct (currentVersion_complete s cv Hh Hcv).
Qed.

Lemma settle_sound e t s : soundTask t -> soundSession s -> soundSession (settle e t s).
Proof.
  intros Ht Hs.
  destruct t as [r cv rawPrompt | r templatePrompt | r userText]; cbn [settle soundTask] in *.
  - destruct Ht as [(_ & Hrh & _) _]. unfold handleEdit_settle.
    destruct (submission e r cv) as [err|composed];
      [eapply soundSession_same; [| | |exact Hs]; reflexivity|].
    destruct (editImage e composed _) as [result|];
      [|eapply soundSession_same; [| | |exact Hs]; reflexivity].
    pose proof (addToHistory_sound r result (Some (orElse rawPrompt "AI Edit")) []
                  (Some DEFAULT_LAYOUT) (randomId e) (dateNow e) s Hrh
                  complete_default (List.Forall_nil _) Hs) as (_ & Hh' & Hp').
    unfold soundSession. cells. split; [apply complete_default|]. split; assumption.
  - destruct Ht as (_ & Hrh & _). unfold handleGenerateFromScratch_settle.
    destruct (generateNewImage e templatePrompt) as [result|];
      [|eapply soundSession_same; [| | |exact Hs]; reflexivity].
    eapply soundSession_same;
      [| | |apply (addToHistory_sound r result (Some templatePrompt) []
                    (Some DEFAULT_LAYOUT) (randomId e) (dateNow e) s Hrh
                    complete_default (List.Forall_nil _) Hs)]; reflexivity.
  - unfold handleChatSubmit_settle.
    destruct (currentVersion r) as [cv|];
      [destruct (submission e r cv) as [err|composed]|];
      try destruct (generateContent e _ userText);
      (eapply soundSession_same; [| | |exact Hs]; reflexivity).
Qed.

(** One event of the remote handlers. *)
Lemma step_sound w ev :
  soundSession (live w) -> Forall soundTask (inflight w) ->
  soundSession (live (step w ev)) /\ Forall soundTask (inflight (step w ev)).
Proof.
  intros Hs Ht. pose proof Hs as (Hb & Hh & Hp).
  assert (Hsame : forall s', baseLayout s' = baseLayout (live w) ->
                             history s' = history (live w) ->
                             projects s' = projects (live w) ->
                             soundSession (syncBaseLayout s')).
  { intros s' H1 H2 H3. apply syncBaseLayout_sound.
    eapply soundSession_same; eauto. }
  unfold step. destruct ev as [c|t|input|newId now|i e]; cbn [live inflight].
  - unfold handleEdit_start.
    destruct (currentVersion (live w)) as [cv|] eqn:Hcv;
      [|split; [now apply syncBaseLayout_sound | exact Ht]].
    destruct (_ && _); [split; [now apply syncBaseLayout_sound | exact Ht]|].
    cbn [live inflight]. split; [now apply Hsame|].
    apply Forall_app. split; [exact Ht|]. constructor; [|constructor].
    split; [exact Hs | exact (currentVersion_complete _ _ Hh Hcv)].
  - split; [now apply Hsame|].
    apply Forall_app. split; [exact Ht|]. constructor; [exact Hs | constructor].
  - split; [now apply Hsame | exact Ht].
  - unfold handleChatSubmit_start.
    destruct (_ || _); [split; [now apply syncBaseLayout_sound | exact Ht]|].
    cbn [live inflight]. split; [now apply Hsame|].
    apply Forall_app. split; [exact Ht|]. constructor; [exact Hs | constructor].
  - destruct (inflight w !! i) as [t|] eqn:Hti;
      [|split; [now apply syncBaseLayout_sound | exact Ht]].
    cbn [live inflight]. split; [|now apply Forall_delete].
    apply syncBaseLayout_sound, settle_sound; [|exact Hs].
    rewrite Forall_forall in Ht. apply Ht. eapply list_elem_of_lookup_2, Hti.
Qed.

Lemma upload_settle_sound s :
  soundSession s ->
  (forall b64 r newId now,
      soundSession r -> soundSession (handleBaseUpload_settle b64 r newId now s))
  /\ (forall b64 r cv layerId newId now,
        soundSession r -> completeVersion cv ->
        soundSession (handleLayerUpload_settle b64 r cv layerId newId now s)).
Proof.
  intros Hs. split.
  - intros [b|] r newId now (_ & Hrh & _); unfold handleBaseUpload_settle;
      [|eapply soundSession_same; [| | |exact Hs]; reflexivity].
    eapply soundSession_same;
      [| | |apply (addToHistory_sound r b (Some "Subject Upload") []
                    (Some DEFAULT_LAYOUT) newId now s Hrh complete_default
                    (List.Forall_nil _) Hs)]; reflexivity.
  - intros [b|] r cv layerId newId now (Hrb & Hrh & _) (_ & Hls);
      unfold handleLayerUpload_settle;
      [|eapply soundSession_same; [| | |exact Hs]; reflexivity].
    eapply soundSession_same;
      [| | |apply (addToHistory_sound r (url cv) (Some "Added Image Layer")
                    (layers cv ++ [uploadedLayer cv layerId b]) None newId now s
                    Hrh Hrb)]; try reflexivity; [|exact Hs].
    apply Forall_app. split; [exact Hls|]. constructor; [reflexivity | constructor].
Qed.

Lemma confirmCapture_sound layerId newId now s k :
  soundSession s -> soundSession (fst (confirmCapture layerId newId now (s, k))).
Proof.
  intros Hs. pose proof Hs as (Hb & Hh & Hp). unfold confirmCapture.
  destruct (truthy (capturedImage k)), (capturedImage k) as [img|]; try exact Hs.
  cbn [fst].
  assert (Hbase : soundSession
                    (addToHistory s img (Some "Camera Base") [] (Some DEFAULT_LAYOUT)
                       newId now s)).
  { apply addToHistory_sound; [exact Hh | apply complete_default | constructor | exact Hs]. }
  destruct (importTarget k); [exact Hbase|].
  destruct (currentVersion s) as [cv|] eqn:Hcv; [|exact Hbase].
  pose proof (currentVersion_complete s cv Hh Hcv) as [_ Hls].
  eapply soundSession_same;
    [| | |apply (addToHistory_sound s (url cv) (Some "Camera Layer")
                  (layers cv ++ [importedLayer layerId img "Camera Shot"]) None
                  newId now s Hh Hb)]; try reflexivity; [|exact Hs].
  apply Forall_app. split; [exact Hls|]. constructor; [reflexivity | constructor].
Qed.

Lemma handle_sound st a : soundStudio st -> admissible a -> soundStudio (handle st a).
Proof.
  intros (Hs & Ht & Hu) Ha. pose proof Hs as (Hb & Hh & Hp).
  unfold soundStudio, handle. cbv zeta. unfold session in *.
  destruct a as [ev|ps|i|key value|id|m|p|id newId now|newId now storeOk|now storeOk
                |i|id storeOk| | | |i b64 layerId newId now|target| | | |
                |frame|seconds h|h frame|layerId newId now]; cells.
  - destruct (step_sound (world st) ev Hs Ht) as (Hs' & Ht'). auto.
  - split; [|auto]. unfold soundSession. cells. auto.
  - destruct (_ <? _)%nat; cells; auto.
  - split; [now apply updateActiveTransform_sound | auto].
  - auto.
  - auto.
  - auto.
  - split; [now apply removeLayer_sound | auto].
  - split; [now apply storeCurrentProjectState_sound | auto].
  - split; [now apply createSnapshot_sound | auto].
  - destruct (projects (live (world st)) !! i) as [project|] eqn:Hi; cells; [|auto].
    split; [|auto]. apply loadProject_sound; [|exact Hs].
    rewrite Forall_forall in Hp. apply Hp. eapply list_elem_of_lookup_2, Hi.
  - split; [now apply deleteProject_sound | auto].
  - split; [now apply executeStartNewProject_sound | auto].
  - split; [exact Hs|]. split; [exact Ht|].
    apply Forall_app. split; [exact Hu|]. constructor; [exact Hs | constructor].
  - destruct (currentVersion (live (world st))) as [cv|] eqn:Hcv; cells; [|auto].
    split; [exact Hs|]. split; [exact Ht|].
    apply Forall_app. split; [exact Hu|]. constructor; [|constructor].
    split; [exact Hs | exact (currentVersion_complete _ _ Hh Hcv)].
  - destruct (upload_settle_sound (live (world st)) Hs) as (Hbase & Hlayer).
    destruct (uploads st !! i) as [u|] eqn:Hi; [|cells; auto].
    assert (Hsu : soundUpload u).
    { rewrite Forall_forall in Hu. apply Hu. eapply list_elem_of_lookup_2, Hi. }
    destruct u as [r|r cv]; cells; cbn [soundUpload] in Hsu.
    + split; [now apply Hbase|]. split; [exact Ht | now apply Forall_delete].
    + destruct Hsu as [Hr Hcv].
      split; [now apply Hlayer|]. split; [exact Ht | now apply Forall_delete].
  - auto.
  - auto.
  - auto.
  - auto.
  - auto.
  - auto.
  - auto.
  - auto.
  - pose proof (confirmCapture_sound layerId newId now (live (world st)) (capture st) Hs)
      as H.
    destruct (confirmCapture layerId newId now (live (world st), capture st)).
    cells. auto.
Qed.

Lemma act_sound st a : soundStudio st -> admissible a -> soundStudio (act st a).
Proof.
  intros Hst Ha. destruct (handle_sound st a Hst Ha) as (Hs & Ht & Hu).
  unfold soundStudio, act. unfold session in *. cells.
  split; [now apply syncBaseLayout_sound | auto].
Qed.

Lemma perform_sound acts :
  Forall admissible acts -> soundStudio (perform opened acts).
Proof.
  unfold perform. induction acts as [|a acts IH] using rev_ind; intros Hall.
  - split; [|split; constructor].
    split; [apply complete_default|]. split; constructor.
  - apply Forall_app in Hall. destruct Hall as [Hacts Ha].
    rewrite foldl_app. cbn [foldl]. apply act_sound; [now apply IH|].
    now inversion Ha.
Qed.

(** X16. Layouts never lose a field. In every run of the editor in which
    the project lists that arrive from the store hold complete layouts,
    the session's base layout, the base layout and every layer layout of
    every version of the history, and those of the versions held by the
    handlers in flight, have their five fields: writing the defaults into
    them changes nothing, so [composeImage] is never handed a layout with
    a missing field. *)
Theorem layouts_stay_complete (acts : list Action) :
  Forall admissible acts ->
  let st := perform opened acts in
  complete (baseLayout (session st))
  /\ withDefaults (baseLayout (session st)) = baseLayout (session st)
  /\ (forall v, In v (history (session st)) ->
       complete (version_baseLayout v)
       /\ forall l, In l (layers v) -> withDefaults (layout l) = layout l)
  /\ (forall r cv rawPrompt, In (EditTask r cv rawPrompt) (inflight (world st)) ->
       complete (baseLayout r)
       /\ forall l, In l (layers cv) -> withDefaults (layout l) = layout l).
Proof.
  intros Hall st. destruct (perform_sound acts Hall) as ((Hb & Hh & _) & Ht & _).
  fold st in Hb, Hh, Ht.
  split; [exact Hb|]. split; [now apply ImageUtilsProofs.withDefaults_complete|].
  split.
  - intros v Hv. rewrite Forall_forall in Hh.
    apply list_elem_of_In, Hh in Hv. destruct Hv as [Hvb Hls].
    split; [exact Hvb|]. intros l Hl. rewrite Forall_forall in Hls.
    apply ImageUtilsProofs.withDefaults_complete. now apply Hls, list_elem_of_In.
  - intros r cv rawPrompt Hin. rewrite Forall_forall in Ht.
    apply list_elem_of_In, Ht in Hin. cbn [soundTask] in Hin.
    destruct Hin as [(Hrb & _) (_ & Hls)].
    split; [exact Hrb|]. intros l Hl. rewrite Forall_forall in Hls.
    apply ImageUtilsProofs.withDefaults_complete. now apply Hls, list_elem_of_In.
Qed.

(** X17. Stored projects stay well formed. In every run of the editor in
    which the project lists that arrive from the store are well formed,
    every project of the list has a revision stack that is not empty and
    at most [MAX_SNAPSHOTS] snapshots, so that opening any project of the
    list gives a current version. *)
Theorem projects_stay_well_formed (acts : list Action) :
  Forall admissible acts ->
  let s := session (perform opened acts) in
  forall p, In p (projects s) ->
    revisionStack p <> []
    /\ (snapshotCount p <= MAX_SNAPSHOTS)%nat
    /\ is_Some (currentVersion (loadProject p s)).
Proof.
  intros Hall s p Hin. destruct (perform_sound acts Hall) as ((_ & _ & Hp) & _).
  fold s in Hp. rewrite Forall_forall in Hp.
  apply list_elem_of_In, Hp in Hin. destruct Hin as (Hne & Hcap & _).
  split; [exact Hne|]. split; [exact Hcap|].
  destruct (loadProject_spec p s) as (_ & _ & -> & _).
  destruct (revisionStack p) as [|v vs] eqn:E; [congruence|].
  rewrite <- E. rewrite last_lookup. apply lookup_lt_is_Some. rewrite E. cbn. lia.
Qed.

End SoundnessProofs.

(* ===================================================================== *)
(** ** Deleting a project and starting a new one *)
(* ===================================================================== *)

Module LifecycleProofs.

Import ImageUtils App Editor Spec Vocabulary HistoryProofs ProjectProofs ImportProofs
       LibraryProofs StudioProofs.

Lemma executeStartNewProject_persist ok s :
  error (executeStartNewProject (persistProjects ok s)) = None
  /\ projects (executeStartNewProject (persistProjects ok s)) = projects s
  /\ history (executeStartNewProject (persistProjects ok s)) = []
  /\ currentVersion (executeStartNewProject (persistProjects ok s)) = None
  /\ activeProjectId (executeStartNewProject (persistProjects ok s)) = None.
Proof. destruct ok; repeat split. Qed.

(** X18. The deletion that the modal confirms works on the render in
    which the delete button was clicked. Up to the store it writes the
    project list of that render, less every project that carries the id,
    in its order, over the live list: a project of the live list that the
    render of the click did not have is dropped with it, and nothing else
    of the session changes. After the store, on the session of that
    moment, the project list stays; when the deleted project was not the
    active one of the render of the click, history, pointer and active
    project stay and a failing store leaves the storage error; when it
    was, the session is reset as by [executeStartNewProject], also when
    another project has become active since, and the reset clears the
    error that a failing store has just set. When nothing has changed
    since the click, the two steps are [App.deleteProject]. *)
Theorem deleteProject_removes_every_copy r id ok s later :
  let s1 := deleteProject_start r id s in
  let s2 := deleteProject_settle r id ok later in
  projects s1
  = List.filter (fun p => negb (String.eqb (project_id p) id)) (projects r)
  /\ Forall (fun p => project_id p <> id) (projects s1)
  /\ (forall p, In p (projects s1) <-> In p (projects r) /\ project_id p <> id)
  /\ s1 = setProjects (projects s1) s
  /\ projects s2 = projects later
  /\ (activeProjectId r <> Some id ->
      s2 = persistProjects ok later
      /\ history s2 = history later
      /\ currentIdx s2 = currentIdx later
      /\ activeProjectId s2 = activeProjectId later
      /\ error s2 = (if ok then error later
                     else Some "Storage error. Database might be full."))
  /\ (activeProjectId r = Some id ->
      s2 = executeStartNewProject (persistProjects ok later)
      /\ history s2 = []
      /\ currentVersion s2 = None
      /\ activeProjectId s2 = None
      /\ error s2 = None)
  /\ deleteProject id ok s = deleteProject_settle s id ok (deleteProject_start s id s).
Proof.
  intros s1 s2.
  assert (Hps : projects s1
                = List.filter (fun p => negb (String.eqb (project_id p) id)) (projects r))
    by reflexivity.
  assert (Hin : forall p, In p (projects s1) <-> In p (projects r) /\ project_id p <> id).
  { intros p. rewrite Hps, filter_In. split; intros [Hp Hne]; (split; [exact Hp|]).
    - intros Heq. apply String.eqb_eq in Heq. rewrite Heq in Hne. discriminate.
    - apply String.eqb_neq in Hne. now rewrite Hne. }
  split; [exact Hps|].
  split; [apply Forall_forall; intros p Hp; apply list_elem_of_In, Hin in Hp; tauto|].
  split; [exact Hin|]. split; [reflexivity|].
  destruct (persistProjects_frame ok later) as (Hh & Hi & Hp & Ha & _).
  destruct (executeStartNewProject_persist ok later) as (Ee & Ep & Eh & Ec & Ea).
  subst s2. unfold deleteProject_settle.
  split; [|split; [|split]].
  - destruct (decide (activeProjectId r = Some id)); [exact Ep | exact Hp].
  - intros Hna. destruct (decide (activeProjectId r = Some id)); [contradiction|].
    split; [reflexivity|]. do 3 (split; [assumption|]). now destruct ok.
  - intros Hact. destruct (decide (activeProjectId r = Some id)); [|contradiction].
    split; [reflexivity|]. auto.
  - unfold deleteProject, deleteProject_start.
    destruct (decide (activeProjectId s = Some id)) as [Hs|Hs];
      cbn [activeProjectId setProjects];
      destruct (decide (activeProjectId s = Some id)); try contradiction;
      destruct ok; reflexivity.
Qed.

(** X19. After [executeStartNewProject] there is no current version, the
    stored projects are still there, and the handlers that need a current
    version do nothing: removing a layer, marking a milestone, saving and
    starting an edit leave the session as it is. A handler that was in
    flight is not cancelled: when its result arrives, it puts the history
    of the render it was started in, up to its position, back under the new
    version. *)
Theorem new_project_cancels_nothing_in_flight s :
  let fresh := executeStartNewProject s in
  currentVersion fresh = None
  /\ history fresh = []
  /\ projects fresh = projects s
  /\ activeProjectId fresh = None
  /\ (forall id newId now, removeLayer id newId now fresh = fresh)
  /\ (forall now ok, createSnapshot now ok fresh = fresh)
  /\ (forall newId now ok, storeCurrentProjectState newId now ok fresh = fresh)
  /\ (forall customPrompt tasks,
        handleEdit_start customPrompt (mkWorld fresh tasks) = mkWorld fresh tasks)
  /\ (forall e r cv rawPrompt composed result,
        submission e r cv = inr composed ->
        editImage e composed (orElse rawPrompt "Clean background removal.") = Some result ->
        history (handleEdit_settle e r cv rawPrompt fresh)
        = slice0 (history r) (currentIdx r + 1)
            ++ [mkVersion (randomId e) result [] DEFAULT_LAYOUT
                          (Some (orElse rawPrompt "AI Edit")) (dateNow e)]
        /\ activeProjectId (handleEdit_settle e r cv rawPrompt fresh) = None).
Proof.
  intros fresh.
  assert (Hcv : currentVersion fresh = None) by reflexivity.
  split; [exact Hcv|]. do 3 (split; [reflexivity|]).
  split; [intros id newId now; unfold removeLayer; now rewrite Hcv|].
  split; [intros now ok; unfold createSnapshot; now rewrite Hcv|].
  split; [intros newId now ok; unfold storeCurrentProjectState; now rewrite Hcv|].
  split; [intros customPrompt tasks; unfold handleEdit_start; cbn [live]; now rewrite Hcv|].
  intros e r cv rawPrompt composed result Hsub Hedit.
  unfold handleEdit_settle. rewrite Hsub, Hedit. split; reflexivity.
Qed.

End LifecycleProofs.

(* ===================================================================== *)
(** ** The chat transcript and the guard of the edit *)
(* ===================================================================== *)

Module DialogueProofs.

Import ImageUtils App Editor Spec Vocabulary ImportProofs StudioProofs.

Lemma trim_empty s : trim s <> "" -> s <> "".
Proof. intros H ->. now apply H. Qed.

Lemma orElse_nonempty a b : b <> "" -> orElse a b <> "".
Proof.
  intros Hb. unfold orElse. destruct (String.eqb a "") eqn:E; [exact Hb|].
  now apply String.eqb_neq.
Qed.

Lemma spoken_text m : spoken m -> text m <> "".
Proof. unfold spoken. destruct (role m); [apply trim_empty | auto]. Qed.

Lemma syncBaseLayout_chat s : chatMessages (syncBaseLayout s) = chatMessages s.
Proof. unfold syncBaseLayout. now destruct (currentVersion s). Qed.

Lemma settle_chat e t s : extends (chatMessages s) (chatMessages (settle e t s)).
Proof.
  destruct t as [r cv rawPrompt | r templatePrompt | r userText]; cbn [settle].
  - unfold handleEdit_settle.
    destruct (submission e r cv) as [err|composed]; [constructor|].
    destruct (editImage e composed _); constructor.
  - unfold handleGenerateFromScratch_settle.
    destruct (generateNewImage e templatePrompt); constructor.
  - unfold handleChatSubmit_settle.
    destruct (currentVersion r) as [cv|];
      [destruct (submission e r cv) as [err|composed]; [constructor|]|];
      (destruct (generateContent e _ userText) as [answer|]; [|constructor]);
      cells; apply extends_one; unfold spoken; cbn [role text];
      now apply orElse_nonempty.
Qed.

Lemma afterEvent_chat w ev :
  extends (chatMessages (live w)) (chatMessages (afterEvent w ev)).
Proof.
  destruct ev as [c|t|input|newId now|i e]; cbn [afterEvent].
  - unfold handleEdit_start. destruct (currentVersion (live w)); [|constructor].
    destruct (_ && _); constructor.
  - constructor.
  - constructor.
  - unfold handleChatSubmit_start.
    destruct (String.eqb (trim (chatInput (live w))) "") eqn:E; [constructor|].
    destruct (isProcessing (live w)); [constructor|].
    cbn [orb]. cells. apply extends_one. unfold spoken. cbn [role text].
    now apply String.eqb_neq.
  - destruct (inflight w !! i); [apply settle_chat | constructor].
Qed.

Lemma step_chat w ev :
  extends (chatMessages (live w)) (chatMessages (live (step w ev))).
Proof. rewrite step_live, syncBaseLayout_chat. apply afterEvent_chat. Qed.

Lemma extends_spoken ms ms' : extends ms ms' -> Forall spoken ms -> Forall spoken ms'.
Proof.
  intros [|m Hm] Hs; [exact Hs|].
  apply Forall_app. split; [exact Hs|]. now constructor.
Qed.

Lemma persistProjects_chat ok s : chatMessages (persistProjects ok s) = chatMessages s.
Proof. now destruct ok. Qed.

(** Outside the remote handlers the transcript is kept or cleared. *)
Lemma handle_chat st a :
  Forall spoken (chatMessages (session st)) ->
  Forall spoken (chatMessages (session (handle st a))).
Proof.
  intros Hs. unfold handle. cbv zeta. unfold session in *.
  destruct a as [ev|ps|i|key value|id|m|p|id newId now|newId now storeOk|now storeOk
                |i|id storeOk| | | |i b64 layerId newId now|target| | | |
                |frame|seconds h|h frame|layerId newId now];
    try exact Hs.
  - cbn [world]. eapply extends_spoken; [apply step_chat | exact Hs].
  - now destruct (_ <? _)%nat.
  - cells. unfold updateActiveTransform.
    destruct (String.eqb (activeLayerId (live (world st))) "base"),
             (currentVersion (live (world st))); exact Hs.
  - cells. unfold removeLayer. destruct (currentVersion (live (world st))); [|exact Hs].
    destruct (String.eqb (activeLayerId (live (world st))) id); exact Hs.
  - cells. unfold storeCurrentProjectState.
    destruct (currentVersion (live (world st))); [|exact Hs].
    destruct (truthy (activeProjectId (live (world st)))),
             (activeProjectId (live (world st)));
      rewrite persistProjects_chat; exact Hs.
  - cells. unfold createSnapshot.
    destruct (currentVersion (live (world st))),
             (truthy (activeProjectId (live (world st)))),
             (activeProjectId (live (world st)));
      rewrite ?persistProjects_chat; exact Hs.
  - destruct (projects (live (world st)) !! i); exact Hs.
  - cells. unfold deleteProject.
    destruct (decide (activeProjectId (live (world st)) = Some id));
      [constructor | rewrite persistProjects_chat; exact Hs].
  - constructor.
  - now destruct (currentVersion (live (world st))).
  - destruct (uploads st !! i) as [[r|r cv]|]; cells; [| |exact Hs].
    + unfold handleBaseUpload_settle. destruct b64; exact Hs.
    + unfold handleLayerUpload_settle. destruct b64; exact Hs.
  - unfold confirmCapture.
    destruct (truthy (capturedImage (capture st))), (capturedImage (capture st));
      try exact Hs.
    destruct (importTarget (capture st)), (currentVersion (live (world st))); exact Hs.
Qed.

(** X20. In every run of the editor no message of the chat transcript is
    empty: what stands under the user's name is more than white space
    (the guard of [handleChatSubmit] has let it pass), and the coach's
    message is the answer of the service or, when that is empty, the
    fallback sentence. *)
Theorem transcript_has_no_empty_message (acts : list Action) :
  forall m, In m (chatMessages (session (perform opened acts))) ->
    text m <> ""
    /\ (role m = user -> trim (text m) <> "").
Proof.
  assert (Hs : Forall spoken (chatMessages (session (perform opened acts)))).
  { unfold perform. induction acts as [|a acts IH] using rev_ind; [constructor|].
    rewrite foldl_app. cbn [foldl]. rewrite act_session, syncBaseLayout_chat.
    now apply handle_chat. }
  intros m Hm. rewrite Forall_forall in Hs.
  apply list_elem_of_In, Hs in Hm. split; [now apply spoken_text|].
  intros Hr. unfold spoken in Hm. now rewrite Hr in Hm.
Qed.

(** X21. The handlers that wait for the service write the transcript
    through an updater, which sees the live list: whatever the event, a
    click, a key or a late result, and whatever the render the handler
    was started in, the transcript of before is kept and at most one
    message is put at its end. The chat is busy-guarded: while the busy
    flag is up a submission changes nothing. *)
Theorem late_answers_keep_the_transcript w ev :
  (chatMessages (live (step w ev)) = chatMessages (live w)
   \/ exists m, chatMessages (live (step w ev)) = chatMessages (live w) ++ [m])
  /\ (isProcessing (live w) = true ->
      forall newId now,
        step w (ClickChat newId now) = mkWorld (syncBaseLayout (live w)) (inflight w)).
Proof.
  split.
  - destruct (step_chat w ev) as [|m _]; [now left | right; now exists m].
  - intros Hb newId now. unfold step, handleChatSubmit_start.
    rewrite Hb, orb_true_r. reflexivity.
Qed.

End DialogueProofs.

(* ===================================================================== *)
(** ** The request text *)
(* ===================================================================== *)

Module TemplateProofs.

Import App GeminiService Vocabulary ServiceProofs.

Lemma append_empty (a : string) : a +:+ "" = a.
Proof. induction a as [|x a IH]; [reflexivity|]. now rewrite append_cons, IH. Qed.

Lemma rev_app_spec (a c : string) : String.rev_app a c = String.rev a +:+ c.
Proof.
  revert c. induction a as [|x a IH]; intros c; [reflexivity|].
  unfold String.rev. cbn [String.rev_app].
  rewrite (IH (String x c)), (IH (String x "")), app_assoc_string.
  now rewrite append_cons, append_nil.
Qed.

Lemma rev_cons (x : Ascii.ascii) (a : string) :
  String.rev (String x a) = String.rev a +:+ String x "".
Proof. unfold String.rev at 1. cbn [String.rev_app]. apply rev_app_spec. Qed.

Lemma rev_append (a b : string) :
  String.rev (a +:+ b) = String.rev b +:+ String.rev a.
Proof.
  induction a as [|x a IH].
  - rewrite append_nil. change (String.rev "") with "". now rewrite append_empty.
  - rewrite append_cons, !rev_cons, IH. apply app_assoc_string.
Qed.

Lemma rev_involutive (a : string) : String.rev (String.rev a) = a.
Proof.
  induction a as [|x a IH]; [reflexivity|].
  rewrite rev_cons, rev_append, IH. reflexivity.
Qed.

Lemma trimStart_blank (w s : string) :
  trimStart w = "" -> trimStart (w +:+ s) = trimStart s.
Proof.
  induction w as [|x w IH]; [reflexivity|].
  rewrite append_cons. cbn [trimStart].
  destruct (isWhiteSpace x); [exact IH | discriminate].
Qed.

Lemma trimStart_stop (c : Ascii.ascii) (s : string) :
  isWhiteSpace c = false -> trimStart (String c s) = String c s.
Proof. intros Hc. cbn [trimStart]. now rewrite Hc. Qed.

(** [trim] takes the white space off the two ends and nothing else. *)
Lemma trim_between (w1 w2 h p t h' r : string) (c d : Ascii.ascii) :
  trimStart w1 = "" -> trimStart (String.rev w2) = "" ->
  h = String c h' -> isWhiteSpace c = false ->
  String.rev t = String d r -> isWhiteSpace d = false ->
  trim (w1 +:+ (h +:+ (p +:+ (t +:+ w2)))) = h +:+ (p +:+ t).
Proof.
  intros Hw1 Hw2 Hh Hc Ht Hd. unfold trim.
  rewrite (trimStart_blank _ _ Hw1).
  assert (E1 : trimStart (h +:+ (p +:+ (t +:+ w2))) = h +:+ (p +:+ (t +:+ w2))).
  { rewrite Hh, append_cons. now apply trimStart_stop. }
  rewrite E1.
  assert (E2 : h +:+ (p +:+ (t +:+ w2)) = (h +:+ (p +:+ t)) +:+ w2)
    by now rewrite !app_assoc_string.
  rewrite E2, rev_append, (trimStart_blank _ _ Hw2).
  assert (E3 : trimStart (String.rev (h +:+ (p +:+ t))) = String.rev (h +:+ (p +:+ t))).
  { rewrite !rev_append, Ht, !append_cons. now apply trimStart_stop. }
  rewrite E3. apply rev_involutive.
Qed.

(** X23. The text of the two requests is the template with the prompt put
    in as it is: [trim] removes the line break and the indentation at the
    two ends of the template literal and nothing of the prompt, whatever
    it holds, white space and line breaks at its ends included. *)
Theorem templates_embed_prompt_verbatim (prompt : string) :
  trim (editTemplate prompt) = editHead +:+ prompt +:+ editTail
  /\ trim (generateTemplate prompt) = generateHead +:+ prompt +:+ generateTail.
Proof.
  split.
  - transitivity (trim ((nl +:+ "    ") +:+ (editHead +:+ (prompt +:+ (editTail +:+ (nl +:+ "  ")))))).
    + apply f_equal. vm_compute. reflexivity.
    + eapply trim_between; try reflexivity; vm_compute; reflexivity.
  - transitivity (trim ((nl +:+ "    ") +:+ (generateHead +:+ (prompt +:+ (generateTail +:+ (nl +:+ "  ")))))).
    + apply f_equal. vm_compute. reflexivity.
    + eapply trim_between; try reflexivity; vm_compute; reflexivity.
Qed.

End TemplateProofs.

(* ===================================================================== *)
(** ** The guard of the edit *)
(* ===================================================================== *)

Module GuardProofs.

Import ImageUtils App Editor Spec Vocabulary ServiceProofs TemplateProofs StudioProofs.

Lemma whiteSpaceOnly_app (a b : string) :
  whiteSpaceOnly (a +:+ b) = whiteSpaceOnly a && whiteSpaceOnly b.
Proof.
  induction a as [|x a IH]; [reflexivity|].
  rewrite append_cons. cbn [whiteSpaceOnly]. now rewrite IH, andb_assoc.
Qed.

Lemma whiteSpaceOnly_rev (s : string) : whiteSpaceOnly (String.rev s) = whiteSpaceOnly s.
Proof.
  induction s as [|x s IH]; [reflexivity|].
  rewrite rev_cons, whiteSpaceOnly_app, IH. cbn [whiteSpaceOnly].
  rewrite andb_true_r. apply andb_comm.
Qed.

Lemma whiteSpaceOnly_trimStart (s : string) :
  whiteSpaceOnly (trimStart s) = whiteSpaceOnly s.
Proof.
  induction s as [|x s IH]; [reflexivity|].
  cbn [trimStart]. destruct (isWhiteSpace x) eqn:E.
  - rewrite IH. cbn [whiteSpaceOnly]. now rewrite E.
  - reflexivity.
Qed.

Lemma trimStart_empty (s : string) : trimStart s = "" <-> whiteSpaceOnly s = true.
Proof.
  induction s as [|x s IH]; [tauto|].
  cbn [trimStart whiteSpaceOnly]. destruct (isWhiteSpace x); [exact IH|].
  cbn [andb]. split; discriminate.
Qed.

Lemma rev_empty (s : string) : String.rev s = "" <-> s = "".
Proof.
  split; [|now intros ->].
  intros H. rewrite <- (rev_involutive s), H. reflexivity.
Qed.

(** [trim] leaves nothing exactly of the strings that hold white space
    only. *)
Lemma trim_empty_iff (s : string) : trim s = "" <-> whiteSpaceOnly s = true.
Proof.
  unfold trim.
  rewrite rev_empty, trimStart_empty, whiteSpaceOnly_rev, whiteSpaceOnly_trimStart.
  tauto.
Qed.

(** X22. The guard of [handleEdit], with a current version. The prompt is
    the custom prompt or, without one, the prompt box. When it holds
    white space only (or nothing), the edit is refused outside the
    transform mode: nothing is set and nothing is sent; in the transform
    mode it goes ahead: the busy flag is raised, the service is asked for
    [Clean background removal.], and its result enters the history under
    the label [AI Edit]. When it holds anything else, the edit goes ahead
    in every mode, with the trimmed prompt. *)
Theorem handleEdit_blank_prompt w customPrompt cv :
  currentVersion (live w) = Some cv ->
  let p := orElse (default "" customPrompt) (prompt (live w)) in
  (whiteSpaceOnly p = true ->
   trim p = ""
   /\ (editMode (live w) <> transform -> handleEdit_start customPrompt w = w)
   /\ (editMode (live w) = transform ->
       handleEdit_start customPrompt w
       = mkWorld (setIsProcessing true (live w))
                 (inflight w ++ [EditTask (live w) cv ""])
       /\ forall e s composed,
            submission e (live w) cv = inr composed ->
            match editImage e composed "Clean background removal." with
            | Some result =>
                last (history (handleEdit_settle e (live w) cv "" s))
                = Some (mkVersion (randomId e) result [] DEFAULT_LAYOUT
                                  (Some "AI Edit") (dateNow e))
            | None =>
                history (handleEdit_settle e (live w) cv "" s) = history s
                /\ error (handleEdit_settle e (live w) cv "" s)
                   = Some "Visual synthesis failed. Please try again."
            end))
  /\ (whiteSpaceOnly p = false ->
      trim p <> ""
      /\ handleEdit_start customPrompt w
         = mkWorld (setIsProcessing true (live w))
                   (inflight w ++ [EditTask (live w) cv (trim p)])).
Proof.
  intros Hcv p. split.
  - intros Hb. apply trim_empty_iff in Hb. fold p in Hb.
    split; [exact Hb|]. split.
    + intros Hm. unfold handleEdit_start. fold p. rewrite Hcv, Hb.
      destruct (editMode (live w)); try reflexivity; congruence.
    + intros Hm. split.
      * unfold handleEdit_start. fold p. rewrite Hcv, Hb, Hm. reflexivity.
      * intros e s composed Hsub. unfold handleEdit_settle. rewrite Hsub.
        change (orElse "" "Clean background removal.") with "Clean background removal.".
        destruct (editImage e composed "Clean background removal.") as [result|].
        -- cells. unfold addToHistory. cells. apply last_snoc.
        -- split; reflexivity.
  - intros Hb.
    assert (Hne : trim p <> "").
    { intros He. apply trim_empty_iff in He. rewrite He in Hb. discriminate. }
    split; [exact Hne|].
    unfold handleEdit_start. fold p. rewrite Hcv.
    apply String.eqb_neq in Hne. rewrite Hne. reflexivity.
Qed.

End GuardProofs.

(* ===================================================================== *)
(** ** The further properties on the sessions above *)
(* ===================================================================== *)

Module CaseProofs.

Import ImageUtils App Editor Spec Vocabulary Scenario Cases.
Import ComposeProofs ServiceProofs LayerProofs ImportProofs LibraryProofs CameraProofs
       StudioProofs SoundnessProofs LifecycleProofs DialogueProofs GuardProofs.

Lemma vLayers_no_fresh : ~ hasLayer "fresh" vLayers.
Proof.
  unfold hasLayer, vLayers, layers. intros H.
  repeat (apply Exists_cons in H; destruct H as [H|H]; [discriminate H|]).
  now apply Exists_nil in H.
Defined.

Lemma sLayers_pointed : pointed sLayers.
Proof. unfold pointed. cbn. lia. Defined.

Lemma kLive_tracked : tracked kLive.
Proof. reflexivity. Defined.

Lemma pOne_sound : soundProject pOne.
Proof.
  split; [discriminate|]. split; [cbn; lia|]. split.
  - repeat constructor.
  - constructor.
Defined.

Lemma reopening_admissible : Forall admissible reopening.
Proof.
  unfold reopening. constructor.
  - constructor; [exact pOne_sound | constructor].
  - repeat (constructor; [exact I|]). constructor.
Defined.

(** Base and three layers, the second of which does not decode. *)
Lemma composeImage_reports_skipped_layers_witness :
  decoder "data:A" = Some (mkImage "data:A" 640 360)
  /\ exists c,
       composeImage decoder true "data:A" DEFAULT_LAYOUT [logo; badge; face] = inr c
       /\ console c = ["badge"]
       /\ (length (ops c) <= 3)%nat.
Proof.
  split; [reflexivity|].
  destruct (composeImage_reports_skipped_layers decoder "data:A"
              (mkImage "data:A" 640 360) DEFAULT_LAYOUT [logo; badge; face] eq_refl)
    as (c & Hc & _ & _ & _ & Hcon & Hlen).
  exists c. split; [exact Hc|]. split; [exact Hcon | exact Hlen].
Defined.

Lemma composeImage_appends_later_layers_witness :
  decoder "data:A" = Some (mkImage "data:A" 640 360)
  /\ exists c c',
       composeImage decoder true "data:A" DEFAULT_LAYOUT [logo] = inr c
       /\ composeImage decoder true "data:A" DEFAULT_LAYOUT [logo; badge; face] = inr c'
       /\ length (ops c') = S (length (ops c))
       /\ console c' = console c ++ ["badge"].
Proof.
  split; [reflexivity|].
  destruct (composeImage_appends_later_layers decoder "data:A"
              (mkImage "data:A" 640 360) DEFAULT_LAYOUT [logo] [badge; face] eq_refl)
    as (c & c' & Hc & Hc' & Hops & Hcon).
  exists c, c'. split; [exact Hc|]. split; [exact Hc'|]. split.
  - rewrite Hops, length_app. cbn. lia.
  - exact Hcon.
Defined.

(** The first part with inline data gives the image; the later one is not
    looked at. *)
Lemma editImage_takes_first_inline_part_witness :
  GeminiService.editImage service "data:image/png;base64,AAAA" "brighter" None
  = inr (dataUrl "image/png" "QUJD").
Proof.
  destruct (editImage_takes_first_inline_part service "data:image/png;base64,AAAA"
              "brighter" None) as (Hfirst & _).
  assert (Hpre : Forall (fun part => GeminiService.inlineData part = None)
                   [GeminiService.mkPart None (Some "Here it is.")])
    by (constructor; [reflexivity | constructor]).
  exact (Hfirst answer _ [] [GeminiService.mkPart None (Some "Here it is.")]
           (Some "QUJD") None [GeminiService.mkPart (Some (Some "REVG")) None]
           eq_refl eq_refl eq_refl Hpre).
Defined.

Lemma payload_of_data_url_witness :
  occurs "," "image/png" = false
  /\ occurs "," "QUJD" = false
  /\ GeminiService.payload (dataUrl "image/png" "QUJD") = "QUJD".
Proof.
  split; [reflexivity|]. split; [reflexivity|].
  destruct (payload_of_data_url "image/png" "QUJD" "QUJD") as (_ & Hdata & _).
  apply Hdata; [reflexivity | reflexivity | discriminate].
Defined.

(** The layer [logo] is selected and its scale slider moved to 2. *)
Lemma slider_shows_what_was_set_witness :
  currentVersion sLayers = Some vLayers
  /\ hasLayer (activeLayerId sLayers) vLayers
  /\ sliderValue KScale (updateActiveTransform KScale (Fin 2) sLayers) = Fin 2.
Proof.
  assert (Hl : hasLayer (activeLayerId sLayers) vLayers)
    by (apply Exists_cons_hd; reflexivity).
  split; [reflexivity|]. split; [exact Hl|].
  pose proof (slider_shows_what_was_set sLayers KScale (Fin 2) vLayers eq_refl) as H.
  cbv zeta in H. destruct H as (Hset & _).
  exact (proj1 (Hset (or_intror Hl))).
Defined.

Lemma removeLayer_leaves_no_such_layer_witness :
  currentVersion sLayers = Some vLayers
  /\ exists v,
       currentVersion (removeLayer "badge" "v3" 9 sLayers) = Some v
       /\ layers v = [logo; face]
       /\ ~ hasLayer "badge" v.
Proof.
  split; [reflexivity|].
  pose proof (removeLayer_leaves_no_such_layer sLayers "badge" "v3" 9 vLayers eq_refl) as H.
  cbv zeta in H. destruct H as (v & Hv & _ & _ & Hls & Hno & _).
  exists v. split; [exact Hv|]. split; [exact Hls | exact Hno].
Defined.

Lemma upload_then_remove_restores_layers_witness :
  currentVersion sLayers = Some vLayers
  /\ ~ hasLayer "fresh" vLayers
  /\ exists removed,
       currentVersion
         (removeLayer "fresh" "v4" 10
            (syncBaseLayout
               (handleLayerUpload_settle (Some "data:new") sLayers vLayers "fresh"
                                         "v3" 9 sLayers)))
       = Some removed
       /\ layers removed = [logo; badge; face].
Proof.
  split; [reflexivity|]. split; [exact vLayers_no_fresh|].
  pose proof (upload_then_remove_restores_layers sLayers vLayers "data:new" "fresh"
                "v3" 9 "v4" 10 eq_refl vLayers_no_fresh) as H.
  cbv zeta in H. destruct H as (_ & removed & Hr & _ & Hls & _).
  exists removed. split; [exact Hr | exact Hls].
Defined.

(** A frame accepted for a layer of the current version. *)
Lemma confirmCapture_routes_frame_witness :
  capturedImage kFramed = Some "data:frame"
  /\ pointed sLayers
  /\ currentVersion (fst (confirmCapture "shot" "v3" 9 (sLayers, kFramed)))
     = Some (mkVersion "v3" "data:A"
               [logo; badge; face; importedLayer "shot" "data:frame" "Camera Shot"]
               DEFAULT_LAYOUT (Some "Camera Layer") 9)
  /\ videoMounted (snd (confirmCapture "shot" "v3" 9 (sLayers, kFramed))) = false.
Proof.
  split; [reflexivity|]. split; [exact sLayers_pointed|].
  destruct (confirmCapture_routes_frame "shot" "v3" 9 sLayers kFramed) as (_ & Hframe).
  assert (Hne : "data:frame" <> "") by discriminate.
  pose proof (Hframe "data:frame" eq_refl Hne sLayers_pointed) as H.
  cbv zeta in H. destruct H as (_ & Hvideo & Hlayer & _).
  split; [|exact Hvideo].
  exact (proj1 (Hlayer vLayers eq_refl eq_refl)).
Defined.

Lemma loadProject_lands_on_last_version_witness :
  revisionStack pEmpty = []
  /\ currentVersion (loadProject pEmpty sSaved) = None
  /\ baseLayout (loadProject pEmpty sSaved) = DEFAULT_LAYOUT.
Proof.
  split; [reflexivity|].
  pose proof (loadProject_lands_on_last_version pEmpty sSaved) as H.
  cbv zeta in H. destruct H as (_ & _ & _ & _ & _ & _ & Hempty).
  exact (Hempty eq_refl).
Defined.

Lemma save_then_open_restores_history_witness :
  currentVersion sSaved = Some vA
  /\ is_Some (activeProject sSaved)
  /\ exists p,
       activeProject (storeCurrentProjectState "pN" 77 true sSaved) = Some p
       /\ project_timestamp p = 77
       /\ history (loadProject p initial) = [vA].
Proof.
  assert (Hp : is_Some (activeProject sSaved)) by (exists pOne; reflexivity).
  split; [reflexivity|]. split; [exact Hp|].
  destruct (save_then_open_restores_history "pN" 77 true sSaved vA initial eq_refl
              (fun _ => Hp)) as (p & Hact & _ & Ht & Hh & _).
  exists p. split; [exact Hact|]. split; [exact Ht | exact Hh].
Defined.

(** Three seconds: two firings count down, the third takes the frame. *)
Lemma shutter_fires_when_seconds_are_over_witness :
  tracked kLive
  /\ countdown (ticks 1%positive [None; None] (startAutoCapture 3 1%positive kLive))
     = Some 1
  /\ capturedImage
       (tick 1%positive (Some "data:frame")
          (ticks 1%positive [None; None] (startAutoCapture 3 1%positive kLive)))
     = Some "data:frame"
  /\ running
       (tick 1%positive (Some "data:frame")
          (ticks 1%positive [None; None] (startAutoCapture 3 1%positive kLive)))
     = [].
Proof.
  split; [exact kLive_tracked|].
  assert (H1 : 1 <= 3) by lia.
  pose proof (shutter_fires_when_seconds_are_over 3 1%positive kLive [None; None]
                (Some "data:frame") kLive_tracked H1 eq_refl) as H.
  cbv zeta in H. destruct H as (Hwait & _ & Hrun & _ & Hcap).
  split; [|split; [exact Hcap | exact Hrun]].
  assert (H2 : (2 <= length [@None string; None])%nat) by (cbn; lia).
  exact (proj1 (Hwait 2%nat H2)).
Defined.

Lemma shutter_of_zero_seconds_never_fires_witness :
  tracked kLive
  /\ running (ticks 1%positive [Some "data:f"; Some "data:g"]
                (startAutoCapture 0 1%positive kLive)) = [1%positive]
  /\ capturedImage (ticks 1%positive [Some "data:f"; Some "data:g"]
                      (startAutoCapture 0 1%positive kLive)) = None.
Proof.
  split; [exact kLive_tracked|].
  assert (Hne : [Some "data:f"; Some "data:g"] <> []) by discriminate.
  pose proof (shutter_of_zero_seconds_never_fires 1%positive kLive
                [Some "data:f"; Some "data:g"] kLive_tracked Hne) as H.
  cbv zeta in H. destruct H as (_ & Hrun & _ & Hcap).
  split; [exact Hrun | exact Hcap].
Defined.

(** After a new project there is a history exactly when there is a current
    version: neither. *)
Lemma current_version_exactly_when_history_witness :
  history (session (perform opened [NewProject])) = []
  /\ currentVersion (session (perform opened [NewProject])) = None.
Proof.
  assert (Hh : history (session (perform opened [NewProject])) = []) by reflexivity.
  split; [exact Hh|].
  pose proof (current_version_exactly_when_history [NewProject]) as H.
  cbv zeta in H. destruct H as (_ & Hiff & _).
  exact (proj2 Hiff Hh).
Defined.

Lemma only_saving_writes_projects_witness :
  writesProjects NewProject = false
  /\ projects (session (act stSaved NewProject)) = [pTwo; pOne].
Proof.
  split; [reflexivity|].
  exact (only_saving_writes_projects stSaved NewProject eq_refl).
Defined.

Lemma layouts_stay_complete_witness :
  Forall admissible reopening
  /\ complete (baseLayout (session (perform opened reopening)))
  /\ withDefaults (baseLayout (session (perform opened reopening)))
     = baseLayout (session (perform opened reopening)).
Proof.
  split; [exact reopening_admissible|].
  pose proof (layouts_stay_complete reopening reopening_admissible) as H.
  cbv zeta in H. destruct H as (Hc & Hw & _).
  split; [exact Hc | exact Hw].
Defined.

Lemma projects_stay_well_formed_witness :
  Forall admissible reopening
  /\ In pOne (projects (session (perform opened [ProjectsLoaded [pOne]])))
  /\ forall p, In p (projects (session (perform opened reopening))) ->
       revisionStack p <> [] /\ (snapshotCount p <= MAX_SNAPSHOTS)%nat.
Proof.
  split; [exact reopening_admissible|]. split; [left; reflexivity|].
  intros p Hp.
  pose proof (projects_stay_well_formed reopening reopening_admissible) as H.
  cbv zeta in H. destruct (H p Hp) as (Hne & Hcap & _).
  split; [exact Hne | exact Hcap].
Defined.

(** The active project is deleted from a modal that was opened before a
    further project was stored, and the store fails: the further project
    is dropped and no error is left. *)
Lemma deleteProject_removes_every_copy_witness :
  activeProjectId sSaved = Some "p1"
  /\ In pFresh (projects sStoredSince)
  /\ projects (deleteProject_start sSaved "p1" sStoredSince) = [pTwo]
  /\ ~ In pFresh (projects (deleteProject_start sSaved "p1" sStoredSince))
  /\ history (deleteProject_settle sSaved "p1" false sStoredSince) = []
  /\ error (deleteProject_settle sSaved "p1" false sStoredSince) = None.
Proof.
  split; [reflexivity|]. split; [left; reflexivity|].
  pose proof (deleteProject_removes_every_copy sSaved "p1" false sStoredSince
                sStoredSince) as H.
  cbv zeta in H. destruct H as (Hps & _ & Hin & _ & _ & _ & Hact & _).
  split; [exact Hps|]. split.
  - intros Hp. apply Hin in Hp. destruct Hp as [[Hp|[Hp|[]]] _]; discriminate Hp.
  - destruct (Hact eq_refl) as (_ & Hh & _ & _ & Herr). split; [exact Hh | exact Herr].
Defined.

(** An edit started on [[A; B; C]] at [B] settles after a new project was
    started: [A] and [B] are back. *)
Lemma new_project_cancels_nothing_in_flight_witness :
  history (executeStartNewProject sABC) = []
  /\ history (handleEdit_settle envA sABC vB "sunset" (executeStartNewProject sABC))
     = [vA; vB;
        mkVersion "idA" "edit:sunset" [] DEFAULT_LAYOUT (Some "sunset") 100].
Proof.
  split; [reflexivity|].
  pose proof (new_project_cancels_nothing_in_flight sABC) as H.
  cbv zeta in H. destruct H as (_ & _ & _ & _ & _ & _ & _ & _ & Hlate).
  assert (Hsub : submission envA sABC vB
                 = inr (drawWithLayout blank (mkImage "data:B" 640 360) DEFAULT_LAYOUT))
    by reflexivity.
  exact (proj1 (Hlate envA sABC vB "sunset" _ "edit:sunset" Hsub eq_refl)).
Defined.

Lemma transcript_has_no_empty_message_witness :
  In (mkChatMessage "m1" user "hi" 5)
     (chatMessages (session (perform opened chatting)))
  /\ text (mkChatMessage "m1" user "hi" 5) <> "".
Proof.
  assert (Hin : In (mkChatMessage "m1" user "hi" 5)
                   (chatMessages (session (perform opened chatting))))
    by (left; reflexivity).
  split; [exact Hin|].
  exact (proj1 (transcript_has_no_empty_message chatting _ Hin)).
Defined.

Lemma late_answers_keep_the_transcript_witness :
  isProcessing (live wBusy) = true
  /\ step wBusy (ClickChat "m2" 6) = mkWorld (syncBaseLayout (live wBusy)) (inflight wBusy).
Proof.
  split; [reflexivity|].
  destruct (late_answers_keep_the_transcript wBusy (TypeChat "")) as (_ & Hbusy).
  exact (Hbusy eq_refl "m2" 6).
Defined.

(** A prompt of a no-break space and a space in the styles mode. *)
Lemma handleEdit_blank_prompt_witness :
  currentVersion (live (mkWorld sABC [])) = Some vB
  /\ whiteSpaceOnly
       (orElse (default "" (Some blankPrompt)) (prompt (live (mkWorld sABC [])))) = true
  /\ handleEdit_start (Some blankPrompt) (mkWorld sABC []) = mkWorld sABC [].
Proof.
  split; [reflexivity|]. split; [reflexivity|].
  pose proof (handleEdit_blank_prompt (mkWorld sABC []) (Some blankPrompt) vB eq_refl)
    as H.
  cbv zeta in H. destruct H as (Hblank & _).
  destruct (Hblank eq_refl) as (_ & Hrefused & _).
  apply Hrefused. discriminate.
Defined.

End CaseProofs.
